(** * The DoFn runner of [apache_beam/runners/common.py]

    A shallow embedding of the per-element execution core: the signature of
    a DoFn and its validation, the choice between the two invokers, the
    per-window invoker with its splitting hooks, the output processor and
    the bundle driver with its error augmentation.

    Python objects that the code mutates or shares (WindowedValue objects,
    the invoker's attributes, the receivers) live in an explicit [World];
    every method is a state transformer that either returns or raises. *)

From Stdlib Require Import ZArith.
From stdpp Require Import base option list strings gmap.

Local Set Warnings "-register-all".
Local Open Scope Z_scope.
Local Open Scope string_scope.
Local Open Scope list_scope.

(** ** Values *)

(** An address in the store of WindowedValue objects. *)
Definition loc := nat.

Inductive Window :=
| GlobalWindow
| IntervalWindow (start finish : Z).

Definition Timestamp := Z.

(** Pane metadata; its structure belongs to [apache_beam.utils.windowed_value]
    and is never inspected here. *)
Record PaneInfo := { pane_id : Z }.

(** The Python values that flow through this file.  [VWindowedValue] is a
    reference: a WindowedValue is an object with identity, and the output
    processor assigns to one of its attributes. *)
Inductive PyVal :=
| VNone
| VInt (z : Z)
| VStr (s : string)
| VTuple (items : list PyVal)
| VWindow (w : Window)
| VTimestamp (t : Timestamp)
| VPaneInfo (p : PaneInfo)
| VTaggedOutput (tag : PyVal) (tagged : PyVal)
| VTimestampedValue (stamped : PyVal) (at_time : Timestamp)
| VWindowedValue (ref : loc)
| VObject (name : string).

Record WindowedValue := {
  value : PyVal;
  timestamp : Timestamp;
  windows : list Window;
  pane_info : PaneInfo
}.

(** Modelled from the spec: [WindowedValue.with_value] is defined in
    [apache_beam.utils.windowed_value], not in this file; by the spec the
    result "inherits the input's window/timestamp/pane unchanged". *)
Definition with_value (wv : WindowedValue) (v : PyVal) : WindowedValue :=
  {| value := v; timestamp := timestamp wv;
     windows := windows wv; pane_info := pane_info wv |}.

(** The object [wv] after [wv.windows = ws]. *)
Definition with_windows (wv : WindowedValue) (ws : list Window) : WindowedValue :=
  {| value := value wv; timestamp := timestamp wv;
     windows := ws; pane_info := pane_info wv |}.

(** [key, unused_value = v]: a two-element tuple or a two-character string
    unpacks; every other modelled value raises TypeError or ValueError. *)
Definition unpack2 (v : PyVal) : option (PyVal * PyVal) :=
  match v with
  | VTuple [a; b] => Some (a, b)
  | VStr (String a (String b EmptyString)) =>
      Some (VStr (String a EmptyString), VStr (String b EmptyString))
  | _ => None
  end.

(** ** Exceptions *)

Inductive ExnClass :=
| ValueError
| TypeError
| RuntimeError
| NotImplementedError
| KeyError
| AttributeError
| IndexError
| UnboundLocalError
| StopIteration
| Exception
| ReferenceError
| UserException (name : string) (init_takes_args : bool) (has_dict : bool).

(** Calling [type(exn)] on new arguments succeeds for the built-in classes;
    a user class may have a constructor that refuses them. *)
Definition constructible (c : ExnClass) : bool :=
  match c with
  | UserException _ ok _ => ok
  | _ => true
  end.

(** [exn._tagged_with_step = True] raises AttributeError on an instance
    without a [__dict__]. *)
Definition attribute_settable (c : ExnClass) : bool :=
  match c with
  | UserException _ _ ok => ok
  | _ => true
  end.

Record Exn := {
  exn_class : ExnClass;
  exn_args : list PyVal;
  _tagged_with_step : bool
}.

Definition new_exn (c : ExnClass) (msg : string) : Exn :=
  {| exn_class := c; exn_args := [VStr msg]; _tagged_with_step := false |}.

Inductive Result (A : Type) :=
| Ok (a : A)
| Raise (e : Exn).
Arguments Ok {A} a.
Arguments Raise {A} e.

(** What a DoFn method hands to the output processor: [None], or an
    iterable that yields [items] and then either stops or raises. *)
Inductive Results :=
| ResNone
| ResIter (items : list PyVal) (fault : option Exn).

(** ** Parameter defaults of DoFn methods *)

(** The default values that [MethodWrapper] and the invokers distinguish.
    [BundleFinalizerParam] is the class object itself (the source tests
    [isinstance(d, type)]); the others are instances. *)
Inductive Default :=
| ElementParam
| SideInputParam
| TimestampParam
| WindowParam
| PaneInfoParam
| KeyParam
| StateParam (state_spec : string)
| TimerParam (timer_spec : string)
| RestrictionParam (restriction_provider : string)
| WatermarkEstimatorParam (watermark_estimator : string)
| BundleFinalizerParam
| OtherDefault (repr : string).

#[global] Instance Default_eq_dec : EqDecision Default.
Proof. solve_decision. Defined.

#[global] Instance Window_eq_dec : EqDecision Window.
Proof. solve_decision. Defined.

(** A positional or keyword slot of the argument template of [process]. *)
Inductive Slot :=
| Filled (v : PyVal)
| ArgPlaceholder (placeholder : Default)
| ArgumentPlaceholder.

Definition slot_value (s : Slot) : PyVal :=
  match s with
  | Filled v => v
  | ArgPlaceholder _ => VObject "ArgPlaceholder"
  | ArgumentPlaceholder => VObject "ArgumentPlaceholder"
  end.

(** One invocation of [DoFn.process]. *)
Record Call := {
  call_args : list PyVal;
  call_kwargs : gmap string PyVal
}.

(** ** Collaborators defined outside this file *)

(** A restriction tracker is an object of the surrounding framework; the
    invoker only holds a handle on it. *)
Definition Tracker := nat.

(** What [common.py] imports and calls but does not define.  [U] is the state
    of everything this file does not own: the trackers, the watermark
    estimator and the attributes of the DoFn instance. *)
Class External := {
  U : Type;
  (** [windowed_value.PANE_INFO_UNKNOWN], the default of the [pane_info]
      argument of the [WindowedValue] constructor. *)
  PANE_INFO_UNKNOWN : PaneInfo;
  (** [core.DoFn.DoFnProcessParams]. *)
  DoFnProcessParams : list Default;
  (** [d.param_id] when [isinstance(d, core._DoFnParam)], else [None]. *)
  param_id : Default → option string;
  (** [traceback.format_exception_only(type(exn), exn)[-1].strip()]. *)
  format_exception_only : Exn → string;
  (** [util.insert_values_in_args]; [None] when it raises. *)
  insert_values_in_args :
    list Slot → gmap string Slot → list PyVal →
    option (list Slot * gmap string Slot);
  insert_values_in_args_length : ∀ args kwargs values args' kwargs',
    insert_values_in_args args kwargs values = Some (args', kwargs') →
    length args' = length args;
  (** RestrictionProvider *)
  initial_restriction : PyVal → PyVal;
  create_tracker : PyVal → U → Tracker * U;
  restriction_size : PyVal → PyVal → PyVal;
  (** ThreadsafeRestrictionTracker over the wrapped tracker *)
  tracker_try_split : Tracker → PyVal → U → option (PyVal * PyVal) * U;
  tracker_check_done : Tracker → U → option Exn;
  tracker_deferred_status : Tracker → U → option (PyVal * PyVal);
  tracker_current_progress : Tracker → U → PyVal;
  (** WatermarkEstimator *)
  estimator_reset : U → U;
  estimator_current_watermark : U → PyVal
}.

(** ** The object graph of one runner *)

Section Runner.
Context `{External}.

Record World := {
  (** WindowedValue objects, by address *)
  heap : list WindowedValue;
  (** [receive] calls so far: tag of the receiver and object received *)
  received : list (option string * loc);
  (** [per_element_output_counter.add_input] calls so far *)
  counter_inputs : list nat;
  (** invocations of [DoFn.process] so far *)
  calls : list Call;
  (** [DoFnContext.windowed_value] *)
  context_element : option loc;
  (** attributes of the PerWindowInvoker that change after [__init__] *)
  threadsafe_restriction_tracker : option Tracker;
  current_windowed_value : option loc;
  cache_globally_windowed_args : bool;
  args_for_process : list Slot;
  kwargs_for_process : gmap string Slot;
  (** state of the collaborators *)
  ext : U
}.

Definition set_heap (f : list WindowedValue → list WindowedValue) (σ : World) :=
  {| heap := f (heap σ); received := received σ;
     counter_inputs := counter_inputs σ; calls := calls σ;
     context_element := context_element σ;
     threadsafe_restriction_tracker := threadsafe_restriction_tracker σ;
     current_windowed_value := current_windowed_value σ;
     cache_globally_windowed_args := cache_globally_windowed_args σ;
     args_for_process := args_for_process σ;
     kwargs_for_process := kwargs_for_process σ; ext := ext σ |}.

Definition set_received
    (f : list (option string * loc) → list (option string * loc)) (σ : World) :=
  {| heap := heap σ; received := f (received σ);
     counter_inputs := counter_inputs σ; calls := calls σ;
     context_element := context_element σ;
     threadsafe_restriction_tracker := threadsafe_restriction_tracker σ;
     current_windowed_value := current_windowed_value σ;
     cache_globally_windowed_args := cache_globally_windowed_args σ;
     args_for_process := args_for_process σ;
     kwargs_for_process := kwargs_for_process σ; ext := ext σ |}.

Definition set_counter_inputs (f : list nat → list nat) (σ : World) :=
  {| heap := heap σ; received := received σ;
     counter_inputs := f (counter_inputs σ); calls := calls σ;
     context_element := context_element σ;
     threadsafe_restriction_tracker := threadsafe_restriction_tracker σ;
     current_windowed_value := current_windowed_value σ;
     cache_globally_windowed_args := cache_globally_windowed_args σ;
     args_for_process := args_for_process σ;
     kwargs_for_process := kwargs_for_process σ; ext := ext σ |}.

Definition set_calls (f : list Call → list Call) (σ : World) :=
  {| heap := heap σ; received := received σ;
     counter_inputs := counter_inputs σ; calls := f (calls σ);
     context_element := context_element σ;
     threadsafe_restriction_tracker := threadsafe_restriction_tracker σ;
     current_windowed_value := current_windowed_value σ;
     cache_globally_windowed_args := cache_globally_windowed_args σ;
     args_for_process := args_for_process σ;
     kwargs_for_process := kwargs_for_process σ; ext := ext σ |}.

Definition set_context_element (x : option loc) (σ : World) :=
  {| heap := heap σ; received := received σ;
     counter_inputs := counter_inputs σ; calls := calls σ;
     context_element := x;
     threadsafe_restriction_tracker := threadsafe_restriction_tracker σ;
     current_windowed_value := current_windowed_value σ;
     cache_globally_windowed_args := cache_globally_windowed_args σ;
     args_for_process := args_for_process σ;
     kwargs_for_process := kwargs_for_process σ; ext := ext σ |}.

Definition set_threadsafe_restriction_tracker (x : option Tracker) (σ : World) :=
  {| heap := heap σ; received := received σ;
     counter_inputs := counter_inputs σ; calls := calls σ;
     context_element := context_element σ;
     threadsafe_restriction_tracker := x;
     current_windowed_value := current_windowed_value σ;
     cache_globally_windowed_args := cache_globally_windowed_args σ;
     args_for_process := args_for_process σ;
     kwargs_for_process := kwargs_for_process σ; ext := ext σ |}.

Definition set_current_windowed_value (x : option loc) (σ : World) :=
  {| heap := heap σ; received := received σ;
     counter_inputs := counter_inputs σ; calls := calls σ;
     context_element := context_element σ;
     threadsafe_restriction_tracker := threadsafe_restriction_tracker σ;
     current_windowed_value := x;
     cache_globally_windowed_args := cache_globally_windowed_args σ;
     args_for_process := args_for_process σ;
     kwargs_for_process := kwargs_for_process σ; ext := ext σ |}.

Definition set_cache_globally_windowed_args (x : bool) (σ : World) :=
  {| heap := heap σ; received := received σ;
     counter_inputs := counter_inputs σ; calls := calls σ;
     context_element := context_element σ;
     threadsafe_restriction_tracker := threadsafe_restriction_tracker σ;
     current_windowed_value := current_windowed_value σ;
     cache_globally_windowed_args := x;
     args_for_process := args_for_process σ;
     kwargs_for_process := kwargs_for_process σ; ext := ext σ |}.

Definition set_args_for_process (x : list Slot) (σ : World) :=
  {| heap := heap σ; received := received σ;
     counter_inputs := counter_inputs σ; calls := calls σ;
     context_element := context_element σ;
     threadsafe_restriction_tracker := threadsafe_restriction_tracker σ;
     current_windowed_value := current_windowed_value σ;
     cache_globally_windowed_args := cache_globally_windowed_args σ;
     args_for_process := x;
     kwargs_for_process := kwargs_for_process σ; ext := ext σ |}.

Definition set_kwargs_for_process (x : gmap string Slot) (σ : World) :=
  {| heap := heap σ; received := received σ;
     counter_inputs := counter_inputs σ; calls := calls σ;
     context_element := context_element σ;
     threadsafe_restriction_tracker := threadsafe_restriction_tracker σ;
     current_windowed_value := current_windowed_value σ;
     cache_globally_windowed_args := cache_globally_windowed_args σ;
     args_for_process := args_for_process σ;
     kwargs_for_process := x; ext := ext σ |}.

Definition set_ext (f : U → U) (σ : World) :=
  {| heap := heap σ; received := received σ;
     counter_inputs := counter_inputs σ; calls := calls σ;
     context_element := context_element σ;
     threadsafe_restriction_tracker := threadsafe_restriction_tracker σ;
     current_windowed_value := current_windowed_value σ;
     cache_globally_windowed_args := cache_globally_windowed_args σ;
     args_for_process := args_for_process σ;
     kwargs_for_process := kwargs_for_process σ; ext := f (ext σ) |}.

(** ** Computations that return or raise *)

Definition M (A : Type) : Type := World → Result A * World.

Definition ret {A} (a : A) : M A := λ σ, (Ok a, σ).

Definition raise {A} (e : Exn) : M A := λ σ, (Raise e, σ).

Definition bind {A B} (m : M A) (k : A → M B) : M B :=
  λ σ, match m σ with
       | (Ok a, σ') => k a σ'
       | (Raise e, σ') => (Raise e, σ')
       end.

(** [try: m finally: fin] where [fin] cannot raise. *)
Definition try_finally {A} (m : M A) (fin : World → World) : M A :=
  λ σ, let '(r, σ') := m σ in (r, fin σ').

(** [try: m except BaseException as exn: h exn]. *)
Definition try_except {A} (m : M A) (h : Exn → M A) : M A :=
  λ σ, match m σ with
       | (Ok a, σ') => (Ok a, σ')
       | (Raise e, σ') => h e σ'
       end.

Definition get : M World := λ σ, (Ok σ, σ).

Definition modify (f : World → World) : M unit := λ σ, (Ok tt, f σ).

End Runner.

Notation "'let!' x ':=' m 'in' k" := (bind m (λ x, k))
  (at level 10, x name, m at level 100, k at level 200).
Notation "'let!' ' p ':=' m 'in' k" := (bind m (λ x, match x with p => k end))
  (at level 10, p pattern, m at level 100, k at level 200).
Notation "m ';;' k" := (bind m (λ _, k))
  (at level 100, k at level 200, right associativity).

(** ** Primitive effects *)

Section Primitives.
Context `{External}.

(** Constructing a WindowedValue object. *)
Definition alloc (wv : WindowedValue) : M loc :=
  λ σ, (Ok (length (heap σ)), set_heap (λ h, h ++ [wv]) σ).

(** Reading an object.  No Python run holds a dangling address; the model
    answers one with ReferenceError. *)
Definition deref (l : loc) : M WindowedValue :=
  λ σ, match heap σ !! l with
       | Some wv => (Ok wv, σ)
       | None => (Raise (new_exn ReferenceError "dangling WindowedValue"), σ)
       end.

(** [obj.windows = ws] on the object at [l]. *)
Definition assign_windows (l : loc) (ws : list Window) : M unit :=
  let! wv := deref l in
  modify (set_heap (λ h, <[l := with_windows wv ws]> h)).

(** [receiver.receive(windowed_value)] on the receiver registered for [tag]. *)
Definition receive (tag : option string) (l : loc) : M unit :=
  modify (set_received (λ r, r ++ [(tag, l)])).

(** Python's [ws * n] on a tuple. *)
Definition times (ws : list Window) (n : nat) : list Window :=
  mjoin (replicate n ws).

End Primitives.

(** ** _OutputProcessor *)

Record OutputProcessor := {
  (** [window_fn.assign(AssignContext(timestamp, value))] *)
  window_fn : Timestamp → PyVal → list Window;
  (** the string tags for which [tagged_receivers] holds a receiver; the main
      receiver [tagged_receivers[None]] always exists *)
  tagged_receivers : gset string;
  (** whether a cythonized [per_element_output_counter] is installed *)
  per_element_output_counter : bool
}.

Section Output.
Context `{External}.

(** The head of the loop body: unwrapping a TaggedOutput. *)
Definition unwrap_tag (result : PyVal) : M (option string * PyVal) :=
  match result with
  | VTaggedOutput tag inner =>
      match tag with
      | VStr s => ret (Some s, inner)
      | _ => raise (new_exn TypeError "tag is not a string")
      end
  | _ => ret (None, result)
  end.

(** [windowed_value.windows *= len(windowed_input_element.windows)]: an
    assignment to the [windows] attribute of the object [l]. *)
Definition multiply_windows (l : loc) (n : nat) : M unit :=
  let! wv := deref l in
  assign_windows l (times (windows wv) n).

(** The middle of the loop body: the WindowedValue object to dispatch. *)
Definition to_windowed_value
    (self : OutputProcessor) (windowed_input_element : option loc)
    (result : PyVal) : M loc :=
  match result with
  | VWindowedValue windowed_value =>
      match windowed_input_element with
      | Some i =>
          let! input := deref i in
          if decide (length (windows input) ≠ 1%nat)
          then multiply_windows windowed_value (length (windows input)) ;;
               ret windowed_value
          else ret windowed_value
      | None => ret windowed_value
      end
  | VTimestampedValue v ts =>
      let! windowed_value :=
        alloc {| value := v; timestamp := ts; windows := window_fn self ts v;
                 pane_info := PANE_INFO_UNKNOWN |} in
      match windowed_input_element with
      | Some i =>
          let! input := deref i in
          if decide (length (windows input) ≠ 1%nat)
          then multiply_windows windowed_value (length (windows input)) ;;
               ret windowed_value
          else ret windowed_value
      | None => raise (new_exn AttributeError "NoneType has no attribute windows")
      end
  | _ =>
      match windowed_input_element with
      | Some i =>
          let! input := deref i in
          alloc (with_value input result)
      | None => raise (new_exn AttributeError "NoneType has no attribute with_value")
      end
  end.

(** The tail of the loop body: the receiver for the tag. *)
Definition dispatch (self : OutputProcessor) (tag : option string) (l : loc) : M unit :=
  match tag with
  | None => receive None l
  | Some t =>
      if decide (t ∈ tagged_receivers self)
      then receive (Some t) l
      else raise (new_exn KeyError t)
  end.

(** [for result in results: ...]; returns [output_element_count]. *)
Fixpoint process_outputs_loop
    (self : OutputProcessor) (windowed_input_element : option loc)
    (items : list PyVal) (output_element_count : nat) : M nat :=
  match items with
  | [] => ret output_element_count
  | result :: rest =>
      let! '(tag, result) := unwrap_tag result in
      let! windowed_value := to_windowed_value self windowed_input_element result in
      dispatch self tag windowed_value ;;
      process_outputs_loop self windowed_input_element rest (S output_element_count)
  end.

Definition add_input (self : OutputProcessor) (n : nat) : M unit :=
  if per_element_output_counter self
  then modify (set_counter_inputs (λ c, c ++ [n]))
  else ret tt.

Definition process_outputs
    (self : OutputProcessor) (windowed_input_element : option loc)
    (results : Results) : M unit :=
  match results with
  | ResNone => add_input self 0
  | ResIter items fault =>
      let! output_element_count :=
        process_outputs_loop self windowed_input_element items 0 in
      match fault with
      | Some e => raise e
      | None => add_input self output_element_count
      end
  end.

Definition start_bundle_outputs (self : OutputProcessor) (results : Results) : M unit :=
  match results with
  | ResNone => ret tt
  | ResIter _ _ =>
      raise (new_exn RuntimeError "Start Bundle should not output any elements")
  end.

Fixpoint finish_bundle_outputs_loop
    (self : OutputProcessor) (items : list PyVal) : M unit :=
  match items with
  | [] => ret tt
  | result :: rest =>
      let! '(tag, result) := unwrap_tag result in
      let! windowed_value :=
        match result with
        | VWindowedValue l => ret l
        | _ => raise (new_exn RuntimeError
                        "Finish Bundle should only output WindowedValue type")
        end in
      dispatch self tag windowed_value ;;
      finish_bundle_outputs_loop self rest
  end.

Definition finish_bundle_outputs (self : OutputProcessor) (results : Results) : M unit :=
  match results with
  | ResNone => ret tt
  | ResIter items fault =>
      finish_bundle_outputs_loop self items ;;
      match fault with
      | Some e => raise e
      | None => ret tt
      end
  end.

End Output.

(** Vocabulary of the statements about the output processor: a result that
    is neither a TaggedOutput, a WindowedValue nor a TimestampedValue, and
    the WindowedValue objects among the results, tagged or not. *)
Definition plain (v : PyVal) : bool :=
  match v with
  | VTaggedOutput _ _ | VWindowedValue _ | VTimestampedValue _ _ => false
  | _ => true
  end.

Definition windowed_result (v : PyVal) : option loc :=
  match v with
  | VWindowedValue r => Some r
  | VTaggedOutput _ (VWindowedValue r) => Some r
  | _ => None
  end.

Definition result_objects (results : Results) : list loc :=
  match results with
  | ResNone => []
  | ResIter items _ => omap windowed_result items
  end.

(** The receiver that a result of [process] is meant for: the tag of a
    TaggedOutput, and the main receiver for everything else. *)
Definition result_tag (v : PyVal) : option string :=
  match v with
  | VTaggedOutput (VStr s) _ => Some s
  | _ => None
  end.

(** What [finish_bundle_outputs] hands on for one result: the receiver and
    the WindowedValue object, or nothing when the result is no (tagged)
    WindowedValue. *)
Definition finish_target (v : PyVal) : option (option string * loc) :=
  match v with
  | VWindowedValue l => Some (None, l)
  | VTaggedOutput (VStr s) (VWindowedValue l) => Some (Some s, l)
  | _ => None
  end.

(** ** The DoFn and its signature *)

(** A method of the user's DoFn, as [MethodWrapper] sees it:
    [core.get_function_arguments] gives the names and the defaults. *)
Record MethodWrapper := {
  args : list string;
  defaults : list Default
}.

(** Python's [l[-n:]] for [n = len(defaults)]: the last [n] items, and the
    whole list when [n] is zero. *)
Definition last_items {A} (n : nat) (l : list A) : list A :=
  match n with
  | O => l
  | _ => drop (length l - n) l
  end.

(** The pairs that the loops over [zip(args[-len(defaults):], defaults)] see. *)
Definition named_defaults (m : MethodWrapper) : list (string * Default) :=
  zip (last_items (length (defaults m)) (args m)) (defaults m).

(** [MethodWrapper.__init__]: a later parameter of the same kind overwrites
    an earlier one. *)
Definition restriction_provider (m : MethodWrapper) : option string :=
  foldl (λ acc kv, match kv.2 with RestrictionParam p => Some p | _ => acc end)
        None (named_defaults m).

Definition restriction_provider_arg_name (m : MethodWrapper) : option string :=
  foldl (λ acc kv, match kv.2 with RestrictionParam _ => Some kv.1 | _ => acc end)
        None (named_defaults m).

Definition watermark_estimator_of (m : MethodWrapper) : option string :=
  foldl (λ acc kv, match kv.2 with WatermarkEstimatorParam e => Some e | _ => acc end)
        None (named_defaults m).

Definition watermark_estimator_arg_name (m : MethodWrapper) : option string :=
  foldl (λ acc kv, match kv.2 with WatermarkEstimatorParam _ => Some kv.1 | _ => acc end)
        None (named_defaults m).

(** Python truthiness of an optional string. *)
Definition truthy (s : option string) : bool :=
  match s with
  | Some (String _ _) => true
  | _ => false
  end.

Section Signature.
Context `{External}.

(** What a method of the DoFn does when called: it reads the store, may
    construct new WindowedValue objects (appended to the store) and may
    change the state of the collaborators. *)
Definition Body (A : Type) : Type :=
  list WindowedValue → U → Result A * list WindowedValue * U.

Record DoFn := {
  process : MethodWrapper;
  process_body : Call → Body Results;
  start_bundle : MethodWrapper;
  start_bundle_body : Body Results;
  finish_bundle : MethodWrapper;
  finish_bundle_body : Body Results;
  setup : MethodWrapper;
  setup_body : Body unit;
  teardown : MethodWrapper;
  teardown_body : Body unit;
  (** [userstate.is_stateful_dofn(do_fn)] *)
  is_stateful : bool;
  (** the fault of [userstate.validate_stateful_dofn(do_fn)], if any *)
  stateful_fault : option Exn
}.

Record DoFnSignature := {
  do_fn : DoFn;
  process_method : MethodWrapper;
  start_bundle_method : MethodWrapper;
  finish_bundle_method : MethodWrapper;
  setup_lifecycle_method : MethodWrapper;
  teardown_lifecycle_method : MethodWrapper;
  _is_stateful_dofn : bool
}.

Definition get_restriction_provider (self : DoFnSignature) : option string :=
  restriction_provider (process_method self).

Definition get_watermark_estimator (self : DoFnSignature) : option string :=
  watermark_estimator_of (process_method self).

Definition is_splittable_dofn (self : DoFnSignature) : bool :=
  bool_decide (get_restriction_provider self ≠ None).

Definition is_stateful_dofn (self : DoFnSignature) : bool :=
  _is_stateful_dofn self.

(** [param_ids] of [_validate_process]. *)
Definition param_ids (ds : list Default) : list string :=
  omap param_id ds.

Definition _validate_process (d : DoFn) : Result unit :=
  if bool_decide (NoDup (param_ids (defaults (process d))))
  then Ok tt
  else Raise (new_exn ValueError "DoFn has duplicate process method parameters").

Definition _validate_bundle_method (method_wrapper : MethodWrapper) : Result unit :=
  if existsb (λ param, bool_decide (param ∈ defaults method_wrapper))
             DoFnProcessParams
  then Raise (new_exn ValueError
                "DoFn.process() method-only parameter cannot be used")
  else Ok tt.

Definition _validate_stateful_dofn (d : DoFn) : Result unit :=
  match stateful_fault d with
  | Some e => Raise e
  | None => Ok tt
  end.

Definition and_then {A B} (r : Result A) (k : A → Result B) : Result B :=
  match r with
  | Ok a => k a
  | Raise e => Raise e
  end.

Definition _validate (d : DoFn) : Result unit :=
  and_then (_validate_process d) (λ _,
  and_then (_validate_bundle_method (start_bundle d)) (λ _,
  and_then (_validate_bundle_method (finish_bundle d)) (λ _,
  _validate_stateful_dofn d))).

(** [DoFnSignature.__init__]. *)
Definition DoFnSignature_init (d : DoFn) : Result DoFnSignature :=
  and_then (_validate d) (λ _,
  Ok {| do_fn := d;
        process_method := process d;
        start_bundle_method := start_bundle d;
        finish_bundle_method := finish_bundle d;
        setup_lifecycle_method := setup d;
        teardown_lifecycle_method := teardown d;
        _is_stateful_dofn := is_stateful d |}).

(** Calling a method of the DoFn from the runner. *)
Definition call_user {A} (body : Body A) : M A :=
  λ σ, let '(r, fresh, u) := body (heap σ) (ext σ) in
       (r, set_ext (λ _, u) (set_heap (λ h, h ++ fresh) σ)).

End Signature.

(** ** Invokers *)

Record SideInputMap := {
  is_globally_windowed : bool;
  side_input_at : Window → PyVal
}.

Record UserStateContext := {
  get_state : string → PyVal → Window → PyVal;
  get_timer : string → PyVal → Window → PyVal
}.

(** Python's [l[:n]] and [l[n:]] for an integer [n] of either sign. *)
Definition slice_to {A} (n : Z) (l : list A) : list A :=
  if decide (0 ≤ n)%Z then take (Z.to_nat n) l
  else take (Z.to_nat (Z.of_nat (length l) + n)%Z) l.

Definition slice_from {A} (n : Z) (l : list A) : list A :=
  if decide (0 ≤ n)%Z then drop (Z.to_nat n) l
  else drop (Z.to_nat (Z.of_nat (length l) + n)%Z) l.

(** The loop of [PerWindowInvoker.__init__] over the parameters with
    defaults: the template so far, the iterator over the remaining input
    arguments, and [is_key_param_required]. *)
Fixpoint fill_defaults
    (named : list (string * Default)) (input_kwargs : gmap string Slot)
    (args_with_placeholders remaining : list Slot) (key_required : bool)
    : Result (list Slot * list Slot * bool) :=
  match named with
  | [] => Ok (args_with_placeholders, remaining, key_required)
  | (a, d) :: rest =>
      match d with
      | ElementParam | WindowParam | TimestampParam | PaneInfoParam
      | StateParam _ | TimerParam _ | BundleFinalizerParam =>
          fill_defaults rest input_kwargs
            (args_with_placeholders ++ [ArgPlaceholder d]) remaining key_required
      | KeyParam =>
          fill_defaults rest input_kwargs
            (args_with_placeholders ++ [ArgPlaceholder d]) remaining true
      | SideInputParam =>
          match remaining with
          | x :: remaining' =>
              fill_defaults rest input_kwargs
                (args_with_placeholders ++ [x]) remaining' key_required
          | [] =>
              if decide (is_Some (input_kwargs !! a))
              then fill_defaults rest input_kwargs
                     args_with_placeholders [] key_required
              else Raise (new_exn ValueError "Value for sideinput not provided")
          end
      | RestrictionParam _ | WatermarkEstimatorParam _ | OtherDefault _ =>
          match remaining with
          | x :: remaining' =>
              fill_defaults rest input_kwargs
                (args_with_placeholders ++ [x]) remaining' key_required
          | [] =>
              fill_defaults rest input_kwargs
                args_with_placeholders [] key_required
          end
      end
  end.

(** [[(i, x.placeholder) for (i, x) in enumerate(args) if isinstance(x,
    ArgPlaceholder)]], counting from [i]. *)
Fixpoint placeholders_from (i : nat) (template : list Slot) : list (nat * Default) :=
  match template with
  | [] => []
  | ArgPlaceholder d :: rest => (i, d) :: placeholders_from (S i) rest
  | _ :: rest => placeholders_from (S i) rest
  end.

Section Invokers.
Context `{External}.

(** The attributes of a PerWindowInvoker that [__init__] fixes for good. *)
Record PerWindowInvoker := {
  output_processor : OutputProcessor;
  signature : DoFnSignature;
  side_inputs : list SideInputMap;
  has_windowed_inputs : bool;
  user_state_context : option UserStateContext;
  is_splittable : bool;
  watermark_estimator : option string;
  watermark_estimator_param : option string;
  bundle_finalizer_param : PyVal;
  is_key_param_required : bool;
  placeholders : list (nat * Default)
}.

Inductive DoFnInvoker :=
| SimpleInvoker (output_processor : OutputProcessor) (signature : DoFnSignature)
| PerWindow (self : PerWindowInvoker).

(** The second disjunct of [has_windowed_inputs] is a membership test on the
    defaults of [process]. *)
Definition compute_has_windowed_inputs
    (signature : DoFnSignature) (side_inputs : list SideInputMap) : bool :=
  negb (forallb is_globally_windowed side_inputs)
  || bool_decide (WindowParam ∈ defaults (process_method signature))
  || is_stateful_dofn signature.

(** [PerWindowInvoker.__init__]: the immutable attributes are returned, the
    mutable ones are written to the world. *)
Definition PerWindowInvoker_init
    (output_processor : OutputProcessor) (signature : DoFnSignature)
    (side_inputs : list SideInputMap)
    (input_args : option (list Slot)) (input_kwargs : option (gmap string Slot))
    (user_state_context : option UserStateContext)
    (bundle_finalizer_param : PyVal) : M PerWindowInvoker :=
  let default_arg_values := defaults (process_method signature) in
  let has_windowed_inputs := compute_has_windowed_inputs signature side_inputs in
  let watermark_estimator := get_watermark_estimator signature in
  let input_args := default [] input_args in
  let input_kwargs := default ∅ input_kwargs in
  let arg_names := args (process_method signature) in
  let '(args_to_pick, args_with_placeholders) :=
    if bool_decide (ElementParam ∉ default_arg_values)
    then let n := (Z.of_nat (length arg_names)
                   - Z.of_nat (length default_arg_values) - 1)%Z in
         (n, ArgPlaceholder ElementParam :: slice_to n input_args)
    else let n := (Z.of_nat (length arg_names)
                   - Z.of_nat (length default_arg_values))%Z in
         (n, slice_to n input_args) in
  match fill_defaults (named_defaults (process_method signature)) input_kwargs
          args_with_placeholders (slice_from args_to_pick input_args) false with
  | Raise e => raise e
  | Ok (args_with_placeholders, remaining, key_required) =>
      let args_with_placeholders := args_with_placeholders ++ remaining in
      modify (set_threadsafe_restriction_tracker None) ;;
      modify (set_current_windowed_value None) ;;
      modify (set_cache_globally_windowed_args (negb has_windowed_inputs)) ;;
      modify (set_args_for_process args_with_placeholders) ;;
      modify (set_kwargs_for_process input_kwargs) ;;
      ret {| output_processor := output_processor;
             signature := signature;
             side_inputs := side_inputs;
             has_windowed_inputs := has_windowed_inputs;
             user_state_context := user_state_context;
             is_splittable := is_splittable_dofn signature;
             watermark_estimator := watermark_estimator;
             watermark_estimator_param :=
               match watermark_estimator with
               | Some _ => watermark_estimator_arg_name (process_method signature)
               | None => None
               end;
             bundle_finalizer_param := bundle_finalizer_param;
             is_key_param_required := key_required;
             placeholders := placeholders_from 0 args_with_placeholders |}
  end.

(** Python truthiness of an optional list and of an optional dict. *)
Definition nonempty_list {A} (l : option (list A)) : bool :=
  match l with
  | Some (_ :: _) => true
  | _ => false
  end.

Definition nonempty_dict {A} (d : option (gmap string A)) : bool :=
  match d with
  | Some m => negb (bool_decide (m = ∅))
  | None => false
  end.

(** The local variable [use_simple_invoker] of [create_invoker]. *)
Definition use_simple_invoker
    (signature : DoFnSignature) (side_inputs : option (list SideInputMap))
    (input_args : option (list Slot)) (input_kwargs : option (gmap string Slot))
    (process_invocation : bool) : bool :=
  negb process_invocation
  || (negb (nonempty_list side_inputs)
      && negb (nonempty_list input_args)
      && negb (nonempty_dict input_kwargs)
      && negb (bool_decide (defaults (process_method signature) ≠ []))
      && negb (is_stateful_dofn signature)).

Definition create_invoker
    (signature : DoFnSignature) (output_processor : OutputProcessor)
    (side_inputs : option (list SideInputMap))
    (input_args : option (list Slot)) (input_kwargs : option (gmap string Slot))
    (process_invocation : bool)
    (user_state_context : option UserStateContext)
    (bundle_finalizer_param : PyVal) : M DoFnInvoker :=
  if use_simple_invoker signature side_inputs input_args input_kwargs
       process_invocation
  then ret (SimpleInvoker output_processor signature)
  else
    let! inv := PerWindowInvoker_init output_processor signature
                  (default [] side_inputs) input_args input_kwargs
                  user_state_context bundle_finalizer_param in
    ret (PerWindow inv).

(** The invoker's kind: what [create_invoker] chose. *)
Definition is_simple (inv : DoFnInvoker) : bool :=
  match inv with
  | SimpleInvoker _ _ => true
  | PerWindow _ => false
  end.

(** Recording and performing one call of [DoFn.process]. *)
Definition call_process (signature : DoFnSignature) (c : Call) : M Results :=
  modify (set_calls (λ cs, cs ++ [c])) ;;
  call_user (process_body (do_fn signature) c).

(** [SimpleInvoker.invoke_process]. *)
Definition SimpleInvoker_invoke_process
    (self_output_processor : OutputProcessor) (signature : DoFnSignature)
    (windowed_value : loc) (output_processor : option OutputProcessor) : M PyVal :=
  let output_processor := default self_output_processor output_processor in
  let! wv := deref windowed_value in
  let! results := call_process signature
                    {| call_args := [value wv]; call_kwargs := ∅ |} in
  process_outputs output_processor (Some windowed_value) results ;;
  ret VNone.

(** The value that the loop over [self.placeholders] writes for one
    placeholder; [None] leaves the slot as it is. *)
Definition placeholder_value
    (self : PerWindowInvoker) (wv : WindowedValue)
    (key : option PyVal) (window : option Window) (p : Default)
    : Result (option PyVal) :=
  match p with
  | ElementParam => Ok (Some (value wv))
  | KeyParam =>
      match key with
      | Some k => Ok (Some k)
      | None => Raise (new_exn UnboundLocalError "key")
      end
  | WindowParam =>
      match window with
      | Some w => Ok (Some (VWindow w))
      | None => Raise (new_exn UnboundLocalError "window")
      end
  | TimestampParam => Ok (Some (VTimestamp (timestamp wv)))
  | PaneInfoParam => Ok (Some (VPaneInfo (pane_info wv)))
  | StateParam spec =>
      match user_state_context self, key, window with
      | None, _, _ => Raise (new_exn AttributeError "NoneType has no attribute get_state")
      | Some _, None, _ => Raise (new_exn UnboundLocalError "key")
      | Some _, Some _, None => Raise (new_exn UnboundLocalError "window")
      | Some usc, Some k, Some w => Ok (Some (get_state usc spec k w))
      end
  | TimerParam spec =>
      match user_state_context self, key, window with
      | None, _, _ => Raise (new_exn AttributeError "NoneType has no attribute get_timer")
      | Some _, None, _ => Raise (new_exn UnboundLocalError "key")
      | Some _, Some _, None => Raise (new_exn UnboundLocalError "window")
      | Some usc, Some k, Some w => Ok (Some (get_timer usc spec k w))
      end
  | BundleFinalizerParam => Ok (Some (bundle_finalizer_param self))
  | _ => Ok None
  end.

(** [for i, p in self.placeholders: args_for_process[i] = ...].  The list is
    filled in place, so what was written before a fault stays written: the
    result is the list as the loop left it and the fault, if any. *)
Fixpoint fill_placeholders
    (self : PerWindowInvoker) (wv : WindowedValue)
    (key : option PyVal) (window : option Window)
    (ps : list (nat * Default)) (args_for_process : list Slot)
    : list Slot * option Exn :=
  match ps with
  | [] => (args_for_process, None)
  | (i, p) :: rest =>
      match placeholder_value self wv key window p with
      | Raise e => (args_for_process, Some e)
      | Ok None => fill_placeholders self wv key window rest args_for_process
      | Ok (Some v) =>
          if decide (i < length args_for_process)%nat
          then fill_placeholders self wv key window rest
                 (<[i := Filled v]> args_for_process)
          else (args_for_process,
                Some (new_exn IndexError "list assignment index out of range"))
      end
  end.

End Invokers.

Section PerWindow.
Context `{External}.

(** Calls into the collaborators. *)
Definition invoke_create_tracker (signature : DoFnSignature) (restriction : PyVal)
    : M Tracker :=
  match get_restriction_provider signature with
  | None => raise (new_exn AttributeError "NoneType has no attribute method_value")
  | Some _ =>
      λ σ, let '(t, u) := create_tracker restriction (ext σ) in
           (Ok t, set_ext (λ _, u) σ)
  end.

Definition invoke_initial_restriction (signature : DoFnSignature) (element : PyVal)
    : M PyVal :=
  match get_restriction_provider signature with
  | None => raise (new_exn AttributeError "NoneType has no attribute method_value")
  | Some _ => ret (initial_restriction element)
  end.

Definition do_try_split (t : Tracker) (fraction : PyVal) : M (option (PyVal * PyVal)) :=
  λ σ, let '(split, u) := tracker_try_split t fraction (ext σ) in
       (Ok split, set_ext (λ _, u) σ).

(** The first part of [_invoke_process_per_window]: the argument lists to
    fill, whether they are the invoker's own lists ([shared]) or fresh
    copies, and the local variable [window] when it is bound. *)
Definition prepare_args
    (self : PerWindowInvoker) (wv : WindowedValue) (additional_args : list PyVal)
    : M (bool * option Window * list Slot * gmap string Slot) :=
  let! σ := get in
  if has_windowed_inputs self then
    match windows wv with
    | [window] =>
        match insert_values_in_args (args_for_process σ) (kwargs_for_process σ)
                (((λ si, side_input_at si window) <$> side_inputs self)
                 ++ additional_args) with
        | Some (a, k) => ret (false, Some window, a, k)
        | None => raise (new_exn StopIteration "")
        end
    | _ => raise (new_exn ValueError "wrong number of values to unpack")
    end
  else if cache_globally_windowed_args σ then
    modify (set_cache_globally_windowed_args false) ;;
    match insert_values_in_args (args_for_process σ) (kwargs_for_process σ)
            ((λ si, side_input_at si GlobalWindow) <$> side_inputs self) with
    | Some (a, k) =>
        modify (set_args_for_process a) ;;
        modify (set_kwargs_for_process k) ;;
        ret (true, None, a, k)
    | None => raise (new_exn StopIteration "")
    end
  else ret (true, None, args_for_process σ, kwargs_for_process σ).

(** [key, unused_value = windowed_value.value] under its guard. *)
Definition extract_key (self : PerWindowInvoker) (wv : WindowedValue)
    : M (option PyVal) :=
  if bool_decide (is_Some (user_state_context self)) || is_key_param_required self
  then match unpack2 (value wv) with
       | Some (key, _) => ret (Some key)
       | None => raise (new_exn ValueError
                   "Input value to a stateful DoFn or KeyParam must be a KV tuple")
       end
  else ret None.

(** The last part of [_invoke_process_per_window], under [if
    self.is_splittable]. *)
Definition deferred_residual (self : PerWindowInvoker) (windowed_value : loc)
    : M PyVal :=
  let! σ := get in
  match threadsafe_restriction_tracker σ with
  | None => raise (new_exn AttributeError "NoneType has no attribute check_done")
  | Some t =>
      match tracker_check_done t (ext σ) with
      | Some e => raise e
      | None =>
          let output_watermark :=
            match watermark_estimator self with
            | Some _ => estimator_current_watermark (ext σ)
            | None => VNone
            end in
          match tracker_deferred_status t (ext σ) with
          | Some (deferred_restriction, deferred_watermark) =>
              let! wv := deref windowed_value in
              let element := value wv in
              let size := restriction_size element deferred_restriction in
              let! l := alloc (with_value wv
                          (VTuple [VTuple [element; deferred_restriction]; size])) in
              ret (VTuple [VTuple [VWindowedValue l; output_watermark];
                           deferred_watermark])
          | None => ret VNone
          end
      end
  end.

Definition _invoke_process_per_window
    (self : PerWindowInvoker) (windowed_value : loc)
    (additional_args : list PyVal) (additional_kwargs : gmap string PyVal)
    (output_processor : OutputProcessor) : M PyVal :=
  let! wv := deref windowed_value in
  let! '(shared, window, args_for_process, kwargs_for_process) :=
    prepare_args self wv additional_args in
  let! key := extract_key self wv in
  let '(args_for_process, fault) :=
    fill_placeholders self wv key window (placeholders self) args_for_process in
  (if shared : bool then modify (set_args_for_process args_for_process) else ret tt) ;;
  match fault with
  | Some e => raise e
  | None =>
      let kwargs_for_process :=
        (Filled <$> additional_kwargs) ∪ kwargs_for_process in
      (if shared then modify (set_kwargs_for_process kwargs_for_process)
       else ret tt) ;;
      let! results :=
        call_process (signature self)
          {| call_args := slot_value <$> args_for_process;
             call_kwargs := slot_value <$> kwargs_for_process |} in
      process_outputs output_processor (Some windowed_value) results ;;
      if is_splittable self then deferred_residual self windowed_value
      else ret VNone
  end.

(** The loop [for w in windowed_value.windows] of [invoke_process]: each turn
    constructs [WindowedValue(value, timestamp, (w,))], leaving [pane_info]
    to the constructor's default. *)
Fixpoint invoke_per_window
    (self : PerWindowInvoker) (windowed_value : loc) (ws : list Window)
    (additional_args : list PyVal) (additional_kwargs : gmap string PyVal)
    (output_processor : OutputProcessor) : M unit :=
  match ws with
  | [] => ret tt
  | w :: rest =>
      let! wv := deref windowed_value in
      let! exploded := alloc {| value := value wv; timestamp := timestamp wv;
                                windows := [w]; pane_info := PANE_INFO_UNKNOWN |} in
      _invoke_process_per_window self exploded additional_args additional_kwargs
        output_processor ;;
      invoke_per_window self windowed_value rest additional_args additional_kwargs
        output_processor
  end.

(** The branch [if restriction_tracker:] of [invoke_process]. *)
Definition invoke_with_tracker
    (self : PerWindowInvoker) (windowed_value : loc) (restriction_tracker : Tracker)
    (additional_args : list PyVal) (additional_kwargs : gmap string PyVal)
    (output_processor : OutputProcessor) : M PyVal :=
  let! wv := deref windowed_value in
  if bool_decide (1 < length (windows wv))%nat && has_windowed_inputs self
  then raise (new_exn NotImplementedError
                "SDFs in multiply-windowed values with windowed arguments.")
  else
    let restriction_tracker_param :=
      restriction_provider_arg_name (process_method (signature self)) in
    match restriction_tracker_param with
    | Some (String c s) =>
        let restriction_tracker_param := String c s in
        modify (set_threadsafe_restriction_tracker (Some restriction_tracker)) ;;
        let additional_kwargs :=
          <[restriction_tracker_param := VObject "RestrictionTrackerView"]>
            additional_kwargs in
        (match watermark_estimator self with
         | Some _ => modify (set_ext estimator_reset)
         | None => ret tt
         end) ;;
        (* [None] stands for a dict with the key [None], which arises only
           if [watermark_estimator_param] is unset next to an estimator; the
           call of [process] then refuses the keywords. *)
        let additional_kwargs :=
          match watermark_estimator self, watermark_estimator_param self with
          | Some _, Some p =>
              Some (<[p := VObject "WatermarkEstimator"]> additional_kwargs)
          | Some _, None => None
          | None, _ => Some additional_kwargs
          end in
        try_finally
          (modify (set_current_windowed_value (Some windowed_value)) ;;
           match additional_kwargs with
           | Some additional_kwargs =>
               _invoke_process_per_window self windowed_value additional_args
                 additional_kwargs output_processor
           | None => raise (new_exn TypeError "keywords must be strings")
           end)
          (λ σ, set_current_windowed_value (Some windowed_value)
                  (set_threadsafe_restriction_tracker None σ))
    | _ => raise (new_exn ValueError
             "A RestrictionTracker was provided but DoFn does not have a RestrictionTrackerParam defined")
    end.

(** The first [if] of [invoke_process]: a splittable DoFn called without a
    tracker gets one for the initial restriction of the element. *)
Definition obtain_tracker
    (self : PerWindowInvoker) (windowed_value : loc)
    (restriction_tracker : option Tracker) : M (option Tracker) :=
  match restriction_tracker with
  | Some t => ret (Some t)
  | None =>
      if is_splittable self then
        let! wv := deref windowed_value in
        let! restriction := invoke_initial_restriction (signature self) (value wv) in
        let! t := invoke_create_tracker (signature self) restriction in
        ret (Some t)
      else ret None
  end.

(** The branches [elif] and [else] of [invoke_process]; what
    [_invoke_process_per_window] returns is dropped. *)
Definition invoke_without_tracker
    (self : PerWindowInvoker) (windowed_value : loc)
    (additional_args : list PyVal) (additional_kwargs : gmap string PyVal)
    (output_processor : OutputProcessor) : M PyVal :=
  let! wv := deref windowed_value in
  if has_windowed_inputs self && bool_decide (length (windows wv) ≠ 1%nat)
  then invoke_per_window self windowed_value (windows wv) additional_args
         additional_kwargs output_processor ;;
       ret VNone
  else _invoke_process_per_window self windowed_value additional_args
         additional_kwargs output_processor ;;
       ret VNone.

(** [PerWindowInvoker.invoke_process]. *)
Definition invoke_process
    (self : PerWindowInvoker) (windowed_value : loc)
    (restriction_tracker : option Tracker)
    (output_processor' : option OutputProcessor)
    (additional_args : option (list PyVal))
    (additional_kwargs : option (gmap string PyVal)) : M PyVal :=
  let additional_args := default [] additional_args in
  let additional_kwargs := default ∅ additional_kwargs in
  let output_processor := default (output_processor self) output_processor' in
  modify (set_context_element (Some windowed_value)) ;;
  let! restriction_tracker :=
    obtain_tracker self windowed_value restriction_tracker in
  match restriction_tracker with
  | Some t =>
      invoke_with_tracker self windowed_value t additional_args additional_kwargs
        output_processor
  | None =>
      invoke_without_tracker self windowed_value additional_args additional_kwargs
        output_processor
  end.

Definition try_split (self : PerWindowInvoker) (fraction : PyVal) : M PyVal :=
  let! σ := get in
  match threadsafe_restriction_tracker σ, current_windowed_value σ with
  | Some restriction_tracker, Some _ =>
      let current_watermark :=
        match watermark_estimator self with
        | Some _ => estimator_current_watermark (ext σ)
        | None => VNone
        end in
      let! split := do_try_split restriction_tracker fraction in
      match split with
      | Some (primary, residual) =>
          let! σ' := get in
          match current_windowed_value σ' with
          | None => raise (new_exn AttributeError "NoneType has no attribute value")
          | Some c =>
              let! wv := deref c in
              let element := value wv in
              let primary_size := restriction_size element primary in
              let residual_size := restriction_size element residual in
              let! p := alloc (with_value wv
                          (VTuple [VTuple [element; primary]; primary_size])) in
              let! wv := deref c in
              let! r := alloc (with_value wv
                          (VTuple [VTuple [element; residual]; residual_size])) in
              ret (VTuple
                     [VTuple [VTuple [VWindowedValue p; VNone]; VNone];
                      VTuple [VTuple [VWindowedValue r; current_watermark]; VNone]])
          end
      | None => ret VNone
      end
  | _, _ => ret VNone
  end.

Definition current_element_progress (self : PerWindowInvoker) : M PyVal :=
  let! σ := get in
  match threadsafe_restriction_tracker σ with
  | Some restriction_tracker =>
      ret (tracker_current_progress restriction_tracker (ext σ))
  | None => ret VNone
  end.

End PerWindow.

(** ** Vocabulary of the statements about invocations *)

(** The guard of the key extraction in [_invoke_process_per_window]. *)
Definition needs_key `{External} (self : PerWindowInvoker) : bool :=
  bool_decide (is_Some (user_state_context self)) || is_key_param_required self.

Section Results.
Context `{External}.

(** The watermark that a splittable invocation reports. *)
Definition output_watermark (self : PerWindowInvoker) (u : U) : PyVal :=
  match watermark_estimator self with
  | Some _ => estimator_current_watermark u
  | None => VNone
  end.

(** What a returning splittable invocation hands back for the tracker [t],
    in the world [σ'] it leaves: nothing when the tracker has no deferred
    work, else the residual element, the watermark and the deferral. *)
Definition residual_of
    (self : PerWindowInvoker) (t : Tracker) (wv : WindowedValue)
    (r : PyVal) (σ' : World) : Prop :=
  tracker_check_done t (ext σ') = None ∧
  match tracker_deferred_status t (ext σ') with
  | None => r = VNone
  | Some (deferred_restriction, deferred_watermark) =>
      ∃ h x,
        heap σ' = h ++ [x] ∧
        r = VTuple [VTuple [VWindowedValue (length h);
                            output_watermark self (ext σ')];
                    deferred_watermark] ∧
        value x = VTuple [VTuple [value wv; deferred_restriction];
                          restriction_size (value wv) deferred_restriction] ∧
        timestamp x = timestamp wv ∧
        pane_info x = pane_info wv
  end.

End Results.


(** The number of slots of the argument template that the invoker holds,
    and that every placeholder position lies inside the template. *)
Definition template_width `{External} (σ : World) : nat :=
  length (args_for_process σ).

Definition template_fits `{External} (self : PerWindowInvoker) (σ : World) : Prop :=
  ∀ i p, (i, p) ∈ placeholders self → (i < template_width σ)%nat.

(** ** DoFnRunner *)

Section Driver.
Context `{External}.

(** The methods every invoker inherits from [DoFnInvoker]. *)
Definition invoker_signature (inv : DoFnInvoker) : DoFnSignature :=
  match inv with
  | SimpleInvoker _ s => s
  | PerWindow self => signature self
  end.

Definition invoker_output_processor (inv : DoFnInvoker) : OutputProcessor :=
  match inv with
  | SimpleInvoker op _ => op
  | PerWindow self => output_processor self
  end.

Definition DoFnInvoker_invoke_process
    (inv : DoFnInvoker) (windowed_value : loc) (restriction_tracker : option Tracker)
    : M PyVal :=
  match inv with
  | SimpleInvoker op s => SimpleInvoker_invoke_process op s windowed_value None
  | PerWindow self => invoke_process self windowed_value restriction_tracker None None None
  end.

Definition invoke_setup (inv : DoFnInvoker) : M unit :=
  call_user (setup_body (do_fn (invoker_signature inv))).

Definition invoke_start_bundle (inv : DoFnInvoker) : M unit :=
  let! results := call_user (start_bundle_body (do_fn (invoker_signature inv))) in
  start_bundle_outputs (invoker_output_processor inv) results.

Definition invoke_finish_bundle (inv : DoFnInvoker) : M unit :=
  let! results := call_user (finish_bundle_body (do_fn (invoker_signature inv))) in
  finish_bundle_outputs (invoker_output_processor inv) results.

Definition invoke_teardown (inv : DoFnInvoker) : M unit :=
  call_user (teardown_body (do_fn (invoker_signature inv))).

Record DoFnRunner := {
  step_name : option string;
  do_fn_invoker : DoFnInvoker
}.

(** [DoFnRunner.__init__], with [process_invocation] left at its default. *)
Definition DoFnRunner_init
    (fn : DoFn) (input_args : option (list Slot))
    (input_kwargs : option (gmap string Slot))
    (side_inputs : list SideInputMap) (windowfn : Timestamp → PyVal → list Window)
    (receiver_tags : gset string) (step_name : option string)
    (output_counter : bool) (user_state_context : option UserStateContext)
    : M DoFnRunner :=
  match DoFnSignature_init fn with
  | Raise e => raise e
  | Ok do_fn_signature =>
      let output_processor :=
        {| window_fn := windowfn; tagged_receivers := receiver_tags;
           per_element_output_counter := output_counter |} in
      if is_stateful_dofn do_fn_signature
         && negb (bool_decide (is_Some user_state_context))
      then raise (new_exn Exception
                    "Requested execution of a stateful DoFn, but no user state context is available.")
      else
        let! inv := create_invoker do_fn_signature output_processor
                      (Some side_inputs) input_args input_kwargs true
                      user_state_context (VObject "BundleFinalizerParam") in
        ret {| step_name := step_name; do_fn_invoker := inv |}
  end.

Definition step_annotation (step : string) : string :=
  " [while running '" +:+ step +:+ "']".

(** The exception that the [try] block of [_reraise_augmented] builds, when
    it builds one. *)
Definition augmented (exn : Exn) (step : string) : option Exn :=
  match exn_args exn with
  | VStr msg :: rest =>
      if constructible (exn_class exn) && attribute_settable (exn_class exn)
      then Some {| exn_class := exn_class exn;
                   exn_args := VStr (msg +:+ step_annotation step) :: rest;
                   _tagged_with_step := true |}
      else None
  | _ => None
  end.

Definition _reraise_augmented {A} (self : DoFnRunner) (exn : Exn) : M A :=
  if _tagged_with_step exn || negb (truthy (step_name self))
  then raise exn
  else
    let step := default "" (step_name self) in
    match augmented exn step with
    | Some new_exn => raise new_exn
    | None =>
        raise {| exn_class := RuntimeError;
                 exn_args := [VStr (format_exception_only exn
                                    +:+ step_annotation step)];
                 _tagged_with_step := true |}
    end.

Definition runner_process (self : DoFnRunner) (windowed_value : loc) : M PyVal :=
  try_except
    (DoFnInvoker_invoke_process (do_fn_invoker self) windowed_value None)
    (_reraise_augmented self).

(** [(element, restriction), _ = windowed_value.value]. *)
Definition unpack_sized (v : PyVal) : M (PyVal * PyVal) :=
  match unpack2 v with
  | Some (sized, _) =>
      match unpack2 sized with
      | Some (element, restriction) => ret (element, restriction)
      | None => raise (new_exn ValueError "cannot unpack the element and restriction")
      end
  | None => raise (new_exn ValueError "cannot unpack the sized restriction")
  end.

Definition process_with_sized_restriction
    (self : DoFnRunner) (windowed_value : loc) : M PyVal :=
  let! wv := deref windowed_value in
  let! '(element, restriction) := unpack_sized (value wv) in
  let! wv := deref windowed_value in
  let! with_element := alloc (with_value wv element) in
  let! tracker :=
    invoke_create_tracker (invoker_signature (do_fn_invoker self)) restriction in
  DoFnInvoker_invoke_process (do_fn_invoker self) with_element (Some tracker).

Definition runner_try_split (self : DoFnRunner) (fraction : PyVal) : M PyVal :=
  match do_fn_invoker self with
  | PerWindow inv => try_split inv fraction
  | SimpleInvoker _ _ =>
      raise (new_exn AttributeError "SimpleInvoker has no attribute try_split")
  end.

Definition runner_current_element_progress (self : DoFnRunner) : M PyVal :=
  match do_fn_invoker self with
  | PerWindow inv => current_element_progress inv
  | SimpleInvoker _ _ =>
      raise (new_exn AttributeError
               "SimpleInvoker has no attribute current_element_progress")
  end.

Definition _invoke_bundle_method (self : DoFnRunner) (bundle_method : M unit) : M unit :=
  try_except
    (modify (set_context_element None) ;; bundle_method)
    (_reraise_augmented self).

Definition _invoke_lifecycle_method (self : DoFnRunner) (lifecycle_method : M unit)
    : M unit :=
  try_except
    (modify (set_context_element None) ;; lifecycle_method)
    (_reraise_augmented self).

Definition runner_setup (self : DoFnRunner) : M unit :=
  _invoke_lifecycle_method self (invoke_setup (do_fn_invoker self)).

Definition runner_start (self : DoFnRunner) : M unit :=
  _invoke_bundle_method self (invoke_start_bundle (do_fn_invoker self)).

Definition runner_finish (self : DoFnRunner) : M unit :=
  _invoke_bundle_method self (invoke_finish_bundle (do_fn_invoker self)).

Definition runner_teardown (self : DoFnRunner) : M unit :=
  _invoke_lifecycle_method self (invoke_teardown (do_fn_invoker self)).

End Driver.

(** ** Timer callbacks *)

(** The attributes that [MethodWrapper.__init__] collects for
    [invoke_timer_callback]; the dicts are keyed by the parameter name. *)
Definition has_userstate_arguments (m : MethodWrapper) : bool :=
  existsb (λ kv, match kv.2 with
                 | StateParam _ | TimerParam _ => true
                 | _ => false
                 end) (named_defaults m).

Definition state_args_to_replace (m : MethodWrapper) : gmap string string :=
  foldl (λ acc kv, match kv.2 with StateParam s => <[kv.1 := s]> acc | _ => acc end)
        ∅ (named_defaults m).

Definition timer_args_to_replace (m : MethodWrapper) : gmap string string :=
  foldl (λ acc kv, match kv.2 with TimerParam s => <[kv.1 := s]> acc | _ => acc end)
        ∅ (named_defaults m).

Definition timestamp_arg_name (m : MethodWrapper) : option string :=
  foldl (λ acc kv, match kv.2 with TimestampParam => Some kv.1 | _ => acc end)
        None (named_defaults m).

Definition window_arg_name (m : MethodWrapper) : option string :=
  foldl (λ acc kv, match kv.2 with WindowParam => Some kv.1 | _ => acc end)
        None (named_defaults m).

Definition key_arg_name (m : MethodWrapper) : option string :=
  foldl (λ acc kv, match kv.2 with KeyParam => Some kv.1 | _ => acc end)
        None (named_defaults m).

(** [if name: kwargs[name] = v]. *)
Definition set_if_named (name : option string) (v : PyVal)
    (kwargs : gmap string PyVal) : gmap string PyVal :=
  match name with
  | Some (String c s) => <[String c s := v]> kwargs
  | _ => kwargs
  end.

Section Timers.
Context `{External}.

(** [Timestamp(seconds=...)] of [apache_beam.utils.timestamp]. *)
Variable Timestamp_of_seconds : Timestamp → Timestamp.

(** A method of the DoFn that a timer fires: its wrapper and what calling
    it with keyword arguments does. *)
Record TimerCallback := {
  timer_method : MethodWrapper;
  timer_body : gmap string PyVal → Body Results
}.

(** The keyword arguments that [invoke_timer_callback] builds. *)
Definition timer_kwargs
    (m : MethodWrapper) (user_state_context : option UserStateContext)
    (key : PyVal) (window : Window) (timestamp : Timestamp)
    : Result (gmap string PyVal) :=
  and_then
    (if has_userstate_arguments m then
       match user_state_context with
       | Some usc =>
           Ok (((λ spec, get_timer usc spec key window)
                  <$> timer_args_to_replace m)
               ∪ ((λ spec, get_state usc spec key window)
                    <$> state_args_to_replace m))
       | None =>
           if decide (state_args_to_replace m = ∅)
           then Raise (new_exn AttributeError
                         "NoneType has no attribute get_timer")
           else Raise (new_exn AttributeError
                         "NoneType has no attribute get_state")
       end
     else Ok ∅)
    (λ kwargs,
       Ok (set_if_named (key_arg_name m) key
             (set_if_named (window_arg_name m) (VWindow window)
                (set_if_named (timestamp_arg_name m)
                   (VTimestamp (Timestamp_of_seconds timestamp)) kwargs)))).

(** [MethodWrapper.invoke_timer_callback]. *)
Definition invoke_timer_callback
    (self : TimerCallback) (user_state_context : option UserStateContext)
    (key : PyVal) (window : Window) (timestamp : Timestamp) : M Results :=
  match timer_kwargs (timer_method self) user_state_context key window
          timestamp with
  | Raise e => raise e
  | Ok kwargs => call_user (timer_body self kwargs)
  end.

(** [DoFnSignature.timer_methods]: filled from the timer specs of the DoFn
    only when the DoFn is stateful. *)
Definition timer_methods
    (signature : DoFnSignature) (all_timer_specs : gmap string TimerCallback)
    : gmap string TimerCallback :=
  if is_stateful_dofn signature then all_timer_specs else ∅.

(** [self.user_state_context] of an invoker: [DoFnInvoker.__init__] sets it
    to [None], [PerWindowInvoker.__init__] to its argument. *)
Definition invoker_user_state_context (inv : DoFnInvoker)
    : option UserStateContext :=
  match inv with
  | SimpleInvoker _ _ => None
  | PerWindow self => user_state_context self
  end.

(** [DoFnInvoker.invoke_user_timer]; the arguments of [process_outputs] are
    evaluated from left to right. *)
Definition invoke_user_timer
    (inv : DoFnInvoker) (all_timer_specs : gmap string TimerCallback)
    (timer_spec : string) (key : PyVal) (window : Window)
    (timestamp : Timestamp) : M unit :=
  let! windowed_value :=
    alloc {| value := VNone; timestamp := timestamp; windows := [window];
             pane_info := PANE_INFO_UNKNOWN |} in
  match timer_methods (invoker_signature inv) all_timer_specs !! timer_spec with
  | None => raise (new_exn KeyError timer_spec)
  | Some callback =>
      let! results :=
        invoke_timer_callback callback (invoker_user_state_context inv)
          key window timestamp in
      process_outputs (invoker_output_processor inv) (Some windowed_value)
        results
  end.

(** [DoFnRunner.process_user_timer]. *)
Definition process_user_timer
    (self : DoFnRunner) (all_timer_specs : gmap string TimerCallback)
    (timer_spec : string) (key : PyVal) (window : Window)
    (timestamp : Timestamp) : M unit :=
  try_except
    (invoke_user_timer (do_fn_invoker self) all_timer_specs timer_spec key
       window timestamp)
    (_reraise_augmented self).

End Timers.

(** ** DoFnContext *)

Section ContextAccessors.
Context `{External}.

(** The properties [element], [timestamp] and [windows] of [DoFnContext]. *)
Definition DoFnContext_element : M PyVal :=
  let! σ := get in
  match context_element σ with
  | None => raise (new_exn AttributeError "element not accessible in this context")
  | Some windowed_value => let! wv := deref windowed_value in ret (value wv)
  end.

Definition DoFnContext_timestamp : M Timestamp :=
  let! σ := get in
  match context_element σ with
  | None => raise (new_exn AttributeError "timestamp not accessible in this context")
  | Some windowed_value => let! wv := deref windowed_value in ret (timestamp wv)
  end.

Definition DoFnContext_windows : M (list Window) :=
  let! σ := get in
  match context_element σ with
  | None => raise (new_exn AttributeError "windows not accessible in this context")
  | Some windowed_value => let! wv := deref windowed_value in ret (windows wv)
  end.

End ContextAccessors.

(** ** Relations between the world before and after a computation *)

Section Relations.
Context `{External}.

(** A computation keeps a relation between the world before and after,
    whether it returns or raises. *)
Definition keeps {A} (R : relation World) (m : M A) : Prop :=
  ∀ σ, R σ (m σ).2.

(** The attribute [f] of the world is the same. *)
Definition same {A} (f : World → A) : relation World :=
  λ σ σ', f σ' = f σ.

(** Every object of the first world is still there in the second, with the
    same value, timestamp and pane; its windows may differ only if its
    address is in [L]. *)
Definition only_windows_of (L : list loc) : relation World := λ σ σ',
  ∀ l wv, heap σ !! l = Some wv →
    ∃ ws, heap σ' !! l = Some (with_windows wv ws) ∧ (l ∉ L → ws = windows wv).

(** The store only grows: every object is where it was and as it was. *)
Definition grows : relation World := λ σ σ', heap σ `prefix_of` heap σ'.

(** Every object of the first world is still there in the second, with the
    same value, timestamp and pane; only its windows may differ. *)
Definition values_kept : relation World := λ σ σ',
  ∀ l wv, heap σ !! l = Some wv →
    ∃ ws, heap σ' !! l = Some (with_windows wv ws).

End Relations.

(** ** A concrete set of collaborators

    Used to run the model on explicit inputs.  The state of the collaborators
    is the watermark of the estimator; the only tracker, [0], accepts every
    split and lets the watermark advance while it splits. *)

Module Demo.

Fixpoint fill_positional (template : list Slot) (values : list PyVal)
    : option (list Slot) :=
  match template with
  | [] => Some []
  | ArgumentPlaceholder :: rest =>
      match values with
      | v :: values' => cons (Filled v) <$> fill_positional rest values'
      | [] => None
      end
  | x :: rest => cons x <$> fill_positional rest values
  end.

Definition demo_param_id (d : Default) : option string :=
  match d with
  | ElementParam => Some "ElementParam"
  | SideInputParam => Some "SideInputParam"
  | TimestampParam => Some "TimestampParam"
  | WindowParam => Some "WindowParam"
  | PaneInfoParam => Some "PaneInfoParam"
  | KeyParam => Some "KeyParam"
  | StateParam s => Some ("StateParam(" +:+ s +:+ ")")
  | TimerParam s => Some ("TimerParam(" +:+ s +:+ ")")
  | RestrictionParam p => Some ("RestrictionParam(" +:+ p +:+ ")")
  | WatermarkEstimatorParam e => Some ("WatermarkEstimatorParam(" +:+ e +:+ ")")
  | BundleFinalizerParam => None
  | OtherDefault _ => None
  end.

Definition demo_external : External.
Proof.
  refine
    {| U := Z;
       PANE_INFO_UNKNOWN := {| pane_id := 0 |};
       DoFnProcessParams :=
         [ElementParam; SideInputParam; TimestampParam; WindowParam;
          PaneInfoParam; BundleFinalizerParam; KeyParam];
       param_id := demo_param_id;
       format_exception_only := λ e, "error";
       insert_values_in_args := λ template kwargs values,
         (λ a, (a, kwargs)) <$> fill_positional template values;
       initial_restriction := λ _, VStr "whole";
       create_tracker := λ _ u, (0%nat, u);
       restriction_size := λ _ _, VInt 1;
       tracker_try_split := λ t _ u,
         match t with
         | O => (Some (VStr "primary", VStr "residual"), (u + 1)%Z)
         | _ => (None, u)
         end;
       tracker_check_done := λ _ _, None;
       tracker_deferred_status := λ _ _, None;
       tracker_current_progress := λ _ _, VInt 0;
       estimator_reset := λ _, 0%Z;
       estimator_current_watermark := λ u, VTimestamp u |}.
  intros template kwargs values args' kwargs' Hfill.
  destruct (fill_positional template values) as [a|] eqn:E; simplify_eq/=.
  revert values args' E.
  induction template as [|x rest IH]; intros values args' E; simplify_eq/=; [done|].
  destruct x; simplify_eq/=.
  - destruct (fill_positional rest values) eqn:E'; simplify_eq/=. f_equal. eauto.
  - destruct (fill_positional rest values) eqn:E'; simplify_eq/=. f_equal. eauto.
  - destruct values as [|v values']; simplify_eq/=.
    destruct (fill_positional rest values') eqn:E'; simplify_eq/=. f_equal. eauto.
Defined.

Definition no_body {A} (a : A) : @Body demo_external A :=
  λ _ u, (Ok a, [], u).

(** A world holding the objects [h], with nothing received or called yet. *)
Definition world_with (h : list WindowedValue) : @World demo_external :=
  @Build_World demo_external h [] [] [] None None None false [] ∅ 0%Z.

Definition no_params : MethodWrapper := {| args := []; defaults := [] |}.

(** A DoFn with the given [process] and every other method trivial. *)
Definition dofn_with (m : MethodWrapper) (body : Call → @Body demo_external Results)
    : @DoFn demo_external :=
  @Build_DoFn demo_external m body no_params (no_body ResNone)
    no_params (no_body ResNone) no_params (no_body tt) no_params (no_body tt)
    false None.

Definition signature_of (d : @DoFn demo_external) : @DoFnSignature demo_external :=
  @Build_DoFnSignature demo_external d (process d) (start_bundle d)
    (finish_bundle d) (setup d) (teardown d) (is_stateful d).

Definition plain_processor : OutputProcessor :=
  {| window_fn := λ _ _, [GlobalWindow]; tagged_receivers := ∅;
     per_element_output_counter := false |}.

Definition w1 : Window := IntervalWindow 0 10.
Definition w2 : Window := IntervalWindow 10 20.

(** An element in two windows, in a pane other than the unknown one. *)
Definition two_windows (v : PyVal) : WindowedValue :=
  {| value := v; timestamp := 5; windows := [w1; w2];
     pane_info := {| pane_id := 3 |} |}.



Definition element_only : MethodWrapper :=
  {| args := ["element"]; defaults := [] |}.

(** [def process(self, element=DoFn.ElementParam)]. *)
Definition element_by_default : MethodWrapper :=
  {| args := ["element"]; defaults := [ElementParam] |}.

(** [def process(self, element, window=DoFn.WindowParam)]. *)
Definition element_and_window : MethodWrapper :=
  {| args := ["element"; "window"]; defaults := [WindowParam] |}.



Definition global_side_input : SideInputMap :=
  {| is_globally_windowed := true; side_input_at := λ _, VInt 0 |}.


(** [def process(self, element, tracker=DoFn.RestrictionParam(provider))]. *)
Definition element_and_tracker : MethodWrapper :=
  {| args := ["element"; "tracker"]; defaults := [RestrictionParam "provider"] |}.

(** An element in the global window only. *)
Definition one_window (v : PyVal) : WindowedValue :=
  {| value := v; timestamp := 5; windows := [GlobalWindow];
     pane_info := {| pane_id := 3 |} |}.

(** A [process] that returns the list [[1]], and one that raises. *)
Definition emit_one : Call → @Body demo_external Results :=
  λ _ _ u, (Ok (ResIter [VInt 1] None), [], u).

Definition failing : Call → @Body demo_external Results :=
  λ _ _ u, (Raise (new_exn ValueError "boom"), [], u).


(** Constructing the runner of a DoFn for the step named [step]. *)
Definition runner_for (d : @DoFn demo_external) : @M demo_external (@DoFnRunner demo_external) :=
  DoFnRunner_init d None None [] (λ _ _, [GlobalWindow]) ∅ (Some "step")
    false None.

End Demo.

(** ** Further inputs for the concrete collaborators *)

Module Samples.


(** The world that [PerWindowInvoker.__init__] leaves for the argument
    template [template], holding the objects [h]. *)
Definition ready (template : list Slot) (cache : bool) (h : list WindowedValue)
    : @World Demo.demo_external :=
  @Build_World Demo.demo_external h [] [] [] None None None cache template ∅ 0%Z.

(** A per-window invoker without side inputs, user state or estimator. *)
Definition invoker
    (sig : @DoFnSignature Demo.demo_external)
    (windowed splittable key_required : bool) (ps : list (nat * Default))
    : @PerWindowInvoker Demo.demo_external :=
  @Build_PerWindowInvoker Demo.demo_external Demo.plain_processor sig []
    windowed None splittable None None VNone key_required ps.


(** A stateful DoFn whose [process] takes the element alone. *)
Definition stateful_dofn : @DoFn Demo.demo_external :=
  @Build_DoFn Demo.demo_external Demo.element_only Demo.emit_one
    Demo.no_params (Demo.no_body ResNone) Demo.no_params (Demo.no_body ResNone)
    Demo.no_params (Demo.no_body tt) Demo.no_params (Demo.no_body tt)
    true None.

Definition no_state : UserStateContext :=
  {| get_state := λ _ _ _, VNone; get_timer := λ _ _ _, VNone |}.

(** A timer callback without parameters that returns the list [[1]]. *)
Definition ticking : @TimerCallback Demo.demo_external :=
  @Build_TimerCallback Demo.demo_external Demo.no_params
    (λ _ _ u, (Ok (ResIter [VInt 1] None), [], u)).

(** [Timestamp(seconds=t)] in microseconds. *)
Definition of_seconds (t : Timestamp) : Timestamp := (t * 1000000)%Z.

(** A runner for the step named [step], around a SimpleInvoker. *)
Definition simple_runner (d : @DoFn Demo.demo_external)
    : @DoFnRunner Demo.demo_external :=
  @Build_DoFnRunner Demo.demo_external (Some "step")
    (@SimpleInvoker Demo.demo_external Demo.plain_processor (Demo.signature_of d)).

(** A runner for the step named [step], around a per-window invoker. *)
Definition per_window_runner (self : @PerWindowInvoker Demo.demo_external)
    : @DoFnRunner Demo.demo_external :=
  @Build_DoFnRunner Demo.demo_external (Some "step")
    (@PerWindow Demo.demo_external self).

End Samples.

Local Set Warnings "-clear-no-such-hyp".

(** * Properties *)

(** ** Reasoning about computations *)

Section Frames.
Context `{External}.

Lemma bind_ok {A B} (m : M A) (k : A → M B) σ a σ' :
  m σ = (Ok a, σ') → bind m k σ = k a σ'.
Proof. intros E. unfold bind. by rewrite E. Qed.

Lemma bind_raise {A B} (m : M A) (k : A → M B) σ e σ' :
  m σ = (Raise e, σ') → bind m k σ = (Raise e, σ').
Proof. intros E. unfold bind. by rewrite E. Qed.

Context (R : relation World) `{!PreOrder R}.

Lemma keeps_ret {A} (a : A) : keeps R (ret a).
Proof. intros σ. reflexivity. Qed.

Lemma keeps_raise {A} (e : Exn) : keeps R (@raise _ A e).
Proof. intros σ. reflexivity. Qed.

Lemma keeps_get : keeps R get.
Proof. intros σ. reflexivity. Qed.

Lemma keeps_modify f : (∀ σ, R σ (f σ)) → keeps R (modify f).
Proof. intros Hf σ. apply Hf. Qed.

Lemma keeps_bind {A B} (m : M A) (k : A → M B) :
  keeps R m → (∀ a, keeps R (k a)) → keeps R (bind m k).
Proof.
  intros Hm Hk σ. unfold bind. specialize (Hm σ).
  destruct (m σ) as [[a|e] σ']; simpl in *; [|done].
  etrans; [exact Hm|apply Hk].
Qed.

Lemma keeps_try_except {A} (m : M A) h :
  keeps R m → (∀ e, keeps R (h e)) → keeps R (try_except m h).
Proof.
  intros Hm Hh σ. unfold try_except. specialize (Hm σ).
  destruct (m σ) as [[a|e] σ']; simpl in *; [done|].
  etrans; [exact Hm|apply Hh].
Qed.

Lemma keeps_try_finally {A} (m : M A) fin :
  keeps R m → (∀ σ, R σ (fin σ)) → keeps R (try_finally m fin).
Proof.
  intros Hm Hf σ. unfold try_finally. specialize (Hm σ).
  destruct (m σ) as [r σ']; simpl in *. etrans; [exact Hm|apply Hf].
Qed.

End Frames.

Lemma same_preorder `{External} {A} (f : World → A) : PreOrder (same f).
Proof. split; [by intros ?|]. intros σ1 σ2 σ3 H12 H23. unfold same in *. congruence. Qed.

#[global] Existing Instance same_preorder.

Section OutputProperties.
Context `{External}.

Lemma deref_keeps {A} (f : World → A) l : keeps (same f) (deref l).
Proof. intros σ. unfold deref. by case_match. Qed.

Lemma deref_world l σ : (deref l σ).2 = σ.
Proof. unfold deref. by case_match. Qed.

Lemma heap_set_heap f σ : heap (set_heap f σ) = f (heap σ).
Proof. reflexivity. Qed.

Lemma deref_Some l σ wv : heap σ !! l = Some wv → deref l σ = (Ok wv, σ).
Proof. intros E. unfold deref. by rewrite E. Qed.

End OutputProperties.

(** ** The output processor *)

Section StartBundle.
Context `{External}.


End StartBundle.


Section ProcessOutputs.
Context `{External}.

Lemma plain_unwrap_tag v σ : plain v = true → unwrap_tag v σ = (Ok (None, v), σ).
Proof. by destruct v. Qed.

Lemma plain_to_windowed_value op i input v σ :
  plain v = true → heap σ !! i = Some input →
  to_windowed_value op (Some i) v σ
  = (Ok (length (heap σ)), set_heap (λ h, h ++ [with_value input v]) σ).
Proof.
  intros Hv Hi.
  destruct v; try discriminate Hv; unfold to_windowed_value, bind;
    rewrite (deref_Some i σ input Hi); reflexivity.
Qed.

(** The loop on plain results: one fresh object and one [receive] on the
    main receiver per result. *)
Lemma process_outputs_loop_plain op i input items : ∀ n σ,
  forallb plain items = true → heap σ !! i = Some input →
  process_outputs_loop op (Some i) items n σ
  = (Ok (n + length items)%nat,
     set_received
       (λ r, r ++ ((λ k, (None, (length (heap σ) + k)%nat)) <$> seq 0 (length items)))
       (set_heap (λ h, h ++ (with_value input <$> items)) σ)).
Proof.
  induction items as [|v items IH]; intros n σ Hplain Hi; simpl.
  - unfold ret. f_equal; [f_equal; lia|].
    destruct σ; unfold set_received, set_heap; simpl. by rewrite !app_nil_r.
  - apply andb_prop in Hplain as [Hv Hitems].
    erewrite bind_ok; [|by apply plain_unwrap_tag]. cbv beta iota.
    erewrite bind_ok; [|by eapply plain_to_windowed_value].
    unfold dispatch, receive. erewrite bind_ok; [|reflexivity].
    rewrite IH; [|done|].
    + f_equal; [f_equal; lia|].
      destruct σ; unfold set_received, set_heap; simpl.
      rewrite length_app; simpl. rewrite <- !app_assoc; simpl.
      f_equal. f_equal. f_equal. f_equal.
      * f_equal. lia.
      * rewrite <- fmap_S_seq, <- list_fmap_compose.
        apply list_fmap_ext. intros _ k _; simpl. f_equal. lia.
    + simpl. apply lookup_app_l_Some. exact Hi.
Qed.

(** C1 (as amended): for an input WindowedValue in two windows and results
    that are all plain values, [process_outputs] hands the main receiver
    exactly one WindowedValue per emitted value, and that one object carries
    the emitted value, the input's timestamp and pane, and both windows. *)
Theorem plain_output_keeps_both_windows
    (op : OutputProcessor) (i : loc) (input : WindowedValue) (w1 w2 : Window)
    (items : list PyVal) (σ : World) :
  heap σ !! i = Some input →
  windows input = [w1; w2] →
  forallb plain items = true →
  let out := process_outputs op (Some i) (ResIter items None) σ in
  out.1 = Ok tt ∧
  received out.2
  = received σ ++ ((λ k, (None, (length (heap σ) + k)%nat)) <$> seq 0 (length items)) ∧
  ∀ k v, items !! k = Some v →
    heap out.2 !! (length (heap σ) + k)%nat
    = Some {| value := v; timestamp := timestamp input;
              windows := [w1; w2]; pane_info := pane_info input |}.
Proof.
  intros Hi Hw Hplain. unfold process_outputs.
  erewrite bind_ok; [|by eapply process_outputs_loop_plain].
  unfold add_input. destruct (per_element_output_counter op); simpl.
  all: split; [done|split; [done|]].
  all: intros k v Hk; rewrite lookup_app_r by lia.
  all: replace (length (heap σ) + k - length (heap σ))%nat with k by lia.
  all: rewrite list_lookup_fmap, Hk; simpl; unfold with_value; by rewrite Hw.
Qed.

End ProcessOutputs.

Lemma plain_output_keeps_both_windows_witness :
  let σ := Demo.world_with [Demo.two_windows (VStr "e")] in
  let out := process_outputs Demo.plain_processor (Some 0%nat)
               (ResIter [VInt 7] None) σ in
  out.1 = Ok tt ∧
  received out.2 = [(None, 1%nat)] ∧
  ∀ k v, [VInt 7] !! k = Some v →
    heap out.2 !! (1 + k)%nat
    = Some {| value := v; timestamp := 5;
              windows := [Demo.w1; Demo.w2]; pane_info := {| pane_id := 3 |} |}.
Proof.
  apply (plain_output_keeps_both_windows (H := Demo.demo_external)
           Demo.plain_processor 0%nat (Demo.two_windows (VStr "e"))
           Demo.w1 Demo.w2 [VInt 7]
           (Demo.world_with [Demo.two_windows (VStr "e")]));
    reflexivity.
Defined.

(** C1, the claim as stated fails: for an input in two windows and one plain
    result the main receiver receives one WindowedValue, not two. *)
Lemma plain_output_dispatched_once :
  let σ := Demo.world_with [Demo.two_windows (VStr "e")] in
  let out := process_outputs Demo.plain_processor (Some 0%nat)
               (ResIter [VInt 7] None) σ in
  length (received out.2) ≠ 2%nat ∧
  received out.2 = [(None, 1%nat)] ∧
  windows <$> heap out.2 !! 1%nat = Some [Demo.w1; Demo.w2].
Proof. split; [|split]; [by vm_compute|reflexivity|reflexivity]. Qed.

(** ** What [process_outputs] does to existing objects *)

Section Mutation.
Context `{External}.

Lemma with_windows_same wv : with_windows wv (windows wv) = wv.
Proof. by destruct wv. Qed.

Lemma with_windows_twice wv a b :
  with_windows (with_windows wv a) b = with_windows wv b.
Proof. reflexivity. Qed.

Lemma only_windows_of_preorder L : PreOrder (only_windows_of L).
Proof.
  split.
  - intros σ l wv Hl. exists (windows wv). by rewrite with_windows_same.
  - intros σ1 σ2 σ3 H12 H23 l wv Hl.
    destruct (H12 l wv Hl) as (ws & Hl2 & Hws).
    destruct (H23 l _ Hl2) as (ws' & Hl3 & Hws').
    exists ws'. split; [done|]. intros Hnot. rewrite (Hws' Hnot). simpl. auto.
Qed.

#[local] Existing Instance only_windows_of_preorder.

Lemma only_windows_of_same_heap L σ σ' :
  heap σ' = heap σ → only_windows_of L σ σ'.
Proof.
  intros E l wv Hl. exists (windows wv). by rewrite with_windows_same, E.
Qed.

Lemma alloc_only_windows L wv : keeps (only_windows_of L) (alloc wv).
Proof.
  intros σ l wv' Hl. exists (windows wv'). rewrite with_windows_same. simpl.
  split; [|done]. by apply lookup_app_l_Some.
Qed.

Lemma deref_only_windows L l : keeps (only_windows_of L) (deref l).
Proof. intros σ. rewrite deref_world. reflexivity. Qed.

Lemma assign_windows_only_windows L l ws :
  l ∈ L → keeps (only_windows_of L) (assign_windows l ws).
Proof.
  intros HL σ. unfold assign_windows, bind, deref.
  destruct (heap σ !! l) as [wv|] eqn:E; [|reflexivity].
  intros l' wv' Hl'. unfold modify. cbn [snd]. rewrite heap_set_heap.
  destruct (decide (l' = l)) as [->|Hne].
  - exists ws. split; [|done]. pose proof (eq_trans (eq_sym E) Hl') as Heq. injection Heq as <-.
    apply list_lookup_insert_eq. by eapply lookup_lt_Some.
  - exists (windows wv'). rewrite with_windows_same. split; [|done].
    by rewrite list_lookup_insert_ne.
Qed.

Lemma multiply_windows_only_windows L l n :
  l ∈ L → keeps (only_windows_of L) (multiply_windows l n).
Proof.
  intros HL. unfold multiply_windows.
  apply keeps_bind; [apply _|apply deref_only_windows|].
  intros wv. by apply assign_windows_only_windows.
Qed.

(** An object constructed by the output processor itself may be changed
    freely: it is no object of the world before. *)
Lemma fresh_multiply_only_windows L wv n σ :
  only_windows_of L σ (multiply_windows (length (heap σ)) n (alloc wv σ).2).2.
Proof.
  assert (heap (set_heap (λ h, h ++ [wv]) σ) !! length (heap σ) = Some wv) as E.
  { rewrite heap_set_heap. by apply list_lookup_middle. }
  unfold multiply_windows, assign_windows, bind, alloc. cbn [snd].
  rewrite !(deref_Some _ _ _ E). unfold modify. cbn [snd].
  intros l wv' Hl. exists (windows wv'). rewrite with_windows_same.
  split; [|done]. rewrite !heap_set_heap.
  rewrite list_lookup_insert_ne by (apply lookup_lt_Some in Hl; lia).
  by apply lookup_app_l_Some.
Qed.

Lemma to_windowed_value_only_windows L op input result :
  (∀ r, result = VWindowedValue r → r ∈ L) →
  keeps (only_windows_of L) (to_windowed_value op input result).
Proof.
  intros HL. destruct result;
    try (unfold to_windowed_value; destruct input;
         [apply keeps_bind; [apply _|apply deref_only_windows|];
          intros; apply alloc_only_windows
         |apply keeps_raise; apply _]).
  - (* TimestampedValue *)
    intros σ. unfold to_windowed_value, bind.
    destruct input as [i|]; [|apply alloc_only_windows].
    destruct (alloc _ σ) as [r σ1] eqn:Ealloc.
    assert (r = Ok (length (heap σ)) ∧ σ1 = (alloc
      {| value := result; timestamp := at_time;
         windows := window_fn op at_time result;
         pane_info := PANE_INFO_UNKNOWN |} σ).2) as [-> ->].
    { unfold alloc in *. by simplify_eq. }
    destruct (deref i _) as [[inp|e] σ2] eqn:Ederef.
    + pose proof (deref_world i (alloc
        {| value := result; timestamp := at_time;
           windows := window_fn op at_time result;
           pane_info := PANE_INFO_UNKNOWN |} σ).2) as Hw.
      rewrite Ederef in Hw. simpl in Hw. subst σ2.
      case_decide.
      * pose proof (fresh_multiply_only_windows L
          {| value := result; timestamp := at_time;
             windows := window_fn op at_time result;
             pane_info := PANE_INFO_UNKNOWN |} (length (windows inp)) σ) as Hm.
        destruct (multiply_windows _ _ _) as [[[]|e] σ3]; exact Hm.
      * apply alloc_only_windows.
    + pose proof (deref_world i (alloc
        {| value := result; timestamp := at_time;
           windows := window_fn op at_time result;
           pane_info := PANE_INFO_UNKNOWN |} σ).2) as Hw.
      rewrite Ederef in Hw. simpl in Hw. subst σ2. apply alloc_only_windows.
  - (* WindowedValue *)
    unfold to_windowed_value. destruct input as [i|]; [|apply keeps_ret; apply _].
    apply keeps_bind; [apply _|apply deref_only_windows|]. intros inp.
    case_decide; [|apply keeps_ret; apply _].
    apply keeps_bind; [apply _| |intros; apply keeps_ret; apply _].
    apply multiply_windows_only_windows. by apply HL.
Qed.

Lemma dispatch_only_windows L op tag l : keeps (only_windows_of L) (dispatch op tag l).
Proof.
  intros σ. apply only_windows_of_same_heap.
  unfold dispatch, receive, modify, raise. repeat case_match; reflexivity.
Qed.

Lemma unwrap_tag_world v σ : (unwrap_tag v σ).2 = σ.
Proof. unfold unwrap_tag, ret, raise. by repeat case_match. Qed.

Lemma unwrap_tag_windowed v σ tag r :
  (unwrap_tag v σ).1 = Ok (tag, VWindowedValue r) → windowed_result v = Some r.
Proof.
  unfold unwrap_tag, ret, raise. intros E.
  destruct v; simplify_eq/=; try done.
  destruct v1; by simplify_eq/=.
Qed.

Lemma process_outputs_loop_only_windows L op input items : ∀ n,
  (∀ r, r ∈ omap windowed_result items → r ∈ L) →
  keeps (only_windows_of L) (process_outputs_loop op input items n).
Proof.
  induction items as [|v items IH]; intros n HL; simpl.
  - apply keeps_ret; apply _.
  - intros σ. unfold bind at 1.
    destruct (unwrap_tag v σ) as [[[tag result]|e] σ1] eqn:Eu;
      pose proof (unwrap_tag_world v σ) as Hw; rewrite Eu in Hw;
      simpl in Hw; subst σ1; [|reflexivity].
    assert (keeps (only_windows_of L)
      (let! windowed_value := to_windowed_value op input result in
       dispatch op tag windowed_value ;;
       process_outputs_loop op input items (S n))) as Hk; [|exact (Hk σ)].
    apply keeps_bind; [apply _| |intros wv].
    + apply to_windowed_value_only_windows. intros r ->. apply HL.
      assert (windowed_result v = Some r) as Hr
        by (eapply unwrap_tag_windowed; by rewrite Eu).
      simpl. rewrite Hr. left.
    + apply keeps_bind; [apply _|apply dispatch_only_windows|intros _].
      apply IH. intros r Hr. apply HL. simpl.
      destruct (windowed_result v); [by right|done].
Qed.

Lemma add_input_heap op n σ : heap (add_input op n σ).2 = heap σ.
Proof. unfold add_input. by case_match. Qed.

Lemma process_outputs_only_windows op input results :
  keeps (only_windows_of (result_objects results)) (process_outputs op input results).
Proof.
  destruct results as [|items fault]; simpl.
  - intros σ. apply only_windows_of_same_heap, add_input_heap.
  - apply keeps_bind; [apply _| |intros n].
    + by apply process_outputs_loop_only_windows.
    + destruct fault; [apply keeps_raise; apply _|].
      intros σ. apply only_windows_of_same_heap, add_input_heap.
Qed.


End Mutation.



(** ** The choice of the invoker *)

Section Choice.
Context `{External}.

Lemma PerWindowInvoker_init_fields
    op sig sis ia ik usc bfp (σ σ' : World) (self : PerWindowInvoker) :
  PerWindowInvoker_init op sig sis ia ik usc bfp σ = (Ok self, σ') →
  output_processor self = op ∧ signature self = sig ∧ side_inputs self = sis ∧
  has_windowed_inputs self = compute_has_windowed_inputs sig sis ∧
  is_splittable self = is_splittable_dofn sig ∧
  user_state_context self = usc ∧
  threadsafe_restriction_tracker σ' = None.
Proof.
  unfold PerWindowInvoker_init.
  destruct (if bool_decide _ then _ else _) as [n template].
  destruct (fill_defaults _ _ _ _ _) as [[[a r] k]|e]; [|discriminate].
  unfold bind, modify, ret. intros E. by simplify_eq/=.
Qed.

Lemma PerWindowInvoker_init_fault
    op sig sis ia ik usc bfp (σ σ' : World) (e : Exn) :
  PerWindowInvoker_init op sig sis ia ik usc bfp σ = (Raise e, σ') →
  exn_class e = ValueError.
Proof.
  unfold PerWindowInvoker_init.
  destruct (if bool_decide _ then _ else _) as [n template].
  generalize (slice_from n (default [] ia)). generalize false.
  generalize (named_defaults (process_method sig)).
  intros named. revert template.
  induction named as [|[a d] named IH]; intros template b remaining.
  - simpl. unfold bind, modify, ret. discriminate.
  - simpl. destruct d; try apply IH; destruct remaining; try apply IH.
    case_decide; [apply IH|]. unfold raise. intros E. by simplify_eq.
Qed.

(** C6 (as amended): [create_invoker] returns a SimpleInvoker exactly when
    [process_invocation] is false, or there are no side inputs, no input
    arguments, no input keyword arguments, [process] has no parameter with a
    default value and the DoFn is not stateful; otherwise it constructs a
    PerWindowInvoker, whose constructor may raise ValueError.  The choice
    does not depend on the world: it is the same whatever has been
    processed. *)
Theorem create_invoker_choice
    (sig : DoFnSignature) (op : OutputProcessor)
    (sis : option (list SideInputMap)) (ia : option (list Slot))
    (ik : option (gmap string Slot)) (process_invocation : bool)
    (usc : option UserStateContext) (bfp : PyVal) (σ : World) :
  let out := (create_invoker sig op sis ia ik process_invocation usc bfp σ).1 in
  (out = Ok (SimpleInvoker op sig) ↔
     process_invocation = false ∨
     ((sis = None ∨ sis = Some []) ∧ (ia = None ∨ ia = Some []) ∧
      (ik = None ∨ ik = Some ∅) ∧
      defaults (process_method sig) = [] ∧ is_stateful_dofn sig = false)) ∧
  (out ≠ Ok (SimpleInvoker op sig) →
     (∃ self, out = Ok (PerWindow self)) ∨
     (∃ e, out = Raise e ∧ exn_class e = ValueError)) ∧
  (∀ σ', match out, (create_invoker sig op sis ia ik process_invocation usc bfp σ').1 with
         | Ok inv, Ok inv' => is_simple inv = is_simple inv'
         | Raise e, Raise e' => e = e'
         | _, _ => False
         end).
Proof.
  assert (use_simple_invoker sig sis ia ik process_invocation = true ↔
    process_invocation = false ∨
     ((sis = None ∨ sis = Some []) ∧ (ia = None ∨ ia = Some []) ∧
      (ik = None ∨ ik = Some ∅) ∧
      defaults (process_method sig) = [] ∧ is_stateful_dofn sig = false)) as Huse.
  { unfold use_simple_invoker, nonempty_list, nonempty_dict.
    destruct process_invocation, sis as [[|]|], ia as [[|]|], ik as [m|];
      simpl; repeat case_bool_decide; simpl;
      destruct (is_stateful_dofn sig); naive_solver. }
  unfold create_invoker.
  destruct (use_simple_invoker sig sis ia ik process_invocation) eqn:Euse; simpl.
  - split; [|split].
    + split; [intros _; by apply Huse|done].
    + intros Hne. by destruct Hne.
    + done.
  - assert (∀ σ', ∀ r, (bind (PerWindowInvoker_init op sig (default [] sis) ia ik usc bfp)
               (λ inv, ret (PerWindow inv)) σ').1 = r →
             (∃ self, r = Ok (PerWindow self)) ∨
             (∃ e, r = Raise e ∧ exn_class e = ValueError)) as Hshape.
    { intros σ' r <-. unfold bind.
      destruct (PerWindowInvoker_init _ _ _ _ _ _ _ σ') as [[self|e] σ''] eqn:E.
      - left. by eexists.
      - right. exists e. split; [done|]. by eapply PerWindowInvoker_init_fault. }
    split; [|split].
    + split.
      * intros Hout. destruct (Hshape σ _ eq_refl) as [[self Hs]|[e [He _]]];
          rewrite Hout in *; discriminate.
      * intros Hc. apply Huse in Hc. congruence.
    + intros _. by apply (Hshape σ).
    + intros σ'. unfold bind, PerWindowInvoker_init.
      destruct (if bool_decide _ then _ else _) as [n template].
      destruct (fill_defaults _ _ _ _ _) as [[[a r] k]|e]; done.
Qed.

End Choice.

(** C6, the claim as stated fails in both directions: with
    [process_invocation] false a DoFn with a side input gets a
    SimpleInvoker, and a DoFn whose [process] declares the element alone,
    but by the default [DoFn.ElementParam], gets a PerWindowInvoker. *)
Lemma create_invoker_not_exactly_as_claimed :
  let with_side_input :=
    (create_invoker (Demo.signature_of (Demo.dofn_with Demo.element_only
                                          (λ _, Demo.no_body ResNone)))
       Demo.plain_processor (Some [Demo.global_side_input]) None None false
       None VNone (Demo.world_with [])).1 in
  let element_alone :=
    (create_invoker (Demo.signature_of (Demo.dofn_with Demo.element_by_default
                                          (λ _, Demo.no_body ResNone)))
       Demo.plain_processor None None None true
       None VNone (Demo.world_with [])).1 in
  (∃ op sig, with_side_input = Ok (SimpleInvoker op sig)) ∧
  (∃ self, element_alone = Ok (PerWindow self)).
Proof. split; eexists; [eexists|]; reflexivity. Qed.

(** ** Validation of the signature *)

Section Validation.
Context `{External}.




End Validation.



(** ** Attributes that the output processor never touches *)

Section OutputFrame.
Context `{External} {A : Type} (f : World → A).
Hypothesis f_heap : ∀ g σ, f (set_heap g σ) = f σ.
Hypothesis f_received : ∀ g σ, f (set_received g σ) = f σ.
Hypothesis f_counter : ∀ g σ, f (set_counter_inputs g σ) = f σ.

Lemma alloc_keeps wv : keeps (same f) (alloc wv).
Proof. intros σ. apply f_heap. Qed.

Lemma assign_windows_keeps l ws : keeps (same f) (assign_windows l ws).
Proof.
  unfold assign_windows. apply keeps_bind; [apply _|apply deref_keeps|].
  intros wv σ. apply f_heap.
Qed.

Lemma multiply_windows_keeps l n : keeps (same f) (multiply_windows l n).
Proof.
  unfold multiply_windows. apply keeps_bind; [apply _|apply deref_keeps|].
  intros wv. apply assign_windows_keeps.
Qed.

Lemma to_windowed_value_keeps op input result :
  keeps (same f) (to_windowed_value op input result).
Proof.
  unfold to_windowed_value.
  repeat first
    [ apply keeps_ret; apply _
    | apply keeps_raise; apply _
    | apply deref_keeps
    | apply alloc_keeps
    | apply multiply_windows_keeps
    | apply keeps_bind; [apply _| |intros ?]
    | progress case_match ].
Qed.

Lemma dispatch_keeps op tag l : keeps (same f) (dispatch op tag l).
Proof.
  unfold dispatch, receive. repeat case_match;
    try (apply keeps_raise; apply _); intros σ; apply f_received.
Qed.

Lemma unwrap_tag_keeps v : keeps (same f) (unwrap_tag v).
Proof. intros σ. by rewrite unwrap_tag_world. Qed.

Lemma process_outputs_loop_keeps op input items : ∀ n,
  keeps (same f) (process_outputs_loop op input items n).
Proof.
  induction items as [|v items IH]; intros n; simpl.
  - apply keeps_ret; apply _.
  - apply keeps_bind; [apply _|apply unwrap_tag_keeps|intros [tag result]].
    apply keeps_bind; [apply _|apply to_windowed_value_keeps|intros wv].
    apply keeps_bind; [apply _|apply dispatch_keeps|intros _]. apply IH.
Qed.

Lemma add_input_keeps op n : keeps (same f) (add_input op n).
Proof.
  unfold add_input. case_match; [|apply keeps_ret; apply _].
  intros σ. apply f_counter.
Qed.

Lemma process_outputs_keeps op input results :
  keeps (same f) (process_outputs op input results).
Proof.
  unfold process_outputs. destruct results as [|items fault].
  - apply add_input_keeps.
  - apply keeps_bind; [apply _|apply process_outputs_loop_keeps|intros n].
    destruct fault; [apply keeps_raise; apply _|apply add_input_keeps].
Qed.

End OutputFrame.

(** ** The tracker handle of the per-window invoker *)

Section Handle.
Context `{External}.












End Handle.

(** ** Splittable invocations *)

Section Splittable.
Context `{External}.

Lemma compute_has_windowed_inputs_true sig sis :
  (∃ si, si ∈ sis ∧ is_globally_windowed si = false) ∨
  WindowParam ∈ defaults (process_method sig) ∨
  is_stateful_dofn sig = true →
  compute_has_windowed_inputs sig sis = true.
Proof.
  unfold compute_has_windowed_inputs. intros [(si & Hin & Hsi)|[Hw|Hs]].
  - assert (forallb is_globally_windowed sis = false) as ->; [|done].
    apply not_true_is_false. intros Hall. rewrite forallb_forall in Hall.
    apply list_elem_of_In in Hin. specialize (Hall si Hin). congruence.
  - rewrite (bool_decide_eq_true_2 _ Hw). by rewrite orb_true_r.
  - rewrite Hs. by rewrite orb_true_r.
Qed.

Lemma invoke_with_tracker_rejects self l wv t aa ak op σ :
  heap σ !! l = Some wv → (1 < length (windows wv))%nat →
  has_windowed_inputs self = true →
  invoke_with_tracker self l t aa ak op σ
  = (Raise (new_exn NotImplementedError
              "SDFs in multiply-windowed values with windowed arguments."), σ).
Proof.
  intros Hl Hlen Hw. unfold invoke_with_tracker, bind.
  rewrite (deref_Some l σ wv Hl), Hw, bool_decide_eq_true_2 by done. reflexivity.
Qed.

(** A tracker is at hand when one is supplied or the DoFn is splittable, and
    getting it changes neither the store nor the record of calls. *)
Lemma obtain_tracker_present self l wv rt σ :
  is_Some rt ∨ (is_splittable self = true ∧
                get_restriction_provider (signature self) ≠ None) →
  heap σ !! l = Some wv →
  ∃ t σ', obtain_tracker self l rt σ = (Ok (Some t), σ') ∧
          heap σ' = heap σ ∧ calls σ' = calls σ.
Proof.
  intros Hrt Hl. unfold obtain_tracker. destruct rt as [t|].
  - by exists t, σ.
  - destruct Hrt as [[? [=]]|[-> Hp]].
    unfold bind. rewrite (deref_Some l σ wv Hl).
    unfold invoke_initial_restriction, invoke_create_tracker.
    destruct (get_restriction_provider (signature self)); [|done].
    unfold ret. destruct (create_tracker _ _) as [t u] eqn:Et.
    by exists t, (set_ext (λ _, u) σ).
Qed.

(** C8: for an invoker that has windowed inputs (a side input that is not
    globally windowed, the window parameter among the defaults of
    [process], or a stateful DoFn), when a restriction tracker is present
    (supplied by the caller, or created because the DoFn is splittable) and
    the WindowedValue carries more than one window, [invoke_process] raises
    NotImplementedError, and [process] has not been called. *)
Theorem splittable_multi_window_rejected
    (op : OutputProcessor) (sig : DoFnSignature) (sis : list SideInputMap)
    (ia : option (list Slot)) (ik : option (gmap string Slot))
    (usc : option UserStateContext) (bfp : PyVal) (σ0 σ1 : World)
    (self : PerWindowInvoker)
    (l : loc) (wv : WindowedValue) (rt : option Tracker)
    (op' : option OutputProcessor) (aa : option (list PyVal))
    (ak : option (gmap string PyVal)) (σ : World) :
  PerWindowInvoker_init op sig sis ia ik usc bfp σ0 = (Ok self, σ1) →
  ((∃ si, si ∈ sis ∧ is_globally_windowed si = false) ∨
   WindowParam ∈ defaults (process_method sig) ∨
   is_stateful_dofn sig = true) →
  is_Some rt ∨ is_splittable_dofn sig = true →
  heap σ !! l = Some wv →
  (1 < length (windows wv))%nat →
  let out := invoke_process self l rt op' aa ak σ in
  (∃ e, out.1 = Raise e ∧ exn_class e = NotImplementedError) ∧
  calls out.2 = calls σ.
Proof.
  intros Hinit Hwin Hrt Hl Hlen.
  apply PerWindowInvoker_init_fields in Hinit
    as (_ & Hsig & _ & Hhas & Hsplit & _ & _).
  assert (has_windowed_inputs self = true) as Hw
    by (rewrite Hhas; by apply compute_has_windowed_inputs_true).
  destruct (obtain_tracker_present self l wv rt (set_context_element (Some l) σ))
    as (t & σ' & Hob & Hheap & Hcalls); [|done|].
  { destruct Hrt as [?|Hs]; [by left|right]. rewrite Hsplit, Hsig.
    split; [done|]. unfold is_splittable_dofn in Hs.
    by apply bool_decide_eq_true in Hs. }
  cbv zeta. unfold invoke_process, bind, modify. rewrite Hob.
  erewrite invoke_with_tracker_rejects; [|by rewrite Hheap|done..].
  split; [by eexists|exact Hcalls].
Qed.

End Splittable.

Lemma splittable_multi_window_rejected_witness :
  let sig := Demo.signature_of (Demo.dofn_with Demo.element_and_window
                                  (λ _, Demo.no_body ResNone)) in
  let σ := Demo.world_with [Demo.two_windows (VStr "e")] in
  let self := {| output_processor := Demo.plain_processor;
                 signature := sig; side_inputs := [];
                 has_windowed_inputs := true; user_state_context := None;
                 is_splittable := false; watermark_estimator := None;
                 watermark_estimator_param := None;
                 bundle_finalizer_param := VNone;
                 is_key_param_required := false;
                 placeholders := [(0%nat, ElementParam); (1%nat, WindowParam)] |} in
  let out := invoke_process self 0%nat (Some 0%nat) None None None σ in
  (∃ e, out.1 = Raise e ∧ exn_class e = NotImplementedError) ∧
  calls out.2 = calls σ.
Proof.
  intros sig σ self.
  apply (splittable_multi_window_rejected (H := Demo.demo_external)
           Demo.plain_processor sig [] None None None VNone
           (Demo.world_with [])
           (set_args_for_process
              [ArgPlaceholder ElementParam; ArgPlaceholder WindowParam]
              (Demo.world_with []))
           self 0%nat (Demo.two_windows (VStr "e")) (Some 0%nat) None None None σ).
  - reflexivity.
  - right. left. apply list_elem_of_here.
  - left. by eexists.
  - reflexivity.
  - simpl. lia.
Defined.

Section TrackerParameter.
Context `{External}.






End TrackerParameter.


(** ** Explosion of an element into its windows *)

Section Explosion.
Context `{External}.

Lemma grows_preorder : PreOrder grows.
Proof.
  split; [intros σ; unfold grows; reflexivity|].
  intros σ1 σ2 σ3 H12 H23. unfold grows in *. by etrans.
Qed.

#[local] Existing Instance grows_preorder.

Lemma grows_lookup σ σ' l wv : grows σ σ' → heap σ !! l = Some wv → heap σ' !! l = Some wv.
Proof. intros [k Hk] Hl. rewrite Hk. by apply lookup_app_l_Some. Qed.


Lemma alloc_grows wv : keeps grows (alloc wv).
Proof. intros σ. by apply prefix_app_r. Qed.

Lemma deref_grows l : keeps grows (deref l).
Proof. intros σ. rewrite deref_world. reflexivity. Qed.

Lemma call_user_grows {A} (body : Body A) : keeps grows (call_user body).
Proof.
  intros σ. unfold call_user. destruct (body _ _) as [[r fresh] u].
  by apply prefix_app_r.
Qed.










End Explosion.

Section WindowParameter.
Context `{External}.





End WindowParameter.




(** ** Error augmentation *)

Section Augmentation.
Context `{External}.

Lemma _reraise_augmented_raises {A} (self : DoFnRunner) (exn : Exn) (σ : World) :
  ∃ e, @_reraise_augmented _ A self exn σ = (Raise e, σ) ∧
       (_tagged_with_step exn = true ∨ truthy (step_name self) = false → e = exn) ∧
       (_tagged_with_step exn = false → truthy (step_name self) = true →
        _tagged_with_step e = true ∧
        ∃ step, step_name self = Some step ∧
          match augmented exn step with
          | Some new => e = new
          | None => e = {| exn_class := RuntimeError;
                           exn_args := [VStr (format_exception_only exn
                                              +:+ step_annotation step)];
                           _tagged_with_step := true |}
          end).
Proof.
  unfold _reraise_augmented.
  destruct (_tagged_with_step exn) eqn:Et; simpl.
  { exists exn. split; [done|]. split; [done|]. discriminate. }
  destruct (truthy (step_name self)) eqn:Es; simpl.
  2: { exists exn. split; [done|]. split; [done|]. discriminate. }
  destruct (step_name self) as [step|] eqn:Estep; [|discriminate]. simpl.
  destruct (augmented exn step) as [new|] eqn:Ea.
  - exists new. split; [done|]. split; [by intros [|]|]. intros _ _.
    split; [|exists step; by rewrite Ea].
    unfold augmented in Ea. repeat case_match; by simplify_eq.
  - eexists. split; [done|]. split; [by intros [|]|]. intros _ _.
    split; [done|]. exists step. by rewrite Ea.
Qed.

(** Every fault that leaves an operation wrapped in the failure boundary of a
    runner with a step name is tagged with the step. *)
Lemma funnelled_fault_tagged {A} (self : DoFnRunner) (m : M A) (σ : World) (e : Exn) :
  truthy (step_name self) = true →
  (try_except m (_reraise_augmented self) σ).1 = Raise e →
  _tagged_with_step e = true.
Proof.
  intros Hs. unfold try_except.
  destruct (m σ) as [[a|exn] σ1]; [discriminate|].
  destruct (_reraise_augmented_raises (A := A) self exn σ1) as (e' & -> & Hsame & Hnew).
  simpl. intros [= <-].
  destruct (_tagged_with_step exn) eqn:Et.
  - rewrite (Hsame (or_introl eq_refl)). exact Et.
  - by destruct (Hnew eq_refl Hs).
Qed.

Lemma wrapped_operations_tag_faults (self : DoFnRunner) (σ : World) (e : Exn) :
  truthy (step_name self) = true →
  (∀ l, (runner_process self l σ).1 = Raise e → _tagged_with_step e = true) ∧
  ((runner_setup self σ).1 = Raise e → _tagged_with_step e = true) ∧
  ((runner_start self σ).1 = Raise e → _tagged_with_step e = true) ∧
  ((runner_finish self σ).1 = Raise e → _tagged_with_step e = true) ∧
  ((runner_teardown self σ).1 = Raise e → _tagged_with_step e = true).
Proof.
  intros Hs. repeat split; intros; by eapply funnelled_fault_tagged.
Qed.

End Augmentation.

(** C4 fails on the code: [process_with_sized_restriction] has no failure
    boundary.  For the step named [step] and a splittable DoFn whose
    [process] raises [ValueError("boom")], the fault leaves
    [process_with_sized_restriction] as it was raised, untagged and without
    the step, while the same fault leaves [process] as
    [ValueError("boom [while running 'step']")], tagged. *)
Lemma sized_restriction_fault_not_augmented :
  let σ := Demo.world_with
             [Demo.one_window (VTuple [VTuple [VStr "e"; VStr "r"]; VInt 1]);
              Demo.one_window (VStr "e")] in
  match Demo.runner_for (Demo.dofn_with Demo.element_and_tracker Demo.failing) σ with
  | (Ok runner, σ1) =>
      (process_with_sized_restriction runner 0%nat σ1).1
      = Raise {| exn_class := ValueError; exn_args := [VStr "boom"];
                 _tagged_with_step := false |} ∧
      (runner_process runner 1%nat σ1).1
      = Raise {| exn_class := ValueError;
                 exn_args := [VStr "boom [while running 'step']"];
                 _tagged_with_step := true |}
  | (Raise _, _) => False
  end.
Proof. vm_compute. split; reflexivity. Qed.

(** * Further properties *)

(** ** Order, routing and counting of outputs *)

Section OutputOrder.
Context `{External}.

Lemma unwrap_tag_Ok v σ tag inner σ' :
  unwrap_tag v σ = (Ok (tag, inner), σ') →
  σ' = σ ∧ tag = result_tag v ∧
  (∀ r, windowed_result v = Some r → inner = VWindowedValue r).
Proof.
  intros Heq.
  destruct v as [ | z | s | items | w | t | p | tg inner' | sv at_time | ref | name];
    simpl in Heq; unfold ret, raise in Heq.
  all: try (simplify_eq; split_and!;
            [done|done|intros r Hr; simpl in Hr; by simplify_eq]).
  destruct tg; simplify_eq. split_and!; [done|done|].
  intros r Hr. simpl in Hr. destruct inner; by simplify_eq.
Qed.

Lemma to_windowed_value_same_object op input r σ l σ' :
  to_windowed_value op input (VWindowedValue r) σ = (Ok l, σ') → l = r.
Proof.
  simpl. destruct input as [i|]; [|unfold ret; congruence].
  unfold bind. destruct (deref i σ) as [[inp|e] σ1]; [|done].
  case_decide; [|unfold ret; congruence].
  destruct (multiply_windows r _ σ1) as [[[]|e] σ2]; [|done].
  unfold ret; congruence.
Qed.

Lemma dispatch_received op tag l σ :
  match dispatch op tag l σ with
  | (Ok _, σ') => received σ' = received σ ++ [(tag, l)] ∧
                  (∀ s, tag = Some s → s ∈ tagged_receivers op)
  | (Raise e, σ') => σ' = σ ∧ exn_class e = KeyError ∧
                     ∃ s, tag = Some s ∧ s ∉ tagged_receivers op
  end.
Proof.
  unfold dispatch. destruct tag as [s|].
  - case_decide.
    + unfold receive, modify; simpl. split; [done|]. by intros ? [= <-].
    + unfold raise. split_and!; [done|done|]. by exists s.
  - unfold receive, modify; simpl. split; [done|]. by intros ? [=].
Qed.

Lemma to_windowed_value_received op input result σ :
  received (to_windowed_value op input result σ).2 = received σ.
Proof.
  apply (to_windowed_value_keeps received); done.
Qed.

(** The trace of the loop of [process_outputs]: the first [k] results were
    dispatched, in order and each once; the loop returns exactly when [k] is
    the number of results. *)
Lemma process_outputs_loop_trace op input items : ∀ n σ res σ',
  process_outputs_loop op input items n σ = (res, σ') →
  ∃ k new,
    received σ' = received σ ++ new ∧
    new.*1 = result_tag <$> take k items ∧
    (∀ j r, (j < k)%nat → items !! j ≫= windowed_result = Some r →
       new.*2 !! j = Some r) ∧
    (∀ s, Some s ∈ new.*1 → s ∈ tagged_receivers op) ∧
    match res with
    | Ok m => k = length items ∧ m = (n + length items)%nat
    | Raise _ => (k < length items)%nat
    end.
Proof.
  induction items as [|item rest IH]; intros n σ res σ' Hrun.
  - simpl in Hrun. unfold ret in Hrun. simplify_eq.
    exists 0%nat, []. simpl. rewrite app_nil_r.
    split_and!; [done|done|intros; lia|by intros s ?%not_elem_of_nil|done|lia].
  - simpl in Hrun. unfold bind at 1 in Hrun.
    destruct (unwrap_tag item σ) as [[[tag inner]|e] σ0] eqn:Eu.
    2:{ pose proof (unwrap_tag_world item σ) as Hw. rewrite Eu in Hw.
        simpl in Hw. simplify_eq. exists 0%nat, []. simpl. rewrite app_nil_r.
        split_and!; [done|done|intros; lia|by intros s ?%not_elem_of_nil|lia]. }
    apply unwrap_tag_Ok in Eu as (-> & Htag & Hinner).
    unfold bind at 1 in Hrun.
    pose proof (to_windowed_value_received op input inner σ) as Hr1.
    destruct (to_windowed_value op input inner σ) as [[l|e] σ1] eqn:Et.
    2:{ simplify_eq. exists 0%nat, []. simpl in *. rewrite app_nil_r.
        split_and!; [done|done|intros; lia|by intros s ?%not_elem_of_nil|lia]. }
    simpl in Hr1. unfold bind at 1 in Hrun.
    pose proof (dispatch_received op tag l σ1) as Hd.
    destruct (dispatch op tag l σ1) as [[[]|e] σ2].
    2:{ destruct Hd as (-> & _ & _). simplify_eq. exists 0%nat, []. simpl.
        rewrite app_nil_r.
        split_and!; [done|done|intros; lia|by intros s ?%not_elem_of_nil|lia]. }
    destruct Hd as [Hr2 Hreg].
    destruct (IH (S n) σ2 res σ' Hrun) as (k & new & Hrec & Htags & Hobj & Hin & Hres).
    exists (S k), ((tag, l) :: new). split_and!.
    + rewrite Hrec, Hr2, Hr1. by rewrite <- app_assoc.
    + rewrite fmap_cons, Htags.
      change (take (S k) (item :: rest)) with (item :: take k rest).
      by rewrite fmap_cons, Htag.
    + rewrite fmap_cons. intros [|j] r Hj Hr.
      * change (Some l = Some r). f_equal.
        change (windowed_result item = Some r) in Hr.
        specialize (Hinner r Hr). subst inner.
        by apply to_windowed_value_same_object in Et.
      * exact (Hobj j r ltac:(lia) Hr).
    + intros s Hs. rewrite fmap_cons in Hs. apply elem_of_cons in Hs as [Hs|Hs].
      * apply Hreg. simpl in Hs. congruence.
      * by apply Hin.
    + destruct res.
      * destruct Hres as [-> ->]. split; simpl; lia.
      * simpl. lia.
Qed.

(** X1: [process_outputs] hands the results to the receivers in the order
    in which the iterable yields them, each at most once and to the receiver
    that its tag names: the receivers have been called for a prefix of the
    results, a WindowedValue result is handed on as the very same object,
    every tag used is a registered one, the whole list was dispatched when
    the call returns, and the call raises when it stopped early. *)
Theorem results_dispatched_in_order
    (op : OutputProcessor) (input : option loc) (items : list PyVal)
    (fault : option Exn) (σ : World) :
  let out := process_outputs op input (ResIter items fault) σ in
  ∃ k new,
    received out.2 = received σ ++ new ∧
    new.*1 = result_tag <$> take k items ∧
    (∀ j r, (j < k)%nat → items !! j ≫= windowed_result = Some r →
       new.*2 !! j = Some r) ∧
    (∀ s, Some s ∈ new.*1 → s ∈ tagged_receivers op) ∧
    (out.1 = Ok tt → k = length items ∧ fault = None) ∧
    ((k < length items)%nat → ∃ e, out.1 = Raise e).
Proof.
  intros out. subst out. unfold process_outputs, bind.
  destruct (process_outputs_loop op input items 0 σ) as [[m|e] σ1] eqn:Erun;
    destruct (process_outputs_loop_trace op input items 0 σ _ _ Erun)
      as (k & new & Hrec & Htags & Hobj & Hin & Hres);
    exists k, new; simpl in *.
  - destruct Hres as [-> ->].
    destruct fault as [e|]; unfold raise; simpl.
    + split_and!; [done|done|done|done|done|lia].
    + pose proof (add_input_keeps received ltac:(done) op (length items) σ1) as Ha.
      unfold same in Ha. rewrite Ha.
      split_and!; [done|done|done|done|done|lia].
  - split_and!; [done|done|done|done|done|by eexists].
Qed.


Lemma process_outputs_loop_app op input a b : ∀ n σ,
  process_outputs_loop op input (a ++ b) n σ
  = match process_outputs_loop op input a n σ with
    | (Ok m, σ1) => process_outputs_loop op input b m σ1
    | (Raise e, σ1) => (Raise e, σ1)
    end.
Proof.
  induction a as [|x a IH]; intros n σ; [done|].
  simpl. unfold bind.
  destruct (unwrap_tag x σ) as [[[tag inner]|e] σ0]; [|done].
  destruct (to_windowed_value op input inner σ0) as [[l|e] σ1]; [|done].
  destruct (dispatch op tag l σ1) as [[[]|e] σ2]; [|done].
  apply IH.
Qed.

(** X2: the per-element output counter gets exactly one input for a call
    of [process_outputs] that returns, the number of results (zero for
    [None]), and only if a counter is installed; a call that raises records
    nothing. *)
Theorem output_count_recorded
    (op : OutputProcessor) (input : option loc) (results : Results) (σ : World) :
  let out := process_outputs op input results σ in
  match out.1 with
  | Ok _ =>
      counter_inputs out.2
      = counter_inputs σ ++
        (if per_element_output_counter op
         then [match results with
               | ResNone => 0%nat
               | ResIter items _ => length items
               end]
         else [])
  | Raise _ => counter_inputs out.2 = counter_inputs σ
  end.
Proof.
  intros out. subst out. destruct results as [|items fault].
  - simpl. unfold add_input. destruct (per_element_output_counter op); simpl;
      [done|by rewrite app_nil_r].
  - unfold process_outputs, bind.
    pose proof (process_outputs_loop_keeps counter_inputs ltac:(done) ltac:(done)
                  op input items 0 σ) as Hc. unfold same in Hc.
    destruct (process_outputs_loop op input items 0 σ) as [[m|e] σ1] eqn:Erun;
      simpl in Hc; [|done].
    destruct (process_outputs_loop_trace op input items 0 σ _ _ Erun)
      as (k & new & _ & _ & _ & _ & _ & ->).
    destruct fault as [e|]; [done|].
    unfold add_input. destruct (per_element_output_counter op); simpl;
      rewrite Hc; [done|by rewrite app_nil_r].
Qed.

(** X3: a TaggedOutput whose tag is not a string ends [process_outputs]
    with a TypeError: the results before it are processed as usual, and
    neither the tagged value nor any later result constructs an object or
    reaches a receiver. *)
Theorem non_string_tag_rejected
    (op : OutputProcessor) (input : option loc) (pre post : list PyVal)
    (tag v : PyVal) (fault : option Exn) (σ : World) :
  (∀ s, tag ≠ VStr s) →
  ∃ e, exn_class e = TypeError ∧
    process_outputs op input
      (ResIter (pre ++ VTaggedOutput tag v :: post) fault) σ
    = match process_outputs_loop op input pre 0 σ with
      | (Ok _, σ1) => (Raise e, σ1)
      | (Raise e', σ1) => (Raise e', σ1)
      end.
Proof.
  intros Htag. exists (new_exn TypeError "tag is not a string"). split; [done|].
  unfold process_outputs, bind. rewrite process_outputs_loop_app.
  destruct (process_outputs_loop op input pre 0 σ) as [[m|e] σ1]; [|done].
  simpl. unfold bind.
  destruct tag; try done. by destruct (Htag s).
Qed.

(** X4: a result tagged for a receiver that is not registered ends
    [process_outputs] with a KeyError.  No receiver gets the result or any
    later one; the WindowedValue for the result has been built (or, for a
    WindowedValue result, re-windowed) by then, because the receiver is
    looked up last. *)
Theorem unregistered_tag_rejected
    (op : OutputProcessor) (input : option loc) (pre post : list PyVal)
    (s : string) (v : PyVal) (fault : option Exn) (σ : World) :
  s ∉ tagged_receivers op →
  let out := process_outputs op input
               (ResIter (pre ++ VTaggedOutput (VStr s) v :: post) fault) σ in
  (∃ e, out.1 = Raise e) ∧
  match process_outputs_loop op input pre 0 σ with
  | (Ok _, σ1) =>
      received out.2 = received σ1 ∧
      match to_windowed_value op input v σ1 with
      | (Ok _, σ2) => out = (Raise (new_exn KeyError s), σ2)
      | (Raise e, σ2) => out = (Raise e, σ2)
      end
  | (Raise e, σ1) => out = (Raise e, σ1)
  end.
Proof.
  intros Hs out. subst out.
  unfold process_outputs, bind. rewrite process_outputs_loop_app.
  destruct (process_outputs_loop op input pre 0 σ) as [[m|e] σ1];
    [|split; [by eexists|done]].
  simpl. unfold bind, ret.
  pose proof (to_windowed_value_received op input v σ1) as Hr.
  destruct (to_windowed_value op input v σ1) as [[l|e] σ2]; simpl in Hr;
    [|split; [by eexists|done]].
  unfold dispatch. rewrite decide_False by done. unfold raise.
  split; [by eexists|done].
Qed.

Lemma set_heap_ext f g (σ : World) :
  f (heap σ) = g (heap σ) → set_heap f σ = set_heap g σ.
Proof. unfold set_heap. by intros ->. Qed.

Lemma to_windowed_value_timestamped op i input v ts σ :
  heap σ !! i = Some input →
  to_windowed_value op (Some i) (VTimestampedValue v ts) σ
  = (Ok (length (heap σ)),
     set_heap (λ h, h ++
       [{| value := v; timestamp := ts;
           windows := if decide (length (windows input) ≠ 1%nat)
                      then times (window_fn op ts v) (length (windows input))
                      else window_fn op ts v;
           pane_info := PANE_INFO_UNKNOWN |}]) σ).
Proof.
  intros Hi. simpl. unfold bind at 1. unfold alloc.
  set (x := {| value := v; timestamp := ts; windows := window_fn op ts v;
               pane_info := PANE_INFO_UNKNOWN |}).
  set (σ1 := set_heap (λ h, h ++ [x]) σ).
  assert (heap σ1 !! i = Some input) as Hi1.
  { subst σ1. rewrite heap_set_heap. by apply lookup_app_l_Some. }
  assert (heap σ1 !! length (heap σ) = Some x) as Hx.
  { subst σ1. rewrite heap_set_heap. by apply list_lookup_middle. }
  unfold bind at 1. rewrite (deref_Some i σ1 input Hi1).
  case_decide as Hn; [|done].
  unfold bind at 1. unfold multiply_windows. unfold bind at 1.
  rewrite (deref_Some _ σ1 x Hx). unfold assign_windows, bind.
  rewrite (deref_Some _ σ1 x Hx). unfold modify, ret. f_equal.
  subst σ1. unfold set_heap at 1. cbn [heap received counter_inputs calls
    context_element threadsafe_restriction_tracker current_windowed_value
    cache_globally_windowed_args args_for_process kwargs_for_process ext set_heap].
  f_equal.
  rewrite insert_app_r_alt by done. rewrite Nat.sub_diag. done.
Qed.

(** X5: a TimestampedValue result becomes a new WindowedValue with the
    value and timestamp of the result, the unknown pane and the windows
    that the window function assigns, repeated once for every window of the
    input element when the input is not in exactly one window; the main
    receiver gets it. *)
Theorem timestamped_value_rewindowed
    (op : OutputProcessor) (i : loc) (input : WindowedValue)
    (v : PyVal) (ts : Timestamp) (σ : World) :
  heap σ !! i = Some input →
  let out := process_outputs op (Some i)
               (ResIter [VTimestampedValue v ts] None) σ in
  out.1 = Ok tt ∧
  received out.2 = received σ ++ [(None, length (heap σ))] ∧
  heap out.2
  = heap σ ++
    [{| value := v; timestamp := ts;
        windows := if decide (length (windows input) ≠ 1%nat)
                   then times (window_fn op ts v) (length (windows input))
                   else window_fn op ts v;
        pane_info := PANE_INFO_UNKNOWN |}].
Proof.
  intros Hi out. subst out.
  assert (process_outputs_loop op (Some i) [VTimestampedValue v ts] 0 σ
          = (Ok 1%nat,
             set_received (λ r, r ++ [(None, length (heap σ))])
               (set_heap (λ h, h ++
                  [{| value := v; timestamp := ts;
                      windows := if decide (length (windows input) ≠ 1%nat)
                                 then times (window_fn op ts v)
                                        (length (windows input))
                                 else window_fn op ts v;
                      pane_info := PANE_INFO_UNKNOWN |}]) σ))) as Hloop.
  { simpl. unfold bind at 1. unfold ret at 1.
    unfold bind at 1.
    rewrite (to_windowed_value_timestamped op i input v ts σ Hi).
    done. }
  unfold process_outputs, bind. rewrite Hloop.
  unfold add_input. by destruct (per_element_output_counter op).
Qed.

Lemma finish_bundle_outputs_loop_trace op items : ∀ σ res σ',
  finish_bundle_outputs_loop op items σ = (res, σ') →
  heap σ' = heap σ ∧ counter_inputs σ' = counter_inputs σ ∧
  ∃ k, received σ' = received σ ++ omap finish_target (take k items) ∧
    (∀ v, v ∈ take k items →
       ∃ tag l, finish_target v = Some (tag, l) ∧
                ∀ s, tag = Some s → s ∈ tagged_receivers op) ∧
    match res with
    | Ok _ => k = length items
    | Raise e =>
        ∃ v, items !! k = Some v ∧
          match finish_target v with
          | Some (tag, _) =>
              exn_class e = KeyError ∧
              ∃ s, tag = Some s ∧ s ∉ tagged_receivers op
          | None =>
              exn_class e = match v with
                            | VTaggedOutput (VStr _) _ => RuntimeError
                            | VTaggedOutput _ _ => TypeError
                            | _ => RuntimeError
                            end
          end
    end.
Proof.
  induction items as [|item rest IH]; intros σ res σ' Hrun.
  - simpl in Hrun. unfold ret in Hrun. simplify_eq.
    split_and!; [done|done|]. exists 0%nat. simpl. rewrite app_nil_r.
    split_and!; [done|by intros v ?%not_elem_of_nil|done].
  - simpl in Hrun. unfold bind at 1 in Hrun.
    destruct (unwrap_tag item σ) as [[[tag inner]|e] σ0] eqn:Eu.
    2:{ pose proof (unwrap_tag_world item σ) as Hw. rewrite Eu in Hw.
        simpl in Hw. simplify_eq. split_and!; [done|done|].
        exists 0%nat. simpl. rewrite app_nil_r.
        split_and!; [done|by intros v ?%not_elem_of_nil|].
        exists item. split; [done|].
        destruct item as [ | | | | | | | tg inner' | | | ];
          simpl in Eu; unfold ret, raise in Eu; simplify_eq.
        destruct tg; simpl in Eu; unfold ret, raise in Eu; by simplify_eq. }
    assert (σ0 = σ) as ->.
    { pose proof (unwrap_tag_world item σ) as Hw. by rewrite Eu in Hw. }
    unfold bind at 1 in Hrun.
    assert ((∃ l, inner = VWindowedValue l) ∨ (∀ l, inner ≠ VWindowedValue l))
      as [[l ->]|Hnot].
    { destruct inner; (by left; eexists) || (by right). }
    2:{ assert (res = Raise (new_exn RuntimeError
                  "Finish Bundle should only output WindowedValue type")
                ∧ σ' = σ) as [-> ->].
        { destruct inner; unfold raise in Hrun; simplify_eq; try done.
          by destruct (Hnot ref). }
        split_and!; [done|done|].
        exists 0%nat. simpl. rewrite app_nil_r.
        split_and!; [done|by intros v ?%not_elem_of_nil|].
        exists item. split; [done|].
        destruct item as [ | | | | | | | tg inner' | | ref | ];
          simpl in Eu; unfold ret, raise in Eu; simplify_eq; try done.
        + destruct tg; simpl in Eu; unfold ret, raise in Eu; simplify_eq.
          destruct inner; try done. by destruct (Hnot ref).
        + by destruct (Hnot ref). }
    unfold ret at 1 in Hrun. unfold bind at 1 in Hrun.
    assert (finish_target item = Some (tag, l)) as Htarget.
    { destruct item as [ | | | | | | | tg inner' | | ref | ];
        simpl in Eu; unfold ret, raise in Eu; simplify_eq; try done.
      destruct tg; simpl in Eu; unfold ret, raise in Eu; by simplify_eq. }
    pose proof (dispatch_received op tag l σ) as Hd.
    pose proof (dispatch_keeps heap ltac:(done) op tag l σ) as Hh.
    pose proof (dispatch_keeps counter_inputs ltac:(done) op tag l σ) as Hc.
    unfold same in Hh, Hc.
    destruct (dispatch op tag l σ) as [[[]|e] σ2]; simpl in Hh, Hc.
    2:{ destruct Hd as (-> & Hk & s & -> & Hs). simplify_eq.
        split_and!; [done|done|].
        exists 0%nat. simpl. rewrite app_nil_r.
        split_and!; [done|by intros v ?%not_elem_of_nil|].
        exists item. split; [done|]. rewrite Htarget. split; [done|].
        by exists s. }
    destruct Hd as [Hr2 Hreg].
    destruct (IH σ2 res σ' Hrun) as (Hh' & Hc' & k & Hrec & Hall & Hres).
    split_and!; [congruence|congruence|].
    exists (S k). split_and!.
    + change (take (S k) (item :: rest)) with (item :: take k rest).
      simpl. rewrite Htarget, Hrec, Hr2. by rewrite <- app_assoc.
    + change (take (S k) (item :: rest)) with (item :: take k rest).
      intros v [->|Hv]%elem_of_cons; [|by apply Hall].
      exists tag, l. split; [done|]. intros s Hs. by apply Hreg.
    + destruct res; [simpl; congruence|]. exact Hres.
Qed.

(** X6: [finish_bundle_outputs] never constructs or changes a
    WindowedValue and never touches the output counter.  It hands the
    results on in order, as they are, until the first one that it cannot
    dispatch, and then raises: TypeError for a tag that is not a string,
    RuntimeError for a result that is not a WindowedValue, KeyError for a
    tag without a receiver. *)
Theorem finish_bundle_outputs_dispatch
    (op : OutputProcessor) (items : list PyVal) (fault : option Exn) (σ : World) :
  let out := finish_bundle_outputs op (ResIter items fault) σ in
  heap out.2 = heap σ ∧
  counter_inputs out.2 = counter_inputs σ ∧
  ∃ k, received out.2 = received σ ++ omap finish_target (take k items) ∧
    (∀ v, v ∈ take k items →
       ∃ tag l, finish_target v = Some (tag, l) ∧
                ∀ s, tag = Some s → s ∈ tagged_receivers op) ∧
    (out.1 = Ok tt → k = length items ∧ fault = None) ∧
    (∀ v, items !! k = Some v →
       ∃ e, out.1 = Raise e ∧
         match finish_target v with
         | Some (tag, _) =>
             exn_class e = KeyError ∧
             ∃ s, tag = Some s ∧ s ∉ tagged_receivers op
         | None =>
             exn_class e = match v with
                           | VTaggedOutput (VStr _) _ => RuntimeError
                           | VTaggedOutput _ _ => TypeError
                           | _ => RuntimeError
                           end
         end).
Proof.
  intros out. subst out. unfold finish_bundle_outputs, bind.
  destruct (finish_bundle_outputs_loop op items σ) as [[[]|e] σ1] eqn:Erun;
    destruct (finish_bundle_outputs_loop_trace op items σ _ _ Erun)
      as (Hh & Hc & k & Hrec & Hall & Hres).
  - subst k.
    assert (∀ v : PyVal, items !! length items = Some v → False) as Hout.
    { intros v Hv. apply lookup_lt_Some in Hv. lia. }
    destruct fault as [e|]; unfold raise, ret; simpl;
      (split_and!; [done|done|]); exists (length items);
      (split_and!; [done|done|done|]); intros v Hv; by destruct (Hout v).
  - simpl. split_and!; [done|done|]. exists k.
    split_and!; [done|done|done|].
    intros v Hv. destruct Hres as (v' & Hv' & Hcls).
    assert (v' = v) as -> by congruence. by exists e.
Qed.

End OutputOrder.

(** ** Calls of [process] *)

Section InvokerCalls.
Context `{External}.

#[local] Existing Instance grows_preorder.


Lemma call_user_received {A} (body : Body A) σ :
  received (call_user body σ).2 = received σ.
Proof. unfold call_user. by destruct (body _ _) as [[? ?] ?]. Qed.



Lemma add_input_frame op n σ :
  heap (add_input op n σ).2 = heap σ ∧
  received (add_input op n σ).2 = received σ ∧
  (add_input op n σ).1 = Ok tt.
Proof. unfold add_input. by destruct (per_element_output_counter op). Qed.

Lemma simple_invoker_run op sig l wv op' σ res σ' :
  heap σ !! l = Some wv →
  SimpleInvoker_invoke_process op sig l op' σ = (res, σ') →
  let c := {| call_args := [value wv]; call_kwargs := ∅ |} in
  calls σ' = calls σ ++ [c] ∧
  context_element σ' = context_element σ ∧
  ∀ items fresh u,
    process_body (do_fn sig) c (heap σ) (ext σ)
    = (Ok (ResIter items None), fresh, u) →
    forallb plain items = true →
    res = Ok VNone ∧
    heap σ' = heap σ ++ fresh ++ (with_value wv <$> items) ∧
    received σ'
    = received σ ++
      ((λ k, (None, (length (heap σ) + length fresh + k)%nat))
         <$> seq 0 (length items)).
Proof.
  intros Hl Hrun c.
  unfold SimpleInvoker_invoke_process in Hrun. unfold bind at 1 in Hrun.
  rewrite (deref_Some l σ wv Hl) in Hrun. unfold bind at 1 in Hrun.
  unfold call_process in Hrun. unfold bind at 1, modify at 1 in Hrun.
  fold c in Hrun. unfold call_user in Hrun.
  set (σ1 := set_calls (λ cs, cs ++ [c]) σ) in *.
  change (heap σ1) with (heap σ) in Hrun. change (ext σ1) with (ext σ) in Hrun.
  destruct (process_body (do_fn sig) c (heap σ) (ext σ)) as [[r fresh] u] eqn:Eb.
  set (σ2 := set_ext (λ _, u) (set_heap (λ h, h ++ fresh) σ1)) in *.
  destruct r as [results|e].
  2:{ simplify_eq. split_and!; [done|done|]. intros ??? [=]. }
  unfold bind at 1 in Hrun.
  pose proof (process_outputs_keeps calls ltac:(done) ltac:(done) ltac:(done)
                (default op op') (Some l) results σ2) as Hc.
  pose proof (process_outputs_keeps context_element ltac:(done) ltac:(done)
                ltac:(done) (default op op') (Some l) results σ2) as Hx.
  unfold same in Hc, Hx.
  split_and!.
  - destruct (process_outputs (default op op') (Some l) results σ2)
      as [[[]|e] σ3]; unfold ret in Hrun; simplify_eq; exact Hc.
  - destruct (process_outputs (default op op') (Some l) results σ2)
      as [[[]|e] σ3]; unfold ret in Hrun; simplify_eq; exact Hx.
  - intros items fresh' u' [= -> <- <-] Hplain.
    assert (heap σ2 !! l = Some wv) as Hl2.
    { subst σ2 σ1. cbn. by apply lookup_app_l_Some. }
    unfold process_outputs in Hrun. unfold bind at 1 in Hrun.
    rewrite (process_outputs_loop_plain (default op op') l wv items 0 σ2
               Hplain Hl2) in Hrun.
    destruct (add_input_frame (default op op') (0 + length items)
                (set_received
                   (λ r, r ++ ((λ k, (None, (length (heap σ2) + k)%nat))
                                 <$> seq 0 (length items)))
                   (set_heap (λ h, h ++ (with_value wv <$> items)) σ2)))
      as (Hh & Hr & Hok).
    destruct (add_input _ _ _) as [[[]|e] σ3]; simpl in Hok; [|done].
    unfold ret in Hrun. simplify_eq. simpl in Hh, Hr.
    split_and!; [done| |].
    + rewrite Hh. subst σ2 σ1. cbn. by rewrite <- app_assoc.
    + rewrite Hr. subst σ2 σ1. cbn. by rewrite length_app.
Qed.

(** X7: the SimpleInvoker calls [process] exactly once per element, with
    the value of the element as the only argument, however many windows the
    element is in, and does not move the context.  When [process] returns
    plain results, each becomes one WindowedValue with the timestamp, the
    windows and the pane of the element, received by the main receiver in
    order. *)
Theorem simple_invoker_calls_once
    (op : OutputProcessor) (sig : DoFnSignature) (l : loc) (wv : WindowedValue)
    (op' : option OutputProcessor) (σ : World) :
  heap σ !! l = Some wv →
  let c := {| call_args := [value wv]; call_kwargs := ∅ |} in
  let out := SimpleInvoker_invoke_process op sig l op' σ in
  calls out.2 = calls σ ++ [c] ∧
  context_element out.2 = context_element σ ∧
  ∀ items fresh u,
    process_body (do_fn sig) c (heap σ) (ext σ)
    = (Ok (ResIter items None), fresh, u) →
    forallb plain items = true →
    out.1 = Ok VNone ∧
    heap out.2 = heap σ ++ fresh ++ (with_value wv <$> items) ∧
    received out.2
    = received σ ++
      ((λ k, (None, (length (heap σ) + length fresh + k)%nat))
         <$> seq 0 (length items)).
Proof.
  intros Hl c out. subst out c.
  destruct (SimpleInvoker_invoke_process op sig l op' σ) as [res σ'] eqn:Erun.
  exact (simple_invoker_run op sig l wv op' σ res σ' Hl Erun).
Qed.



Lemma extract_key_spec self wv σ res σ' :
  extract_key self wv σ = (res, σ') →
  σ' = σ ∧
  match res with
  | Ok key =>
      if needs_key self
      then ∃ k v, unpack2 (value wv) = Some (k, v) ∧ key = Some k
      else key = None
  | Raise e =>
      needs_key self = true ∧ unpack2 (value wv) = None ∧
      exn_class e = ValueError
  end.
Proof.
  unfold extract_key, needs_key.
  destruct (bool_decide _ || is_key_param_required self).
  - destruct (unpack2 (value wv)) as [[k v]|]; unfold ret, raise;
      intros [= <- <-]; [|done]. split; [done|]. by exists k, v.
  - unfold ret. by intros [= <- <-].
Qed.

(** What [prepare_args] leaves alone, and the local variable [window]. *)
Lemma prepare_args_spec self wv aa σ res σ' :
  prepare_args self wv aa σ = (res, σ') →
  heap σ' = heap σ ∧ calls σ' = calls σ ∧ received σ' = received σ ∧
  ext σ' = ext σ ∧
  threadsafe_restriction_tracker σ' = threadsafe_restriction_tracker σ ∧
  match res with
  | Ok (shared, window, a, k) =>
      if has_windowed_inputs self
      then shared = false ∧ σ' = σ ∧ ∃ w, windows wv = [w] ∧ window = Some w
      else shared = true ∧ window = None
  | Raise e => exn_class e = ValueError ∨ exn_class e = StopIteration
  end.
Proof.
  unfold prepare_args. unfold bind at 1, get.
  destruct (has_windowed_inputs self).
  - destruct (windows wv) as [|w [|w' ws]]; unfold raise;
      try (intros [= <- <-]; split_and!; try done; by left).
    destruct (insert_values_in_args _ _ _) as [[a k]|]; unfold ret, raise;
      intros [= <- <-]; split_and!; try done; [by exists w|by right].
  - destruct (cache_globally_windowed_args σ).
    + unfold bind at 1, modify at 1.
      destruct (insert_values_in_args _ _ _) as [[a k]|]; unfold raise.
      * unfold bind, modify, ret. intros [= <- <-]. by split_and!.
      * intros [= <- <-]. split_and!; try done. by right.
    + unfold ret. intros [= <- <-]. by split_and!.
Qed.










End InvokerCalls.

(** ** What a splittable invocation returns *)

Section Residual.
Context `{External}.

#[local] Existing Instance grows_preorder.
#[local] Existing Instance only_windows_of_preorder.

Lemma deferred_residual_spec self e wv t σ r σ' :
  threadsafe_restriction_tracker σ = Some t →
  heap σ !! e = Some wv →
  deferred_residual self e σ = (Ok r, σ') →
  residual_of self t wv r σ'.
Proof.
  intros Ht He Hrun. unfold deferred_residual in Hrun.
  unfold bind at 1, get in Hrun. rewrite Ht in Hrun.
  unfold residual_of.
  destruct (tracker_check_done t (ext σ)) as [ex|] eqn:Ed; [done|].
  destruct (tracker_deferred_status t (ext σ)) as [[dr dw]|] eqn:Es.
  - unfold bind at 1 in Hrun. rewrite (deref_Some e σ wv He) in Hrun.
    unfold bind, alloc, ret in Hrun. simplify_eq. cbn.
    rewrite Ed, Es. split; [done|].
    eexists _, _. split_and!; done.
  - unfold ret in Hrun. simplify_eq. by rewrite Ed, Es.
Qed.

Lemma call_user_handle_eq {A} (body : Body A) σ :
  threadsafe_restriction_tracker (call_user body σ).2
  = threadsafe_restriction_tracker σ.
Proof. unfold call_user. by destruct (body _ _) as [[? ?] ?]. Qed.

Lemma per_window_residual self e ewv aa ak op σ r σ' t :
  heap σ !! e = Some ewv →
  threadsafe_restriction_tracker σ = Some t →
  _invoke_process_per_window self e aa ak op σ = (Ok r, σ') →
  if is_splittable self
  then ∃ ws, residual_of self t (with_windows ewv ws) r σ'
  else r = VNone.
Proof.
  intros He Ht Hrun.
  unfold _invoke_process_per_window in Hrun. unfold bind at 1 in Hrun.
  rewrite (deref_Some e σ ewv He) in Hrun.
  unfold bind at 1 in Hrun.
  destruct (prepare_args self ewv aa σ) as [[[[[shared window] a] k]|ex] σ1]
    eqn:Ep; apply prepare_args_spec in Ep as (Hh1 & _ & _ & _ & Ht1 & _);
    [|done].
  unfold bind at 1 in Hrun.
  destruct (extract_key self ewv σ1) as [[key|ex] σ2] eqn:Ek;
    apply extract_key_spec in Ek as [-> _]; [|done].
  destruct (fill_placeholders self ewv key window (placeholders self) a)
    as [a' fault] eqn:Efill.
  unfold bind at 1 in Hrun.
  set (σ3 := ((if shared then modify (set_args_for_process a') else ret tt) σ1).2).
  assert ((if shared then modify (set_args_for_process a') else ret tt) σ1
          = (Ok tt, σ3)) as E3 by (subst σ3; by destruct shared).
  assert (heap σ3 = heap σ ∧
          threadsafe_restriction_tracker σ3 = Some t) as (Hh3 & Ht3).
  { subst σ3. destruct shared; simpl; split; congruence. }
  rewrite E3 in Hrun. clearbody σ3.
  destruct fault as [ef|]; [done|].
  unfold bind at 1 in Hrun.
  set (k' := (Filled <$> ak) ∪ k) in *.
  set (σ4 := ((if shared then modify (set_kwargs_for_process k') else ret tt) σ3).2).
  assert ((if shared then modify (set_kwargs_for_process k') else ret tt) σ3
          = (Ok tt, σ4)) as E4 by (subst σ4; by destruct shared).
  assert (heap σ4 = heap σ ∧
          threadsafe_restriction_tracker σ4 = Some t) as (Hh4 & Ht4).
  { subst σ4. destruct shared; simpl; split; congruence. }
  rewrite E4 in Hrun. clearbody σ4.
  unfold bind at 1 in Hrun. unfold call_process in Hrun.
  unfold bind at 1, modify at 1 in Hrun.
  set (c := {| call_args := slot_value <$> a';
               call_kwargs := slot_value <$> k' |}) in *.
  set (σ5 := set_calls (λ cs, cs ++ [c]) σ4) in *.
  pose proof (call_user_handle_eq (process_body (do_fn (signature self)) c) σ5)
    as Ht6.
  pose proof (call_user_grows (process_body (do_fn (signature self)) c) σ5)
    as Hg6.
  destruct (call_user (process_body (do_fn (signature self)) c) σ5)
    as [[results|ec] σ6]; [|done].
  simpl in Ht6, Hg6.
  assert (heap σ6 !! e = Some ewv) as He6.
  { eapply grows_lookup; [exact Hg6|]. subst σ5. cbn. by rewrite Hh4. }
  unfold bind at 1 in Hrun.
  pose proof (process_outputs_keeps threadsafe_restriction_tracker
                ltac:(done) ltac:(done) ltac:(done) op (Some e) results σ6)
    as Ht7.
  pose proof (process_outputs_only_windows op (Some e) results σ6 e ewv He6)
    as (ws & He7 & _).
  unfold same in Ht7.
  destruct (process_outputs op (Some e) results σ6) as [[[]|ep] σ7];
    [|done].
  simpl in Ht7, He7.
  destruct (is_splittable self).
  - exists ws. eapply deferred_residual_spec; [|exact He7|exact Hrun].
    rewrite Ht7, Ht6. subst σ5. exact Ht4.
  - unfold ret in Hrun. by simplify_eq.
Qed.


Lemma invoke_process_with_tracker self l t op' aa ak σ :
  invoke_process self l (Some t) op' aa ak σ
  = invoke_with_tracker self l t (default [] aa) (default ∅ ak)
      (default (output_processor self) op') (set_context_element (Some l) σ).
Proof. unfold invoke_process, obtain_tracker. by unfold bind, modify, ret. Qed.

Lemma invoke_with_tracker_residual self l wv t aa ak op σ r σ' :
  heap σ !! l = Some wv →
  invoke_with_tracker self l t aa ak op σ = (Ok r, σ') →
  threadsafe_restriction_tracker σ' = None ∧
  if is_splittable self
  then ∃ ws, residual_of self t (with_windows wv ws) r σ'
  else r = VNone.
Proof.
  intros Hl Hrun. unfold invoke_with_tracker in Hrun.
  unfold bind at 1 in Hrun. rewrite (deref_Some l σ wv Hl) in Hrun.
  destruct (bool_decide (1 < length (windows wv))%nat && has_windowed_inputs self);
    [done|].
  destruct (restriction_provider_arg_name (process_method (signature self)))
    as [[|c s]|]; [done| |done].
  unfold bind at 1, modify at 1 in Hrun.
  set (σ1 := set_threadsafe_restriction_tracker (Some t) σ) in *.
  unfold bind at 1 in Hrun.
  set (σ2 := (match watermark_estimator self with
              | Some _ => modify (set_ext estimator_reset)
              | None => ret tt
              end σ1).2).
  assert (match watermark_estimator self with
          | Some _ => modify (set_ext estimator_reset)
          | None => ret tt
          end σ1 = (Ok tt, σ2)) as E2
    by (subst σ2; by destruct (watermark_estimator self)).
  assert (heap σ2 = heap σ ∧ threadsafe_restriction_tracker σ2 = Some t)
    as [Hh2 Ht2] by (subst σ2; by destruct (watermark_estimator self)).
  rewrite E2 in Hrun. clearbody σ2.
  unfold try_finally in Hrun. unfold bind at 1, modify at 1 in Hrun.
  set (σ3 := set_current_windowed_value (Some l) σ2) in *.
  destruct (match watermark_estimator self, watermark_estimator_param self with
            | Some _, Some p =>
                Some (<[p := VObject "WatermarkEstimator"]>
                        (<[String c s := VObject "RestrictionTrackerView"]> ak))
            | Some _, None => None
            | None, _ => Some (<[String c s := VObject "RestrictionTrackerView"]> ak)
            end) as [ak'|]; [|unfold raise in Hrun; congruence].
  destruct (_invoke_process_per_window self l aa ak' op σ3) as [res σ4] eqn:Erun.
  injection Hrun as -> <-.
  assert (heap σ3 !! l = Some wv) as Hl3 by (subst σ3; cbn; by rewrite Hh2).
  pose proof (per_window_residual self l wv aa ak' op σ3 r σ4 t Hl3 Ht2 Erun)
    as Hres.
  split; [done|].
  destruct (is_splittable self); [|done].
  destruct Hres as [ws Hres]. exists ws. exact Hres.
Qed.

(** X11: an invocation with a restriction tracker that returns has
    cleared the tracker handle.  For a splittable DoFn the tracker has
    passed [check_done], and the result is [None] when the tracker reports
    no deferred work and otherwise the residual: a new WindowedValue, the
    last object constructed, holding the element, the deferred restriction
    and its size with the timestamp and pane of the element, next to the
    watermark of the estimator and the deferral.  For a DoFn that is not
    splittable the result is [None]. *)
Theorem splittable_invocation_result
    (self : PerWindowInvoker) (l : loc) (wv : WindowedValue) (t : Tracker)
    (op' : option OutputProcessor) (aa : option (list PyVal))
    (ak : option (gmap string PyVal)) (σ : World) (r : PyVal) :
  heap σ !! l = Some wv →
  (invoke_process self l (Some t) op' aa ak σ).1 = Ok r →
  let σ' := (invoke_process self l (Some t) op' aa ak σ).2 in
  threadsafe_restriction_tracker σ' = None ∧
  if is_splittable self
  then
    tracker_check_done t (ext σ') = None ∧
    match tracker_deferred_status t (ext σ') with
    | None => r = VNone
    | Some (deferred_restriction, deferred_watermark) =>
        ∃ h x,
          heap σ' = h ++ [x] ∧
          r = VTuple [VTuple [VWindowedValue (length h);
                              match watermark_estimator self with
                              | Some _ => estimator_current_watermark (ext σ')
                              | None => VNone
                              end];
                      deferred_watermark] ∧
          value x = VTuple [VTuple [value wv; deferred_restriction];
                            restriction_size (value wv) deferred_restriction] ∧
          timestamp x = timestamp wv ∧
          pane_info x = pane_info wv
    end
  else r = VNone.
Proof.
  intros Hl Hok σ'. subst σ'.
  rewrite invoke_process_with_tracker in Hok |- *.
  set (σc := set_context_element (Some l) σ) in *.
  destruct (invoke_with_tracker self l t (default [] aa) (default ∅ ak)
              (default (output_processor self) op') σc) as [res σ'] eqn:Erun.
  simpl in Hok |- *. subst res.
  destruct (invoke_with_tracker_residual self l wv t _ _ _ σc r σ'
              ltac:(done) Erun) as [Hnone Hres].
  split; [done|].
  destruct (is_splittable self); [|done].
  destruct Hres as (ws & Hdone & Hres). split; [done|].
  destruct (tracker_deferred_status t (ext σ')) as [[dr dw]|]; [|done].
  destruct Hres as (h & x & Hh & -> & Hv & Hts & Hp).
  by exists h, x.
Qed.

End Residual.

(** ** Construction of the runner and of the method wrappers *)

Section StatefulRunner.
Context `{External}.

Lemma DoFnSignature_init_Ok d sig :
  DoFnSignature_init d = Ok sig →
  do_fn sig = d ∧ process_method sig = process d ∧
  _is_stateful_dofn sig = is_stateful d.
Proof.
  unfold DoFnSignature_init. destruct (_validate d); simpl; [|done].
  by intros [= <-].
Qed.

(** X13: the runner of a stateful DoFn cannot be constructed without a
    user state context, and when it is constructed its invoker is a
    per-window invoker with windowed inputs that holds the context and
    extracts the key of every element. *)
Theorem stateful_runner_invoker
    (fn : DoFn) (ia : option (list Slot)) (ik : option (gmap string Slot))
    (sis : list SideInputMap) (windowfn : Timestamp → PyVal → list Window)
    (tags : gset string) (step : option string) (counter : bool)
    (usc : option UserStateContext) (σ : World) :
  is_stateful fn = true →
  let out := DoFnRunner_init fn ia ik sis windowfn tags step counter usc σ in
  (usc = None →
   ∃ e, out.1 = Raise e ∧
        (DoFnSignature_init fn = Raise e ∨ exn_class e = Exception)) ∧
  (∀ runner, out.1 = Ok runner →
     ∃ self, do_fn_invoker runner = PerWindow self ∧
             has_windowed_inputs self = true ∧
             is_Some (user_state_context self) ∧
             user_state_context self = usc ∧
             needs_key self = true).
Proof.
  intros Hst out. subst out.
  destruct (DoFnRunner_init fn ia ik sis windowfn tags step counter usc σ)
    as [res σ'] eqn:Erun.
  simpl. unfold DoFnRunner_init in Erun.
  destruct (DoFnSignature_init fn) as [sig|e] eqn:Esig.
  2:{ unfold raise in Erun. simplify_eq. split; [|done].
      intros _. exists e. split; [done|by left]. }
  apply DoFnSignature_init_Ok in Esig as (Hfn & Hpm & Hs).
  unfold is_stateful_dofn in Erun. rewrite Hs, Hst in Erun. cbn [andb] in Erun.
  destruct usc as [usc|].
  2:{ unfold raise in Erun. simpl in Erun. simplify_eq. split; [|done].
      intros _. eexists. split; [done|by right]. }
  rewrite bool_decide_eq_true_2 in Erun by by eexists. cbn [negb] in Erun.
  split; [done|]. intros runner ->.
  unfold create_invoker, use_simple_invoker in Erun.
  unfold is_stateful_dofn in Erun. rewrite Hs, Hst in Erun.
  rewrite !andb_false_r in Erun. cbn [negb orb] in Erun.
  unfold bind at 1 in Erun. unfold bind at 1 in Erun.
  destruct (PerWindowInvoker_init _ sig (default [] (Some sis)) ia ik
              (Some usc) _ σ) as [[self|e] σ1] eqn:Einit; [|done].
  unfold ret in Erun. injection Erun as <- <-.
  destruct (PerWindowInvoker_init_fields _ _ _ _ _ _ _ _ _ _ Einit)
    as (_ & _ & _ & Hw & _ & Hu & _).
  exists self. split_and!; [done| | | |].
  - rewrite Hw. apply compute_has_windowed_inputs_true. right; right.
    unfold is_stateful_dofn. by rewrite Hs.
  - rewrite Hu. by eexists.
  - done.
  - unfold needs_key. rewrite Hu.
    rewrite bool_decide_eq_true_2 by by eexists. done.
Qed.

End StatefulRunner.

Section LastParameter.

(** The four attributes that [MethodWrapper.__init__] sets for restriction
    and watermark-estimator parameters come in pairs, and each pair is that
    of the last such parameter. *)
Lemma last_parameter_fold {A} (sel : Default → option A)
    (l : list (string * Default)) :
  match foldl (λ acc kv, match sel kv.2 with Some p => Some p | None => acc end)
              None l,
        foldl (λ acc kv, match sel kv.2 with Some _ => Some kv.1 | None => acc end)
              None l with
  | None, None => ∀ a d, (a, d) ∈ l → sel d = None
  | Some p, Some a =>
      ∃ d l1 l2, l = l1 ++ (a, d) :: l2 ∧ sel d = Some p ∧
                 ∀ b d', (b, d') ∈ l2 → sel d' = None
  | _, _ => False
  end.
Proof.
  induction l as [|[a d] l IH] using rev_ind.
  - simpl. intros a d Hin. by apply not_elem_of_nil in Hin.
  - rewrite !foldl_app. simpl.
    destruct (sel d) as [p|] eqn:Ed.
    + exists d, l, []. split_and!; [done|done|].
      intros b d' Hin. by apply not_elem_of_nil in Hin.
    + destruct (foldl _ None l) as [p|], (foldl _ None l) as [a'|];
        try done.
      * destruct IH as (d0 & l1 & l2 & -> & Hd0 & Hl2).
        exists d0, l1, (l2 ++ [(a, d)]). split_and!.
        -- by rewrite <- app_assoc.
        -- done.
        -- intros b d' [Hin|Hin]%elem_of_app; [by eapply Hl2|].
           apply list_elem_of_singleton in Hin. by simplify_eq.
      * intros b d' [Hin|Hin]%elem_of_app; [by eapply IH|].
        apply list_elem_of_singleton in Hin. by simplify_eq.
Qed.


Lemma foldl_pointwise {A B} (f g : A → B → A) (l : list B) : ∀ a,
  (∀ a b, f a b = g a b) → foldl f a l = foldl g a l.
Proof.
  induction l as [|b l IH]; intros a Hfg; [done|]. simpl.
  rewrite Hfg. by apply IH.
Qed.

(** X14: [MethodWrapper.__init__] sets the restriction provider and the
    name of its parameter together, from the last parameter whose default
    is a RestrictionParam, and both stay unset when there is none; the same
    holds for the watermark estimator and its parameter. *)
Theorem restriction_parameter_is_last (m : MethodWrapper) :
  match restriction_provider m, restriction_provider_arg_name m with
  | None, None => ∀ a p, (a, RestrictionParam p) ∉ named_defaults m
  | Some p, Some a =>
      ∃ l1 l2, named_defaults m = l1 ++ (a, RestrictionParam p) :: l2 ∧
               ∀ b q, (b, RestrictionParam q) ∉ l2
  | _, _ => False
  end ∧
  match watermark_estimator_of m, watermark_estimator_arg_name m with
  | None, None => ∀ a e, (a, WatermarkEstimatorParam e) ∉ named_defaults m
  | Some e, Some a =>
      ∃ l1 l2, named_defaults m = l1 ++ (a, WatermarkEstimatorParam e) :: l2 ∧
               ∀ b q, (b, WatermarkEstimatorParam q) ∉ l2
  | _, _ => False
  end.
Proof.
  split.
  - set (sel := λ d, match d with RestrictionParam p => Some p | _ => None end).
    pose proof (last_parameter_fold sel (named_defaults m)) as Hl.
    unfold restriction_provider, restriction_provider_arg_name.
    rewrite (foldl_pointwise
               (λ acc kv, match kv.2 with
                          | RestrictionParam p => Some p | _ => acc end)
               (λ acc kv, match sel kv.2 with Some p => Some p | None => acc end))
      by (intros ? [? []]; reflexivity).
    rewrite (foldl_pointwise
               (λ acc kv, match kv.2 with
                          | RestrictionParam _ => Some kv.1 | _ => acc end)
               (λ acc kv, match sel kv.2 with Some _ => Some kv.1 | None => acc end))
      by (intros ? [? []]; reflexivity).
    destruct (foldl _ None (named_defaults m)) as [p|],
             (foldl _ None (named_defaults m)) as [a|]; try done.
    + destruct Hl as (d & l1 & l2 & Hl & Hd & Hl2).
      subst sel. destruct d; try discriminate Hd. injection Hd as ->.
      exists l1, l2. split; [exact Hl|].
      intros b q Hin. by specialize (Hl2 _ _ Hin).
    + intros a p Hin. by specialize (Hl _ _ Hin).
  - set (sel := λ d, match d with
                     | WatermarkEstimatorParam e => Some e | _ => None end).
    pose proof (last_parameter_fold sel (named_defaults m)) as Hl.
    unfold watermark_estimator_of, watermark_estimator_arg_name.
    rewrite (foldl_pointwise
               (λ acc kv, match kv.2 with
                          | WatermarkEstimatorParam e => Some e | _ => acc end)
               (λ acc kv, match sel kv.2 with Some p => Some p | None => acc end))
      by (intros ? [? []]; reflexivity).
    rewrite (foldl_pointwise
               (λ acc kv, match kv.2 with
                          | WatermarkEstimatorParam _ => Some kv.1 | _ => acc end)
               (λ acc kv, match sel kv.2 with Some _ => Some kv.1 | None => acc end))
      by (intros ? [? []]; reflexivity).
    destruct (foldl _ None (named_defaults m)) as [p|],
             (foldl _ None (named_defaults m)) as [a|]; try done.
    + destruct Hl as (d & l1 & l2 & Hl & Hd & Hl2).
      subst sel. destruct d; try discriminate Hd. injection Hd as ->.
      exists l1, l2. split; [exact Hl|].
      intros b q Hin. by specialize (Hl2 _ _ Hin).
    + intros a p Hin. by specialize (Hl _ _ Hin).
Qed.

End LastParameter.

Section Nested.
Context `{External}.

(** X15: a fault is annotated with a step at most once: what has left the
    failure boundary of a runner with a step name passes the boundary of
    any other runner unchanged. *)
Theorem step_annotated_once {A}
    (inner outer : DoFnRunner) (m : M A) (σ : World) :
  truthy (step_name inner) = true →
  try_except (try_except m (_reraise_augmented inner))
    (_reraise_augmented outer) σ
  = try_except m (_reraise_augmented inner) σ.
Proof.
  intros Hstep. unfold try_except at 1.
  destruct (try_except m (_reraise_augmented inner) σ) as [[a|e] σ'] eqn:Erun;
    [done|].
  assert (_tagged_with_step e = true) as Htag.
  { eapply (funnelled_fault_tagged inner m σ); [done|]. by rewrite Erun. }
  unfold _reraise_augmented. by rewrite Htag.
Qed.

End Nested.

(** ** Timers *)

Section TimerProperties.
Context `{External}.
Variable Timestamp_of_seconds : Timestamp → Timestamp.

Lemma set_if_named_lookup name v kw n x :
  set_if_named name v kw !! n = Some x →
  (truthy name = true ∧ name = Some n ∧ x = v) ∨ kw !! n = Some x.
Proof.
  unfold set_if_named. destruct name as [[|c s]|]; [by right| |by right].
  intros Hl. destruct (decide (String c s = n)) as [<-|Hne].
  - rewrite lookup_insert_eq in Hl. left. by simplify_eq.
  - rewrite lookup_insert_ne in Hl by done. by right.
Qed.

Lemma arg_name_fold (P : Default → bool) (l : list (string * Default)) a :
  foldl (λ acc kv, if P kv.2 then Some kv.1 else acc) None l = Some a →
  ∃ d, (a, d) ∈ l ∧ P d = true.
Proof.
  induction l as [|[b d] l IH] using rev_ind; [done|].
  rewrite foldl_app. simpl. destruct (P d) eqn:EP.
  - intros [= <-]. exists d. split; [|done].
    apply elem_of_app. right. by apply list_elem_of_singleton.
  - intros Hf. destruct (IH Hf) as (d' & Hin & HP). exists d'.
    split; [|done]. apply elem_of_app. by left.
Qed.

Lemma dict_fold_lookup (sel : Default → option string)
    (l : list (string * Default)) n spec :
  foldl (λ acc kv, match sel kv.2 with Some s => <[kv.1 := s]> acc | None => acc end)
        (∅ : gmap string string) l !! n = Some spec →
  ∃ d, (n, d) ∈ l ∧ sel d = Some spec.
Proof.
  induction l as [|[b d] l IH] using rev_ind;
    [simpl; by rewrite lookup_empty|].
  rewrite foldl_app. simpl. destruct (sel d) as [s|] eqn:Es.
  - destruct (decide (b = n)) as [->|Hne].
    + rewrite lookup_insert_eq. intros [= ->]. exists d. split; [|done].
      apply elem_of_app. right. by apply list_elem_of_singleton.
    + rewrite lookup_insert_ne by done. intros Hf.
      destruct (IH Hf) as (d' & Hin & Hs). exists d'. split; [|done].
      apply elem_of_app. by left.
  - intros Hf. destruct (IH Hf) as (d' & Hin & Hs). exists d'. split; [|done].
    apply elem_of_app. by left.
Qed.


Lemma state_args_lookup m n spec :
  state_args_to_replace m !! n = Some spec →
  (n, StateParam spec) ∈ named_defaults m.
Proof.
  unfold state_args_to_replace.
  rewrite (foldl_pointwise _
             (λ acc kv, match (match kv.2 with StateParam s => Some s | _ => None end)
                        with Some s => <[kv.1 := s]> acc | None => acc end))
    by (intros ? [? []]; reflexivity).
  intros Hl.
  apply (dict_fold_lookup (λ d, match d with StateParam s => Some s | _ => None end))
    in Hl as (d & Hin & Hd).
  destruct d; by simplify_eq.
Qed.

Lemma timer_args_lookup m n spec :
  timer_args_to_replace m !! n = Some spec →
  (n, TimerParam spec) ∈ named_defaults m.
Proof.
  unfold timer_args_to_replace.
  rewrite (foldl_pointwise _
             (λ acc kv, match (match kv.2 with TimerParam s => Some s | _ => None end)
                        with Some s => <[kv.1 := s]> acc | None => acc end))
    by (intros ? [? []]; reflexivity).
  intros Hl.
  apply (dict_fold_lookup (λ d, match d with TimerParam s => Some s | _ => None end))
    in Hl as (d & Hin & Hd).
  destruct d; by simplify_eq.
Qed.

Lemma timestamp_arg_name_Some m a :
  timestamp_arg_name m = Some a → (a, TimestampParam) ∈ named_defaults m.
Proof.
  unfold timestamp_arg_name.
  rewrite (foldl_pointwise _
             (λ acc kv, if (match kv.2 with TimestampParam => true | _ => false end)
                        then Some kv.1 else acc))
    by (intros ? [? []]; reflexivity).
  intros Hl.
  apply (arg_name_fold (λ d, match d with TimestampParam => true | _ => false end))
    in Hl as (d & Hin & Hd).
  by destruct d.
Qed.

Lemma window_arg_name_Some m a :
  window_arg_name m = Some a → (a, WindowParam) ∈ named_defaults m.
Proof.
  unfold window_arg_name.
  rewrite (foldl_pointwise _
             (λ acc kv, if (match kv.2 with WindowParam => true | _ => false end)
                        then Some kv.1 else acc))
    by (intros ? [? []]; reflexivity).
  intros Hl.
  apply (arg_name_fold (λ d, match d with WindowParam => true | _ => false end))
    in Hl as (d & Hin & Hd).
  by destruct d.
Qed.

Lemma key_arg_name_Some m a :
  key_arg_name m = Some a → (a, KeyParam) ∈ named_defaults m.
Proof.
  unfold key_arg_name.
  rewrite (foldl_pointwise _
             (λ acc kv, if (match kv.2 with KeyParam => true | _ => false end)
                        then Some kv.1 else acc))
    by (intros ? [? []]; reflexivity).
  intros Hl.
  apply (arg_name_fold (λ d, match d with KeyParam => true | _ => false end))
    in Hl as (d & Hin & Hd).
  by destruct d.
Qed.

(** X17: [invoke_timer_callback] passes a timer callback only keyword
    arguments that the callback declares, each holding the value of its
    role: the key, the window, the firing timestamp, or the state or timer
    that the user state context gives for the key and window.  It raises
    AttributeError, and only then, when the callback declares state or
    timer parameters and there is no user state context. *)
Theorem timer_callback_keywords
    (m : MethodWrapper) (usc : option UserStateContext)
    (key : PyVal) (window : Window) (ts : Timestamp) :
  match timer_kwargs Timestamp_of_seconds m usc key window ts with
  | Ok kwargs =>
      (has_userstate_arguments m = true → is_Some usc) ∧
      ∀ n x, kwargs !! n = Some x →
        ∃ d, (n, d) ∈ named_defaults m ∧
          match d with
          | KeyParam => x = key
          | WindowParam => x = VWindow window
          | TimestampParam => x = VTimestamp (Timestamp_of_seconds ts)
          | StateParam spec =>
              ∃ c, usc = Some c ∧ x = get_state c spec key window
          | TimerParam spec =>
              ∃ c, usc = Some c ∧ x = get_timer c spec key window
          | _ => False
          end
  | Raise e =>
      exn_class e = AttributeError ∧ usc = None ∧
      has_userstate_arguments m = true
  end.
Proof.
  unfold timer_kwargs.
  assert (∀ base : gmap string PyVal,
            (∀ n x, base !! n = Some x →
               ∃ d, (n, d) ∈ named_defaults m ∧
                 match d with
                 | KeyParam => x = key
                 | WindowParam => x = VWindow window
                 | TimestampParam => x = VTimestamp (Timestamp_of_seconds ts)
                 | StateParam spec =>
                     ∃ c, usc = Some c ∧ x = get_state c spec key window
                 | TimerParam spec =>
                     ∃ c, usc = Some c ∧ x = get_timer c spec key window
                 | _ => False
                 end) →
            ∀ n x,
              set_if_named (key_arg_name m) key
                (set_if_named (window_arg_name m) (VWindow window)
                   (set_if_named (timestamp_arg_name m)
                      (VTimestamp (Timestamp_of_seconds ts)) base)) !! n
              = Some x →
              ∃ d, (n, d) ∈ named_defaults m ∧
                match d with
                | KeyParam => x = key
                | WindowParam => x = VWindow window
                | TimestampParam => x = VTimestamp (Timestamp_of_seconds ts)
                | StateParam spec =>
                    ∃ c, usc = Some c ∧ x = get_state c spec key window
                | TimerParam spec =>
                    ∃ c, usc = Some c ∧ x = get_timer c spec key window
                | _ => False
                end) as Hnames.
  { intros base Hbase n x Hl.
    apply set_if_named_lookup in Hl as [(_ & Hk & ->)|Hl].
    { exists KeyParam. split; [by apply key_arg_name_Some|done]. }
    apply set_if_named_lookup in Hl as [(_ & Hk & ->)|Hl].
    { exists WindowParam. split; [by apply window_arg_name_Some|done]. }
    apply set_if_named_lookup in Hl as [(_ & Hk & ->)|Hl].
    { exists TimestampParam. split; [by apply timestamp_arg_name_Some|done]. }
    by apply Hbase. }
  destruct (has_userstate_arguments m).
  - destruct usc as [c|].
    + simpl. split; [by eexists|]. apply Hnames. intros n x Hl.
      apply lookup_union_Some_raw in Hl as [Hl|[_ Hl]];
        apply lookup_fmap_Some in Hl as (spec & <- & Hs).
      * exists (TimerParam spec). split; [by apply timer_args_lookup|].
        by exists c.
      * exists (StateParam spec). split; [by apply state_args_lookup|].
        by exists c.
    + by case_decide.
  - simpl. split; [done|]. apply Hnames. intros n x Hl.
    by rewrite lookup_empty in Hl.
Qed.


Lemma invoke_user_timer_outputs inv all spec key window ts cb kwargs items fresh u
    σ res σ' :
  let fired := {| value := VNone; timestamp := ts; windows := [window];
                  pane_info := PANE_INFO_UNKNOWN |} in
  timer_methods (invoker_signature inv) all !! spec = Some cb →
  timer_kwargs Timestamp_of_seconds (timer_method cb)
    (invoker_user_state_context inv) key window ts = Ok kwargs →
  timer_body cb kwargs (heap σ ++ [fired]) (ext σ)
  = (Ok (ResIter items None), fresh, u) →
  forallb plain items = true →
  invoke_user_timer Timestamp_of_seconds inv all spec key window ts σ
  = (res, σ') →
  res = Ok tt ∧
  calls σ' = calls σ ∧
  heap σ'
  = heap σ ++ [fired] ++ fresh ++
    ((λ v, {| value := v; timestamp := ts; windows := [window];
              pane_info := PANE_INFO_UNKNOWN |}) <$> items) ∧
  received σ'
  = received σ ++
    ((λ k, (None, (length (heap σ) + 1 + length fresh + k)%nat))
       <$> seq 0 (length items)).
Proof.
  intros fired Hcb Hkw Hbody Hplain Hrun.
  unfold invoke_user_timer in Hrun. unfold bind at 1, alloc in Hrun.
  fold fired in Hrun. rewrite Hcb in Hrun.
  set (σ1 := set_heap (λ h, h ++ [fired]) σ) in *.
  unfold bind at 1 in Hrun. unfold invoke_timer_callback in Hrun.
  rewrite Hkw in Hrun. unfold call_user in Hrun.
  change (heap σ1) with (heap σ ++ [fired]) in Hrun.
  change (ext σ1) with (ext σ) in Hrun. rewrite Hbody in Hrun.
  set (σ2 := set_ext (λ _, u) (set_heap (λ h, h ++ fresh) σ1)) in *.
  assert (heap σ2 !! length (heap σ) = Some fired) as Hl2.
  { subst σ2 σ1. cbn. rewrite <- app_assoc. by apply list_lookup_middle. }
  unfold process_outputs in Hrun. unfold bind at 1 in Hrun.
  rewrite (process_outputs_loop_plain (invoker_output_processor inv)
             (length (heap σ)) fired items 0 σ2 Hplain Hl2) in Hrun.
  destruct (add_input_frame (invoker_output_processor inv) (0 + length items)
              (set_received
                 (λ r, r ++ ((λ k, (None, (length (heap σ2) + k)%nat))
                               <$> seq 0 (length items)))
                 (set_heap (λ h, h ++ (with_value fired <$> items)) σ2)))
    as (Hh & Hr & Hok).
  pose proof (add_input_keeps calls ltac:(done) (invoker_output_processor inv)
                (0 + length items)
                (set_received
                   (λ r, r ++ ((λ k, (None, (length (heap σ2) + k)%nat))
                                 <$> seq 0 (length items)))
                   (set_heap (λ h, h ++ (with_value fired <$> items)) σ2)))
    as Hc. unfold same in Hc.
  destruct (add_input _ _ _) as [[[]|e] σ3]; simpl in Hok; [|done].
  simplify_eq. simpl in Hh, Hr, Hc. split_and!; [done|done| |].
  - rewrite Hh. subst σ2 σ1. cbn. rewrite <- !app_assoc. done.
  - rewrite Hr. subst σ2 σ1. cbn. rewrite !length_app. simpl.
    f_equal. all: try (apply list_fmap_ext; intros ? k _; do 2 f_equal; lia).
Qed.

(** X18: when a registered timer fires and its callback returns plain
    results, [invoke_user_timer] makes one WindowedValue per result, in the
    firing window alone, with the firing timestamp and the unknown pane,
    and the main receiver gets them in order; [process] is not called. *)
Theorem timer_outputs_in_firing_window
    (inv : DoFnInvoker) (all : gmap string TimerCallback) (spec : string)
    (key : PyVal) (window : Window) (ts : Timestamp)
    (cb : TimerCallback) (kwargs : gmap string PyVal)
    (items : list PyVal) (fresh : list WindowedValue) (u : U) (σ : World) :
  let fired := {| value := VNone; timestamp := ts; windows := [window];
                  pane_info := PANE_INFO_UNKNOWN |} in
  timer_methods (invoker_signature inv) all !! spec = Some cb →
  timer_kwargs Timestamp_of_seconds (timer_method cb)
    (invoker_user_state_context inv) key window ts = Ok kwargs →
  timer_body cb kwargs (heap σ ++ [fired]) (ext σ)
  = (Ok (ResIter items None), fresh, u) →
  forallb plain items = true →
  let out := invoke_user_timer Timestamp_of_seconds inv all spec key window
               ts σ in
  out.1 = Ok tt ∧
  calls out.2 = calls σ ∧
  heap out.2
  = heap σ ++ [fired] ++ fresh ++
    ((λ v, {| value := v; timestamp := ts; windows := [window];
              pane_info := PANE_INFO_UNKNOWN |}) <$> items) ∧
  received out.2
  = received σ ++
    ((λ k, (None, (length (heap σ) + 1 + length fresh + k)%nat))
       <$> seq 0 (length items)).
Proof.
  intros fired Hcb Hkw Hbody Hplain out. subst out.
  destruct (invoke_user_timer Timestamp_of_seconds inv all spec key window ts σ)
    as [res σ'] eqn:Erun.
  exact (invoke_user_timer_outputs inv all spec key window ts cb kwargs items
           fresh u σ res σ' Hcb Hkw Hbody Hplain Erun).
Qed.


(** X16: with a step name, every fault that leaves [process],
    [process_user_timer], [setup], [start], [finish] or [teardown] is
    tagged with the step. *)
Theorem runner_faults_carry_step
    (self : DoFnRunner) (all : gmap string TimerCallback) (spec : string)
    (key : PyVal) (window : Window) (ts : Timestamp) (σ : World) (e : Exn) :
  truthy (step_name self) = true →
  (∀ l, (runner_process self l σ).1 = Raise e → _tagged_with_step e = true) ∧
  ((process_user_timer Timestamp_of_seconds self all spec key window ts σ).1
   = Raise e → _tagged_with_step e = true) ∧
  ((runner_setup self σ).1 = Raise e → _tagged_with_step e = true) ∧
  ((runner_start self σ).1 = Raise e → _tagged_with_step e = true) ∧
  ((runner_finish self σ).1 = Raise e → _tagged_with_step e = true) ∧
  ((runner_teardown self σ).1 = Raise e → _tagged_with_step e = true).
Proof.
  intros Hs. repeat split; intros; by eapply funnelled_fault_tagged.
Qed.

End TimerProperties.

(** ** Existing objects *)

Section ValuesKept.
Context `{External}.
Variable Timestamp_of_seconds : Timestamp → Timestamp.

Lemma values_kept_preorder : PreOrder values_kept.
Proof.
  split.
  - intros σ l wv Hl. exists (windows wv). by rewrite with_windows_same.
  - intros σ1 σ2 σ3 H12 H23 l wv Hl.
    destruct (H12 l wv Hl) as (ws & Hl2).
    destruct (H23 l _ Hl2) as (ws' & Hl3).
    exists ws'. by rewrite Hl3, with_windows_twice.
Qed.

#[local] Existing Instance values_kept_preorder.
#[local] Existing Instance grows_preorder.
#[local] Existing Instance only_windows_of_preorder.

Lemma values_kept_same_heap σ σ' : heap σ' = heap σ → values_kept σ σ'.
Proof.
  intros Hh l wv Hl. exists (windows wv). by rewrite with_windows_same, Hh.
Qed.

Lemma values_kept_grows σ σ' : grows σ σ' → values_kept σ σ'.
Proof.
  intros Hg l wv Hl. exists (windows wv). rewrite with_windows_same.
  by eapply grows_lookup.
Qed.

Lemma values_kept_only_windows L σ σ' : only_windows_of L σ σ' → values_kept σ σ'.
Proof.
  intros Ho l wv Hl. destruct (Ho l wv Hl) as (ws & Hl' & _). by exists ws.
Qed.

Lemma keeps_weaken {A} (R R' : relation World) (m : M A) :
  (∀ σ σ', R σ σ' → R' σ σ') → keeps R m → keeps R' m.
Proof. intros HR Hm σ. apply HR, Hm. Qed.

Lemma keeps_same_heap {A} (m : M A) :
  keeps (same heap) m → keeps values_kept m.
Proof. apply keeps_weaken. intros σ σ'. apply values_kept_same_heap. Qed.

Lemma alloc_kept wv : keeps values_kept (alloc wv).
Proof. eapply keeps_weaken; [apply values_kept_grows|apply alloc_grows]. Qed.

Lemma deref_kept l : keeps values_kept (deref l).
Proof. eapply keeps_weaken; [apply values_kept_grows|apply deref_grows]. Qed.

Lemma call_user_kept {A} (body : Body A) : keeps values_kept (call_user body).
Proof. eapply keeps_weaken; [apply values_kept_grows|apply call_user_grows]. Qed.

Lemma process_outputs_kept op input results :
  keeps values_kept (process_outputs op input results).
Proof.
  eapply keeps_weaken; [apply values_kept_only_windows|].
  apply process_outputs_only_windows.
Qed.

Ltac kept_step :=
  first
    [ apply keeps_ret; apply _
    | apply keeps_raise; apply _
    | apply keeps_get; apply _
    | apply keeps_modify; [intros ?; by apply values_kept_same_heap]
    | apply deref_kept
    | apply alloc_kept
    | apply call_user_kept
    | apply process_outputs_kept
    | apply keeps_bind; [apply _| |intros ?]
    | apply keeps_try_except; [apply _| |intros ?]
    | progress case_match ].

Ltac kept := repeat kept_step.

Lemma call_process_kept sig c : keeps values_kept (call_process sig c).
Proof. unfold call_process. kept. Qed.

Lemma prepare_args_kept self wv aa : keeps values_kept (prepare_args self wv aa).
Proof. unfold prepare_args. kept. Qed.

Lemma extract_key_kept self wv : keeps values_kept (extract_key self wv).
Proof. unfold extract_key. kept. Qed.

Lemma deferred_residual_kept self l : keeps values_kept (deferred_residual self l).
Proof. unfold deferred_residual. kept. Qed.

Lemma _invoke_process_per_window_kept self l aa ak op :
  keeps values_kept (_invoke_process_per_window self l aa ak op).
Proof.
  unfold _invoke_process_per_window.
  apply keeps_bind; [apply _|apply deref_kept|intros wv].
  apply keeps_bind; [apply _|apply prepare_args_kept|intros [[[shared window] a] k]].
  apply keeps_bind; [apply _|apply extract_key_kept|intros key].
  destruct (fill_placeholders _ _ _ _ _ _) as [a' fault].
  apply keeps_bind; [apply _| |intros _].
  { destruct shared; kept. }
  destruct fault; [apply keeps_raise; apply _|].
  apply keeps_bind; [apply _| |intros _].
  { destruct shared; kept. }
  apply keeps_bind; [apply _|apply call_process_kept|intros results].
  apply keeps_bind; [apply _|apply process_outputs_kept|intros _].
  destruct (is_splittable self); [apply deferred_residual_kept|].
  apply keeps_ret; apply _.
Qed.

Lemma invoke_per_window_kept self l ws aa ak op :
  keeps values_kept (invoke_per_window self l ws aa ak op).
Proof.
  induction ws as [|w ws IH]; simpl; [apply keeps_ret; apply _|].
  apply keeps_bind; [apply _|apply deref_kept|intros wv].
  apply keeps_bind; [apply _|apply alloc_kept|intros l'].
  apply keeps_bind; [apply _|apply _invoke_process_per_window_kept|intros _].
  apply IH.
Qed.

Lemma invoke_create_tracker_kept sig r :
  keeps values_kept (invoke_create_tracker sig r).
Proof.
  unfold invoke_create_tracker. case_match; [|apply keeps_raise; apply _].
  intros σ. destruct (create_tracker _ _). by apply values_kept_same_heap.
Qed.

Lemma invoke_with_tracker_kept self l t aa ak op :
  keeps values_kept (invoke_with_tracker self l t aa ak op).
Proof.
  unfold invoke_with_tracker.
  apply keeps_bind; [apply _|apply deref_kept|intros wv].
  case_match; [apply keeps_raise; apply _|].
  destruct (restriction_provider_arg_name _) as [[|c s]|];
    [apply keeps_raise; apply _| |apply keeps_raise; apply _].
  apply keeps_bind; [apply _| |intros _].
  { apply keeps_modify. intros ?. by apply values_kept_same_heap. }
  apply keeps_bind; [apply _| |intros _].
  { destruct (watermark_estimator self); kept. }
  apply keeps_try_finally; [apply _| |intros ?; by apply values_kept_same_heap].
  apply keeps_bind; [apply _| |intros _].
  { apply keeps_modify. intros ?. by apply values_kept_same_heap. }
  repeat case_match; try (apply keeps_raise; apply _);
    apply _invoke_process_per_window_kept.
Qed.

Lemma obtain_tracker_kept self l rt : keeps values_kept (obtain_tracker self l rt).
Proof.
  unfold obtain_tracker. destruct rt as [t|]; [apply keeps_ret; apply _|].
  destruct (is_splittable self); [|apply keeps_ret; apply _].
  apply keeps_bind; [apply _|apply deref_kept|intros wv].
  apply keeps_bind; [apply _| |intros r].
  { unfold invoke_initial_restriction. kept. }
  apply keeps_bind; [apply _|apply invoke_create_tracker_kept|intros t].
  apply keeps_ret; apply _.
Qed.

Lemma invoke_without_tracker_kept self l aa ak op :
  keeps values_kept (invoke_without_tracker self l aa ak op).
Proof.
  unfold invoke_without_tracker.
  apply keeps_bind; [apply _|apply deref_kept|intros wv].
  case_match; (apply keeps_bind; [apply _| |intros; apply keeps_ret; apply _]).
  - apply invoke_per_window_kept.
  - apply _invoke_process_per_window_kept.
Qed.

Lemma invoke_process_kept self l rt op aa ak :
  keeps values_kept (invoke_process self l rt op aa ak).
Proof.
  unfold invoke_process.
  apply keeps_bind; [apply _| |intros _].
  { apply keeps_modify. intros ?. by apply values_kept_same_heap. }
  apply keeps_bind; [apply _|apply obtain_tracker_kept|intros [t|]].
  - apply invoke_with_tracker_kept.
  - apply invoke_without_tracker_kept.
Qed.

Lemma SimpleInvoker_invoke_process_kept op sig l op' :
  keeps values_kept (SimpleInvoker_invoke_process op sig l op').
Proof.
  unfold SimpleInvoker_invoke_process.
  apply keeps_bind; [apply _|apply deref_kept|intros wv].
  apply keeps_bind; [apply _|apply call_process_kept|intros results].
  apply keeps_bind; [apply _|apply process_outputs_kept|intros _].
  apply keeps_ret; apply _.
Qed.

Lemma DoFnInvoker_invoke_process_kept inv l rt :
  keeps values_kept (DoFnInvoker_invoke_process inv l rt).
Proof.
  destruct inv; simpl;
    [apply SimpleInvoker_invoke_process_kept|apply invoke_process_kept].
Qed.

Lemma _reraise_augmented_kept {A} self e :
  keeps values_kept (@_reraise_augmented _ A self e).
Proof. unfold _reraise_augmented. kept. Qed.

Lemma try_split_kept self fraction : keeps values_kept (try_split self fraction).
Proof.
  unfold try_split. apply keeps_bind; [apply _|apply keeps_get; apply _|intros σ0].
  destruct (threadsafe_restriction_tracker σ0) as [t|];
    [|apply keeps_ret; apply _].
  destruct (current_windowed_value σ0) as [c|]; [|apply keeps_ret; apply _].
  apply keeps_bind; [apply _| |intros split].
  { intros σ. unfold do_try_split. destruct (tracker_try_split _ _ _).
    by apply values_kept_same_heap. }
  destruct split as [[primary residual]|]; [|apply keeps_ret; apply _].
  apply keeps_bind; [apply _|apply keeps_get; apply _|intros σ1].
  destruct (current_windowed_value σ1); kept.
Qed.

Lemma finish_bundle_outputs_kept op results :
  keeps values_kept (finish_bundle_outputs op results).
Proof.
  intros σ. apply values_kept_same_heap.
  destruct results as [|items fault]; [done|].
  unfold finish_bundle_outputs, bind.
  destruct (finish_bundle_outputs_loop op items σ) as [[[]|e] σ1] eqn:Erun;
    apply finish_bundle_outputs_loop_trace in Erun as (Hh & _); [|done].
  by destruct fault.
Qed.

Lemma start_bundle_outputs_kept op results :
  keeps values_kept (start_bundle_outputs op results).
Proof. unfold start_bundle_outputs. kept. Qed.

Lemma invoke_user_timer_kept inv all spec key window ts :
  keeps values_kept
    (invoke_user_timer Timestamp_of_seconds inv all spec key window ts).
Proof.
  unfold invoke_user_timer.
  apply keeps_bind; [apply _|apply alloc_kept|intros l].
  destruct (_ !! spec) as [cb|]; [|apply keeps_raise; apply _].
  apply keeps_bind; [apply _| |intros results; apply process_outputs_kept].
  unfold invoke_timer_callback. kept.
Qed.

Lemma runner_process_kept self l : keeps values_kept (runner_process self l).
Proof.
  unfold runner_process.
  apply keeps_try_except;
    [apply _|apply DoFnInvoker_invoke_process_kept
    |intros e; apply _reraise_augmented_kept].
Qed.

(** X20: no entry point of the runner changes the value, the timestamp or
    the pane of a WindowedValue object that exists, nor removes one; it can
    only rewrite windows and construct new objects (the methods of the DoFn
    construct objects and do nothing else to the store). *)
Theorem runner_keeps_values
    (self : DoFnRunner) (windowed_value : loc) (fraction : PyVal)
    (all : gmap string TimerCallback) (spec : string) (key : PyVal)
    (window : Window) (ts : Timestamp) :
  keeps values_kept (runner_process self windowed_value) ∧
  keeps values_kept (process_with_sized_restriction self windowed_value) ∧
  keeps values_kept (runner_try_split self fraction) ∧
  keeps values_kept (runner_current_element_progress self) ∧
  keeps values_kept
    (process_user_timer Timestamp_of_seconds self all spec key window ts) ∧
  keeps values_kept (runner_setup self) ∧
  keeps values_kept (runner_start self) ∧
  keeps values_kept (runner_finish self) ∧
  keeps values_kept (runner_teardown self).
Proof.
  split_and!.
  - apply runner_process_kept.
  - unfold process_with_sized_restriction.
    apply keeps_bind; [apply _|apply deref_kept|intros wv].
    apply keeps_bind; [apply _| |intros [element restriction]].
    { unfold unpack_sized. kept. }
    apply keeps_bind; [apply _|apply deref_kept|intros wv'].
    apply keeps_bind; [apply _|apply alloc_kept|intros l].
    apply keeps_bind; [apply _|apply invoke_create_tracker_kept|intros t].
    apply DoFnInvoker_invoke_process_kept.
  - unfold runner_try_split.
    destruct (do_fn_invoker self); [apply keeps_raise; apply _|].
    apply try_split_kept.
  - unfold runner_current_element_progress.
    destruct (do_fn_invoker self); [apply keeps_raise; apply _|].
    unfold current_element_progress. kept.
  - unfold process_user_timer.
    apply keeps_try_except;
      [apply _|apply invoke_user_timer_kept
      |intros e; apply _reraise_augmented_kept].
  - unfold runner_setup, _invoke_lifecycle_method, invoke_setup.
    apply keeps_try_except; [apply _| |intros e; apply _reraise_augmented_kept].
    kept.
  - unfold runner_start, _invoke_bundle_method, invoke_start_bundle.
    apply keeps_try_except; [apply _| |intros e; apply _reraise_augmented_kept].
    apply keeps_bind; [apply _| |intros _].
    { apply keeps_modify. intros ?. by apply values_kept_same_heap. }
    apply keeps_bind; [apply _|apply call_user_kept|intros results].
    apply start_bundle_outputs_kept.
  - unfold runner_finish, _invoke_bundle_method, invoke_finish_bundle.
    apply keeps_try_except; [apply _| |intros e; apply _reraise_augmented_kept].
    apply keeps_bind; [apply _| |intros _].
    { apply keeps_modify. intros ?. by apply values_kept_same_heap. }
    apply keeps_bind; [apply _|apply call_user_kept|intros results].
    apply finish_bundle_outputs_kept.
  - unfold runner_teardown, _invoke_lifecycle_method, invoke_teardown.
    apply keeps_try_except; [apply _| |intros e; apply _reraise_augmented_kept].
    kept.
Qed.

End ValuesKept.

(** ** The argument template *)

Section Template.
Context `{External}.

Lemma placeholders_from_elem template : ∀ n i p,
  (i, p) ∈ placeholders_from n template →
  ∃ j, i = (n + j)%nat ∧ template !! j = Some (ArgPlaceholder p).
Proof.
  induction template as [|x rest IH]; intros n i p Hin.
  - by apply not_elem_of_nil in Hin.
  - destruct x as [v|d|]; simpl in Hin.
    + destruct (IH _ _ _ Hin) as (j & -> & Hj). exists (S j). split; [lia|done].
    + apply elem_of_cons in Hin as [[= -> ->]|Hin].
      * exists 0%nat. split; [lia|done].
      * destruct (IH _ _ _ Hin) as (j & -> & Hj). exists (S j). split; [lia|done].
    + destruct (IH _ _ _ Hin) as (j & -> & Hj). exists (S j). split; [lia|done].
Qed.


Lemma fill_defaults_total named kw : ∀ acc remaining key,
  (∀ a, (a, SideInputParam) ∉ named) →
  ∃ t r k, fill_defaults named kw acc remaining key = Ok (t, r, k).
Proof.
  induction named as [|[a d] named IH]; intros acc remaining key Hno.
  - simpl. by eexists _, _, _.
  - assert (∀ a', (a', SideInputParam) ∉ named) as Hno'.
    { intros a' Hin. apply (Hno a'). by apply elem_of_cons; right. }
    simpl. destruct d; try apply (IH _ _ _ Hno');
      try (destruct remaining; apply (IH _ _ _ Hno')).
    destruct (Hno a). by apply elem_of_cons; left.
Qed.




End Template.

(** ** Attributes that an invocation never touches *)

Section InvokeFrame.
Context `{External} {A : Type} (f : World → A).
Hypothesis f_heap : ∀ g σ, f (set_heap g σ) = f σ.
Hypothesis f_received : ∀ g σ, f (set_received g σ) = f σ.
Hypothesis f_counter : ∀ g σ, f (set_counter_inputs g σ) = f σ.
Hypothesis f_calls : ∀ g σ, f (set_calls g σ) = f σ.
Hypothesis f_ext : ∀ g σ, f (set_ext g σ) = f σ.
Hypothesis f_handle : ∀ x σ, f (set_threadsafe_restriction_tracker x σ) = f σ.
Hypothesis f_current : ∀ x σ, f (set_current_windowed_value x σ) = f σ.
Hypothesis f_cache : ∀ x σ, f (set_cache_globally_windowed_args x σ) = f σ.
Hypothesis f_args : ∀ x σ, f (set_args_for_process x σ) = f σ.
Hypothesis f_kwargs : ∀ x σ, f (set_kwargs_for_process x σ) = f σ.

Lemma call_user_keeps {B} (body : Body B) : keeps (same f) (call_user body).
Proof.
  intros σ. unfold call_user, same. destruct (body _ _) as [[r fresh] u]. simpl.
  by rewrite f_ext, f_heap.
Qed.

Ltac frame_step :=
  first
    [ apply keeps_ret; apply _
    | apply keeps_raise; apply _
    | apply keeps_get; apply _
    | apply keeps_modify; [intros ?; unfold same; done]
    | apply deref_keeps
    | apply alloc_keeps; assumption
    | apply call_user_keeps
    | apply process_outputs_keeps; assumption
    | apply keeps_bind; [apply _| |intros ?]
    | progress case_match ].

Ltac frame := repeat frame_step.

Lemma call_process_keeps sig c : keeps (same f) (call_process sig c).
Proof. unfold call_process. frame. Qed.

Lemma prepare_args_keeps self wv aa : keeps (same f) (prepare_args self wv aa).
Proof. unfold prepare_args. frame. Qed.

Lemma extract_key_keeps self wv : keeps (same f) (extract_key self wv).
Proof. unfold extract_key. frame. Qed.

Lemma deferred_residual_keeps self l : keeps (same f) (deferred_residual self l).
Proof. unfold deferred_residual. frame. Qed.

Lemma _invoke_process_per_window_keeps self l aa ak op :
  keeps (same f) (_invoke_process_per_window self l aa ak op).
Proof.
  unfold _invoke_process_per_window.
  apply keeps_bind; [apply _|apply deref_keeps|intros wv].
  apply keeps_bind; [apply _|apply prepare_args_keeps|intros [[[shared window] a] k]].
  apply keeps_bind; [apply _|apply extract_key_keeps|intros key].
  destruct (fill_placeholders _ _ _ _ _ _) as [a' fault].
  apply keeps_bind; [apply _| |intros _].
  { destruct shared; frame. }
  destruct fault; [apply keeps_raise; apply _|].
  apply keeps_bind; [apply _| |intros _].
  { destruct shared; frame. }
  apply keeps_bind; [apply _|apply call_process_keeps|intros results].
  apply keeps_bind; [apply _|by apply process_outputs_keeps|intros _].
  destruct (is_splittable self); [apply deferred_residual_keeps|].
  apply keeps_ret; apply _.
Qed.

Lemma invoke_per_window_keeps self l ws aa ak op :
  keeps (same f) (invoke_per_window self l ws aa ak op).
Proof.
  induction ws as [|w ws IH]; simpl; [apply keeps_ret; apply _|].
  apply keeps_bind; [apply _|apply deref_keeps|intros wv].
  apply keeps_bind; [apply _|by apply alloc_keeps|intros l'].
  apply keeps_bind; [apply _|apply _invoke_process_per_window_keeps|intros _].
  apply IH.
Qed.

Lemma invoke_create_tracker_keeps sig r :
  keeps (same f) (invoke_create_tracker sig r).
Proof.
  unfold invoke_create_tracker. case_match; [|apply keeps_raise; apply _].
  intros σ. unfold same. destruct (create_tracker _ _). simpl. by rewrite f_ext.
Qed.

Lemma invoke_with_tracker_keeps self l t aa ak op :
  keeps (same f) (invoke_with_tracker self l t aa ak op).
Proof.
  unfold invoke_with_tracker.
  apply keeps_bind; [apply _|apply deref_keeps|intros wv].
  case_match; [apply keeps_raise; apply _|].
  destruct (restriction_provider_arg_name _) as [[|c s]|];
    [apply keeps_raise; apply _| |apply keeps_raise; apply _].
  apply keeps_bind; [apply _| |intros _].
  { apply keeps_modify. intros ?. unfold same. done. }
  apply keeps_bind; [apply _| |intros _].
  { destruct (watermark_estimator self); frame. }
  apply keeps_try_finally; [apply _| |].
  2:{ intros ?. unfold same. by rewrite f_current, f_handle. }
  apply keeps_bind; [apply _| |intros _].
  { apply keeps_modify. intros ?. unfold same. done. }
  repeat case_match; try (apply keeps_raise; apply _);
    apply _invoke_process_per_window_keeps.
Qed.

Lemma obtain_tracker_keeps self l rt : keeps (same f) (obtain_tracker self l rt).
Proof.
  unfold obtain_tracker. destruct rt as [t|]; [apply keeps_ret; apply _|].
  destruct (is_splittable self); [|apply keeps_ret; apply _].
  apply keeps_bind; [apply _|apply deref_keeps|intros wv].
  apply keeps_bind; [apply _| |intros r].
  { unfold invoke_initial_restriction. frame. }
  apply keeps_bind; [apply _|apply invoke_create_tracker_keeps|intros t].
  apply keeps_ret; apply _.
Qed.

Lemma invoke_without_tracker_keeps self l aa ak op :
  keeps (same f) (invoke_without_tracker self l aa ak op).
Proof.
  unfold invoke_without_tracker.
  apply keeps_bind; [apply _|apply deref_keeps|intros wv].
  case_match; (apply keeps_bind; [apply _| |intros; apply keeps_ret; apply _]).
  - apply invoke_per_window_keeps.
  - apply _invoke_process_per_window_keeps.
Qed.

Lemma finish_bundle_outputs_keeps op results :
  keeps (same f) (finish_bundle_outputs op results).
Proof.
  unfold finish_bundle_outputs. destruct results as [|items fault];
    [apply keeps_ret; apply _|].
  apply keeps_bind; [apply _| |intros _; frame].
  induction items as [|item rest IH]; simpl; [apply keeps_ret; apply _|].
  apply keeps_bind; [apply _|apply unwrap_tag_keeps|intros [tag inner]].
  apply keeps_bind; [apply _| |intros l].
  { destruct inner; frame. }
  apply keeps_bind; [apply _|by apply dispatch_keeps|intros _].
  apply IH.
Qed.

End InvokeFrame.

Section ContextProperties.
Context `{External}.

#[local] Existing Instance values_kept_preorder.

Lemma invoke_process_context self l rt op' aa ak σ :
  context_element (invoke_process self l rt op' aa ak σ).2 = Some l.
Proof.
  unfold invoke_process. unfold bind at 1, modify at 1.
  set (σ0 := set_context_element (Some l) σ).
  assert (context_element σ0 = Some l) as H0 by done. clearbody σ0.
  unfold bind at 1.
  assert (keeps (same context_element) (obtain_tracker self l rt)) as Hk
    by (apply obtain_tracker_keeps; done).
  specialize (Hk σ0). unfold same in Hk.
  destruct (obtain_tracker self l rt σ0) as [[rt'|e] σ1]; simpl in *;
    [|congruence].
  destruct rt' as [t|].
  - assert (keeps (same context_element)
              (invoke_with_tracker self l t (default [] aa) (default ∅ ak)
                 (default (output_processor self) op'))) as Hk'
      by (apply invoke_with_tracker_keeps; done).
    specialize (Hk' σ1). unfold same in Hk'. congruence.
  - assert (keeps (same context_element)
              (invoke_without_tracker self l (default [] aa) (default ∅ ak)
                 (default (output_processor self) op'))) as Hk'
      by (apply invoke_without_tracker_keeps; done).
    specialize (Hk' σ1). unfold same in Hk'. congruence.
Qed.

Lemma context_accessors σ l wv :
  context_element σ = Some l → heap σ !! l = Some wv →
  DoFnContext_element σ = (Ok (value wv), σ) ∧
  DoFnContext_timestamp σ = (Ok (timestamp wv), σ) ∧
  DoFnContext_windows σ = (Ok (windows wv), σ).
Proof.
  intros Hc Hl.
  unfold DoFnContext_element, DoFnContext_timestamp, DoFnContext_windows.
  unfold bind at 1 3 5, get. rewrite Hc. unfold bind.
  by rewrite (deref_Some l σ wv Hl).
Qed.

Lemma context_accessors_None σ :
  context_element σ = None →
  (∃ e, DoFnContext_element σ = (Raise e, σ) ∧ exn_class e = AttributeError) ∧
  (∃ e, DoFnContext_timestamp σ = (Raise e, σ) ∧ exn_class e = AttributeError) ∧
  (∃ e, DoFnContext_windows σ = (Raise e, σ) ∧ exn_class e = AttributeError).
Proof.
  intros Hc.
  unfold DoFnContext_element, DoFnContext_timestamp, DoFnContext_windows.
  unfold bind, get. rewrite Hc. unfold raise.
  split_and!; by eexists.
Qed.

(** X21: while and after a runner with a per-window invoker processes the
    element [l], the DoFnContext refers to that element, also when the
    element was exploded into its windows and whether [process] returned or
    raised: [element] and [timestamp] give its value and timestamp, and
    [windows] is accessible. *)
Theorem context_holds_processed_element
    (self : DoFnRunner) (inv : PerWindowInvoker) (l : loc) (wv : WindowedValue)
    (σ : World) :
  do_fn_invoker self = PerWindow inv →
  heap σ !! l = Some wv →
  let σ' := (runner_process self l σ).2 in
  context_element σ' = Some l ∧
  (DoFnContext_element σ').1 = Ok (value wv) ∧
  (DoFnContext_timestamp σ').1 = Ok (timestamp wv) ∧
  ∃ ws, (DoFnContext_windows σ').1 = Ok ws.
Proof.
  intros Hinv Hl σ'.
  assert (context_element σ' = Some l) as Hc.
  { subst σ'. unfold runner_process, try_except. rewrite Hinv. simpl.
    pose proof (invoke_process_context inv l None None None None σ) as Hc.
    destruct (invoke_process inv l None None None None σ) as [[r|e] σ1];
      simpl in Hc; [done|].
    destruct (_reraise_augmented_raises (A:=PyVal) self e σ1) as (e' & -> & _).
    done. }
  destruct (runner_process_kept self l σ l wv Hl) as (ws & Hl').
  fold σ' in Hl'.
  destruct (context_accessors σ' l _ Hc Hl') as (He & Ht & Hw).
  rewrite He, Ht, Hw. split_and!; [done|done|done|by eexists].
Qed.

Lemma bundle_method_context (self : DoFnRunner) (m : M unit) σ :
  keeps (same context_element) m →
  context_element (_invoke_bundle_method self m σ).2 = None.
Proof.
  intros Hm. unfold _invoke_bundle_method, try_except.
  unfold bind at 1, modify at 1.
  specialize (Hm (set_context_element None σ)). unfold same in Hm.
  destruct (m (set_context_element None σ)) as [[[]|e] σ1]; simpl in Hm;
    [done|].
  by destruct (_reraise_augmented_raises (A:=unit) self e σ1) as (e' & -> & _).
Qed.

(** X22: [setup], [start], [finish] and [teardown] leave the context
    without an element, whether they return or raise: afterwards the
    properties [element], [timestamp] and [windows] of the DoFnContext each
    raise AttributeError. *)
Theorem context_cleared_outside_elements (self : DoFnRunner) (σ : World) :
  let cleared := λ σ' : World,
    context_element σ' = None ∧
    (∃ e, DoFnContext_element σ' = (Raise e, σ') ∧
          exn_class e = AttributeError) ∧
    (∃ e, DoFnContext_timestamp σ' = (Raise e, σ') ∧
          exn_class e = AttributeError) ∧
    (∃ e, DoFnContext_windows σ' = (Raise e, σ') ∧
          exn_class e = AttributeError) in
  cleared (runner_setup self σ).2 ∧ cleared (runner_start self σ).2 ∧
  cleared (runner_finish self σ).2 ∧ cleared (runner_teardown self σ).2.
Proof.
  intros cleared.
  assert (∀ σ', context_element σ' = None → cleared σ') as Hcleared.
  { intros σ' Hc. split; [done|]. by apply context_accessors_None. }
  split_and!; apply Hcleared.
  - apply bundle_method_context. unfold invoke_setup.
    apply call_user_keeps; done.
  - apply bundle_method_context. unfold invoke_start_bundle.
    apply keeps_bind; [apply _|apply call_user_keeps; done|intros results].
    unfold start_bundle_outputs.
    destruct results; [apply keeps_ret|apply keeps_raise]; apply _.
  - apply bundle_method_context. unfold invoke_finish_bundle.
    apply keeps_bind; [apply _|apply call_user_keeps; done|intros results].
    apply finish_bundle_outputs_keeps; done.
  - apply bundle_method_context. unfold invoke_teardown.
    apply call_user_keeps; done.
Qed.

End ContextProperties.

(** ** One call for every window *)

Section EveryWindow.
Context `{External}.

#[local] Existing Instance values_kept_preorder.




End EveryWindow.

(** ** Splittable DoFns *)

Section InitialRestriction.
Context `{External}.

(** X24: invoking a splittable DoFn without a restriction tracker is
    invoking it with the tracker that the restriction provider creates for
    the initial restriction of the element. *)
Theorem splittable_without_tracker
    (self : PerWindowInvoker) (l : loc) (wv : WindowedValue)
    (op' : option OutputProcessor) (aa : option (list PyVal))
    (ak : option (gmap string PyVal)) (σ : World) :
  is_splittable self = true →
  is_splittable_dofn (signature self) = true →
  heap σ !! l = Some wv →
  let made := create_tracker (initial_restriction (value wv)) (ext σ) in
  invoke_process self l None op' aa ak σ
  = invoke_process self l (Some made.1) op' aa ak (set_ext (λ _, made.2) σ).
Proof.
  intros Hs Hsig Hl made. subst made.
  unfold invoke_process. unfold bind at 1 3. unfold modify at 1 2.
  set (σc := set_context_element (Some l) σ).
  assert (heap σc !! l = Some wv) as Hlc by done.
  unfold bind at 1 2. unfold obtain_tracker. rewrite Hs.
  unfold bind at 1. rewrite (deref_Some l σc wv Hlc).
  unfold invoke_initial_restriction, invoke_create_tracker.
  unfold is_splittable_dofn in Hsig. apply bool_decide_eq_true in Hsig.
  destruct (get_restriction_provider (signature self)) as [p|]; [|done].
  unfold bind, ret. change (ext σc) with (ext σ).
  by destruct (create_tracker (initial_restriction (value wv)) (ext σ)).
Qed.



End InitialRestriction.

(** ** The width of the argument template *)

Section TemplateWidth.
Context `{External}.

Lemma fill_placeholders_length self wv key window ps : ∀ a,
  length (fill_placeholders self wv key window ps a).1 = length a.
Proof.
  induction ps as [|[i p] ps IH]; intros a; [done|]. simpl.
  destruct (placeholder_value self wv key window p) as [[v|]|e]; [| |done].
  - case_decide; [|done]. by rewrite IH, length_insert.
  - apply IH.
Qed.

Lemma fill_placeholders_fault self wv key window ps : ∀ a a' e,
  (∀ i p, (i, p) ∈ ps → (i < length a)%nat) →
  fill_placeholders self wv key window ps a = (a', Some e) →
  ∃ i p, (i, p) ∈ ps ∧ placeholder_value self wv key window p = Raise e.
Proof.
  induction ps as [|[i p] ps IH]; intros a a' e Hfit Hfill; [done|].
  simpl in Hfill.
  destruct (placeholder_value self wv key window p) as [[v|]|ex] eqn:Ev.
  - case_decide as Hlt.
    + destruct (IH (<[i:=Filled v]> a) a' e) as (j & q & Hin & Hq); [|done|].
      * intros j q Hin. rewrite length_insert. apply (Hfit j q).
        by apply elem_of_cons; right.
      * exists j, q. split; [by apply elem_of_cons; right|done].
    + destruct Hlt. apply (Hfit i p). by apply elem_of_cons; left.
  - destruct (IH a a' e) as (j & q & Hin & Hq); [|done|].
    + intros j q Hin. apply (Hfit j q). by apply elem_of_cons; right.
    + exists j, q. split; [by apply elem_of_cons; right|done].
  - injection Hfill as _ <-. exists i, p. split; [by apply elem_of_cons; left|done].
Qed.

Lemma prepare_args_width self wv aa σ res σ' :
  prepare_args self wv aa σ = (res, σ') →
  template_width σ' = template_width σ ∧
  match res with
  | Ok (_, _, a, _) => length a = template_width σ
  | Raise _ => True
  end.
Proof.
  unfold prepare_args, template_width. unfold bind at 1, get.
  destruct (has_windowed_inputs self).
  - destruct (windows wv) as [|w [|w' ws]]; unfold raise;
      try (by intros [= <- <-]).
    destruct (insert_values_in_args _ _ _) as [[a k]|] eqn:Ei; unfold ret, raise;
      intros [= <- <-]; [|done].
    split; [done|]. by eapply insert_values_in_args_length.
  - destruct (cache_globally_windowed_args σ).
    + unfold bind at 1, modify at 1.
      destruct (insert_values_in_args _ _ _) as [[a k]|] eqn:Ei; unfold raise.
      * unfold bind, modify, ret. intros [= <- <-]. cbn.
        apply insert_values_in_args_length in Ei. done.
      * by intros [= <- <-].
    + unfold ret. by intros [= <- <-].
Qed.

Lemma _invoke_process_per_window_width self l aa ak op :
  keeps (same template_width) (_invoke_process_per_window self l aa ak op).
Proof.
  intros σ. unfold same.
  destruct (_invoke_process_per_window self l aa ak op σ) as [res σ'] eqn:Hrun.
  simpl. unfold _invoke_process_per_window in Hrun. unfold bind at 1 in Hrun.
  destruct (deref l σ) as [[wv|e] σ0] eqn:Ed;
    (pose proof (deref_world l σ) as Hw0; rewrite Ed in Hw0; simpl in Hw0;
     subst σ0); [|by simplify_eq].
  unfold bind at 1 in Hrun.
  destruct (prepare_args self wv aa σ) as [[[[[shared window] a] k]|ex] σ1]
    eqn:Ep; apply prepare_args_width in Ep as [Hw1 Ha]; [|by simplify_eq].
  unfold bind at 1 in Hrun.
  destruct (extract_key self wv σ1) as [[key|ex] σ2] eqn:Ek;
    apply extract_key_spec in Ek as [-> _]; [|by simplify_eq].
  pose proof (fill_placeholders_length self wv key window (placeholders self) a)
    as Hlen.
  destruct (fill_placeholders self wv key window (placeholders self) a)
    as [a' fault].
  simpl in Hlen.
  unfold bind at 1 in Hrun.
  set (σ3 := ((if shared then modify (set_args_for_process a') else ret tt) σ1).2).
  assert ((if shared then modify (set_args_for_process a') else ret tt) σ1
          = (Ok tt, σ3)) as E3 by (subst σ3; by destruct shared).
  assert (template_width σ3 = template_width σ) as Hw3.
  { subst σ3. unfold template_width in *.
    destruct shared; simpl; [|done]. congruence. }
  rewrite E3 in Hrun. clearbody σ3.
  destruct fault as [ef|]; [unfold raise in Hrun; by simplify_eq|].
  unfold bind at 1 in Hrun.
  set (σ4 := ((if shared
               then modify (set_kwargs_for_process ((Filled <$> ak) ∪ k))
               else ret tt) σ3).2).
  assert ((if shared
           then modify (set_kwargs_for_process ((Filled <$> ak) ∪ k))
           else ret tt) σ3 = (Ok tt, σ4)) as E4
    by (subst σ4; by destruct shared).
  assert (template_width σ4 = template_width σ) as Hw4.
  { subst σ4. unfold template_width in *.
    destruct shared; simpl; [|done]. exact Hw3. }
  rewrite E4 in Hrun. clearbody σ4.
  unfold bind at 1 in Hrun.
  assert (keeps (same template_width) (call_process (signature self)
            {| call_args := slot_value <$> a';
               call_kwargs := slot_value <$> (Filled <$> ak) ∪ k |})) as Hcp
    by (apply call_process_keeps; done).
  specialize (Hcp σ4). unfold same in Hcp.
  destruct (call_process _ _ σ4) as [[results|ec] σ5]; simpl in Hcp;
    [|simplify_eq; congruence].
  unfold bind at 1 in Hrun.
  assert (keeps (same template_width) (process_outputs op (Some l) results))
    as Hpo
    by (apply process_outputs_keeps; done).
  specialize (Hpo σ5). unfold same in Hpo.
  destruct (process_outputs op (Some l) results σ5) as [[[]|ep] σ6];
    simpl in Hpo; [|simplify_eq; congruence].
  destruct (is_splittable self).
  - assert (keeps (same template_width) (deferred_residual self l)) as Hdr
      by (apply deferred_residual_keeps; done).
    specialize (Hdr σ6). unfold same in Hdr. rewrite Hrun in Hdr. simpl in Hdr.
    congruence.
  - unfold ret in Hrun. simplify_eq. congruence.
Qed.

Lemma invoke_per_window_width self l ws aa ak op :
  keeps (same template_width) (invoke_per_window self l ws aa ak op).
Proof.
  induction ws as [|w ws IH]; simpl; [apply keeps_ret; apply _|].
  apply keeps_bind; [apply _|apply deref_keeps|intros wv].
  apply keeps_bind; [apply _|by apply alloc_keeps|intros l'].
  apply keeps_bind; [apply _|apply _invoke_process_per_window_width|intros _].
  apply IH.
Qed.

Lemma invoke_process_width self l rt op' aa ak :
  keeps (same template_width) (invoke_process self l rt op' aa ak).
Proof.
  unfold invoke_process.
  apply keeps_bind; [apply _| |intros _].
  { apply keeps_modify. by intros ?. }
  apply keeps_bind; [apply _|by apply obtain_tracker_keeps|intros [t|]].
  - unfold invoke_with_tracker.
    apply keeps_bind; [apply _|apply deref_keeps|intros wv].
    case_match; [apply keeps_raise; apply _|].
    destruct (restriction_provider_arg_name _) as [[|c s]|];
      [apply keeps_raise; apply _| |apply keeps_raise; apply _].
    apply keeps_bind; [apply _| |intros _].
    { apply keeps_modify. by intros ?. }
    apply keeps_bind; [apply _| |intros _].
    { destruct (watermark_estimator self);
        [apply keeps_modify; by intros ?|apply keeps_ret; apply _]. }
    apply keeps_try_finally; [apply _| |by intros ?].
    apply keeps_bind; [apply _| |intros _].
    { apply keeps_modify. by intros ?. }
    repeat case_match; try (apply keeps_raise; apply _);
      apply _invoke_process_per_window_width.
  - unfold invoke_without_tracker.
    apply keeps_bind; [apply _|apply deref_keeps|intros wv].
    case_match; (apply keeps_bind; [apply _| |intros; apply keeps_ret; apply _]).
    + apply invoke_per_window_width.
    + apply _invoke_process_per_window_width.
Qed.

Lemma PerWindowInvoker_init_args
    op sig sis ia ik usc bfp (σ σ' : World) (self : PerWindowInvoker) :
  PerWindowInvoker_init op sig sis ia ik usc bfp σ = (Ok self, σ') →
  placeholders self = placeholders_from 0 (args_for_process σ').
Proof.
  unfold PerWindowInvoker_init.
  destruct (bool_decide _); cbv zeta;
    (destruct (fill_defaults _ _ _ _ _) as [[[t r] k]|e];
     [|unfold raise; congruence]);
    unfold bind, modify, ret; by intros [= <- <-].
Qed.

(** X26: the argument template of a per-window invoker always has room for
    every placeholder: [__init__] makes it so and no invocation changes
    the number of its slots, although an invoker without windowed inputs
    fills the template in place.  Hence the loop that fills the
    placeholders can fail only where the value of a parameter cannot be
    determined, never on the index of a slot. *)
Theorem template_always_fits
    (op : OutputProcessor) (sig : DoFnSignature) (sis : list SideInputMap)
    (ia : option (list Slot)) (ik : option (gmap string Slot))
    (usc : option UserStateContext) (bfp : PyVal) (σ0 : World) :
  match PerWindowInvoker_init op sig sis ia ik usc bfp σ0 with
  | (Ok self, σ1) =>
      template_fits self σ1 ∧
      (∀ l rt op' aa ak σ,
         template_fits self σ →
         template_fits self (invoke_process self l rt op' aa ak σ).2) ∧
      (∀ wv key window σ a a' e,
         template_fits self σ →
         length a = template_width σ →
         fill_placeholders self wv key window (placeholders self) a
         = (a', Some e) →
         ∃ i p, (i, p) ∈ placeholders self ∧
                placeholder_value self wv key window p = Raise e)
  | (Raise _, _) => True
  end.
Proof.
  destruct (PerWindowInvoker_init op sig sis ia ik usc bfp σ0)
    as [[self|e] σ1] eqn:Einit; [|done].
  apply PerWindowInvoker_init_args in Einit.
  split_and!.
  - intros i p Hin. rewrite Einit in Hin.
    apply placeholders_from_elem in Hin as (j & -> & Hj).
    unfold template_width. by apply lookup_lt_Some in Hj.
  - intros l rt op' aa ak σ Hfit i p Hin.
    pose proof (invoke_process_width self l rt op' aa ak σ) as Hw.
    unfold same, template_width in Hw. unfold template_width. rewrite Hw.
    by apply (Hfit i p).
  - intros wv key window σ a a' e Hfit Ha Hfill.
    eapply fill_placeholders_fault; [|exact Hfill].
    intros i p Hin. rewrite Ha. by apply (Hfit i p).
Qed.

End TemplateWidth.

(** ** Bundle and lifecycle methods *)

Section Lifecycle.
Context `{External}.

Lemma bundle_method_keeps {A} (f : World → A) (self : DoFnRunner) (m : M unit) :
  (∀ x σ, f (set_context_element x σ) = f σ) →
  keeps (same f) m → keeps (same f) (_invoke_bundle_method self m).
Proof.
  intros Hf Hm. unfold _invoke_bundle_method.
  apply keeps_try_except; [apply _| |].
  - apply keeps_bind; [apply _| |intros _; exact Hm].
    apply keeps_modify. intros σ. unfold same. by rewrite Hf.
  - intros e σ. unfold same.
    by destruct (_reraise_augmented_raises (A:=unit) self e σ) as (e' & -> & _).
Qed.

(** X27: [setup], [start], [finish] and [teardown] never call [process]
    and never touch the output counter, and [setup], [start] and
    [teardown] hand nothing to any receiver: what [setup] and [teardown]
    return is dropped. *)
Theorem bundle_methods_never_process (self : DoFnRunner) (σ : World) :
  (calls (runner_setup self σ).2 = calls σ ∧
   calls (runner_start self σ).2 = calls σ ∧
   calls (runner_finish self σ).2 = calls σ ∧
   calls (runner_teardown self σ).2 = calls σ) ∧
  (counter_inputs (runner_setup self σ).2 = counter_inputs σ ∧
   counter_inputs (runner_start self σ).2 = counter_inputs σ ∧
   counter_inputs (runner_finish self σ).2 = counter_inputs σ ∧
   counter_inputs (runner_teardown self σ).2 = counter_inputs σ) ∧
  (received (runner_setup self σ).2 = received σ ∧
   received (runner_start self σ).2 = received σ ∧
   received (runner_teardown self σ).2 = received σ).
Proof.
  assert (∀ {A} (f : World → A),
            (∀ g σ, f (set_heap g σ) = f σ) →
            (∀ g σ, f (set_ext g σ) = f σ) →
            (∀ x σ, f (set_context_element x σ) = f σ) →
            f (runner_setup self σ).2 = f σ ∧
            f (runner_teardown self σ).2 = f σ ∧
            f (runner_start self σ).2 = f σ) as Hquiet.
  { intros A f Hh He Hc. split_and!.
    - apply (bundle_method_keeps f self); [done|].
      unfold invoke_setup. by apply call_user_keeps.
    - apply (bundle_method_keeps f self); [done|].
      unfold invoke_teardown. by apply call_user_keeps.
    - apply (bundle_method_keeps f self); [done|].
      unfold invoke_start_bundle.
      apply keeps_bind; [apply _|by apply call_user_keeps|intros results].
      unfold start_bundle_outputs.
      destruct results; [apply keeps_ret|apply keeps_raise]; apply _. }
  assert (∀ {A} (f : World → A),
            (∀ g σ, f (set_heap g σ) = f σ) →
            (∀ g σ, f (set_ext g σ) = f σ) →
            (∀ g σ, f (set_received g σ) = f σ) →
            (∀ x σ, f (set_context_element x σ) = f σ) →
            f (runner_finish self σ).2 = f σ) as Hfinish.
  { intros A f Hh He Hr Hc.
    apply (bundle_method_keeps f self); [done|].
    unfold invoke_finish_bundle.
    apply keeps_bind; [apply _|by apply call_user_keeps|intros results].
    by apply finish_bundle_outputs_keeps. }
  destruct (Hquiet _ calls) as (? & ? & ?); [done..|].
  destruct (Hquiet _ counter_inputs) as (? & ? & ?); [done..|].
  destruct (Hquiet _ received) as (? & ? & ?); [done..|].
  pose proof (Hfinish _ calls ltac:(done) ltac:(done) ltac:(done) ltac:(done)).
  pose proof (Hfinish _ counter_inputs ltac:(done) ltac:(done) ltac:(done)
                ltac:(done)).
  by split_and!.
Qed.

End Lifecycle.

(** ** The statements on concrete inputs *)

Lemma non_string_tag_rejected_witness :
  let σ := Demo.world_with [Demo.two_windows (VStr "e")] in
  ∃ e, exn_class e = TypeError ∧
    process_outputs Demo.plain_processor (Some 0%nat)
      (ResIter ([VInt 7] ++ VTaggedOutput (VInt 1) (VInt 8) :: [VInt 9]) None) σ
    = match process_outputs_loop Demo.plain_processor (Some 0%nat) [VInt 7] 0 σ with
      | (Ok _, σ1) => (Raise e, σ1)
      | (Raise e', σ1) => (Raise e', σ1)
      end.
Proof.
  intros σ.
  apply (non_string_tag_rejected (H := Demo.demo_external)
           Demo.plain_processor (Some 0%nat) [VInt 7] [VInt 9]
           (VInt 1) (VInt 8) None σ).
  intros s. discriminate.
Defined.

Lemma unregistered_tag_rejected_witness :
  let σ := Demo.world_with [Demo.two_windows (VStr "e")] in
  let out := process_outputs Demo.plain_processor (Some 0%nat)
               (ResIter ([VInt 7] ++ VTaggedOutput (VStr "side") (VInt 8)
                                       :: [VInt 9]) None) σ in
  (∃ e, out.1 = Raise e) ∧
  match process_outputs_loop Demo.plain_processor (Some 0%nat) [VInt 7] 0 σ with
  | (Ok _, σ1) =>
      received out.2 = received σ1 ∧
      match to_windowed_value Demo.plain_processor (Some 0%nat) (VInt 8) σ1 with
      | (Ok _, σ2) => out = (Raise (new_exn KeyError "side"), σ2)
      | (Raise e, σ2) => out = (Raise e, σ2)
      end
  | (Raise e, σ1) => out = (Raise e, σ1)
  end.
Proof.
  intros σ.
  apply (unregistered_tag_rejected (H := Demo.demo_external)
           Demo.plain_processor (Some 0%nat) [VInt 7] [VInt 9]
           "side" (VInt 8) None σ).
  simpl. apply not_elem_of_empty.
Defined.

Lemma timestamped_value_rewindowed_witness :
  let input := Demo.two_windows (VStr "e") in
  let σ := Demo.world_with [input] in
  let out := process_outputs Demo.plain_processor (Some 0%nat)
               (ResIter [VTimestampedValue (VInt 7) 9] None) σ in
  out.1 = Ok tt ∧
  received out.2 = received σ ++ [(None, length (heap σ))] ∧
  heap out.2
  = heap σ ++
    [{| value := VInt 7; timestamp := 9;
        windows := if decide (length (windows input) ≠ 1%nat)
                   then times (window_fn Demo.plain_processor 9 (VInt 7))
                          (length (windows input))
                   else window_fn Demo.plain_processor 9 (VInt 7);
        pane_info := @PANE_INFO_UNKNOWN Demo.demo_external |}].
Proof.
  intros input σ.
  apply (timestamped_value_rewindowed (H := Demo.demo_external)
           Demo.plain_processor 0%nat input (VInt 7) 9 σ).
  reflexivity.
Defined.

Lemma simple_invoker_calls_once_witness :
  let sig := Demo.signature_of (Demo.dofn_with Demo.element_only Demo.emit_one) in
  let wv := Demo.two_windows (VStr "e") in
  let σ := Demo.world_with [wv] in
  let c := {| call_args := [value wv]; call_kwargs := ∅ |} in
  let out := SimpleInvoker_invoke_process Demo.plain_processor sig 0%nat None σ in
  calls out.2 = calls σ ++ [c] ∧
  context_element out.2 = context_element σ ∧
  ∀ items fresh u,
    process_body (do_fn sig) c (heap σ) (ext σ)
    = (Ok (ResIter items None), fresh, u) →
    forallb plain items = true →
    out.1 = Ok VNone ∧
    heap out.2 = heap σ ++ fresh ++ (with_value wv <$> items) ∧
    received out.2
    = received σ ++
      ((λ k, (None, (length (heap σ) + length fresh + k)%nat))
         <$> seq 0 (length items)).
Proof.
  intros sig wv σ.
  apply (simple_invoker_calls_once (H := Demo.demo_external)
           Demo.plain_processor sig 0%nat wv None σ).
  reflexivity.
Defined.




Lemma splittable_invocation_result_witness :
  let sig := Demo.signature_of
               (Demo.dofn_with Demo.element_and_tracker Demo.emit_one) in
  let self := Samples.invoker sig false true false [(0%nat, ElementParam)] in
  let wv := Demo.one_window (VStr "e") in
  let σ := Samples.ready [ArgPlaceholder ElementParam] false [wv] in
  let t := 0%nat in
  let r := VNone in
  let σ' := (invoke_process self 0%nat (Some t) None None None σ).2 in
  threadsafe_restriction_tracker σ' = None ∧
  if is_splittable self
  then
    tracker_check_done t (ext σ') = None ∧
    match tracker_deferred_status t (ext σ') with
    | None => r = VNone
    | Some (deferred_restriction, deferred_watermark) =>
        ∃ h x,
          heap σ' = h ++ [x] ∧
          r = VTuple [VTuple [VWindowedValue (length h);
                              match watermark_estimator self with
                              | Some _ => estimator_current_watermark (ext σ')
                              | None => VNone
                              end];
                      deferred_watermark] ∧
          value x = VTuple [VTuple [value wv; deferred_restriction];
                            @restriction_size Demo.demo_external (value wv)
                              deferred_restriction] ∧
          timestamp x = timestamp wv ∧
          pane_info x = pane_info wv
    end
  else r = VNone.
Proof.
  intros sig self wv σ t r.
  apply (splittable_invocation_result (H := Demo.demo_external)
           self 0%nat wv t None None None σ r).
  - reflexivity.
  - reflexivity.
Defined.

Lemma stateful_runner_invoker_witness :
  let out := DoFnRunner_init Samples.stateful_dofn None None []
               (λ _ _, [GlobalWindow]) ∅ (Some "step") false
               (Some Samples.no_state) (Demo.world_with []) in
  (Some Samples.no_state = None →
   ∃ e, out.1 = Raise e ∧
        (DoFnSignature_init Samples.stateful_dofn = Raise e ∨
         exn_class e = Exception)) ∧
  (∀ runner, out.1 = Ok runner →
     ∃ self, do_fn_invoker runner = PerWindow self ∧
             has_windowed_inputs self = true ∧
             is_Some (user_state_context self) ∧
             user_state_context self = Some Samples.no_state ∧
             needs_key self = true).
Proof.
  apply (stateful_runner_invoker (H := Demo.demo_external)
           Samples.stateful_dofn None None [] (λ _ _, [GlobalWindow]) ∅
           (Some "step") false (Some Samples.no_state) (Demo.world_with [])).
  reflexivity.
Defined.

Lemma step_annotated_once_witness :
  let d := Demo.dofn_with Demo.element_only Demo.failing in
  let inner := Samples.simple_runner d in
  let outer := @Build_DoFnRunner Demo.demo_external (Some "outer")
                 (@SimpleInvoker Demo.demo_external Demo.plain_processor
                    (Demo.signature_of d)) in
  let m := @raise Demo.demo_external unit (new_exn ValueError "boom") in
  let σ := Demo.world_with [] in
  try_except (try_except m (_reraise_augmented inner))
    (_reraise_augmented outer) σ
  = try_except m (_reraise_augmented inner) σ.
Proof.
  intros d inner outer m σ.
  apply (step_annotated_once (H := Demo.demo_external) inner outer m σ).
  reflexivity.
Defined.

Lemma timer_outputs_in_firing_window_witness :
  let sig := Demo.signature_of Samples.stateful_dofn in
  let inv := @SimpleInvoker Demo.demo_external Demo.plain_processor sig in
  let all : gmap string (@TimerCallback Demo.demo_external) :=
    {["tick" := Samples.ticking]} in
  let σ := Demo.world_with [] in
  let fired := {| value := VNone; timestamp := 9; windows := [Demo.w1];
                  pane_info := @PANE_INFO_UNKNOWN Demo.demo_external |} in
  let out := invoke_user_timer Samples.of_seconds inv all "tick" (VStr "k")
               Demo.w1 9 σ in
  out.1 = Ok tt ∧
  calls out.2 = calls σ ∧
  heap out.2
  = heap σ ++ [fired] ++ [] ++
    ((λ v, {| value := v; timestamp := 9; windows := [Demo.w1];
              pane_info := @PANE_INFO_UNKNOWN Demo.demo_external |})
       <$> [VInt 1]) ∧
  received out.2
  = received σ ++
    ((λ k, (None, (length (heap σ) + 1 + length ([] : list WindowedValue) + k)%nat))
       <$> seq 0 (length [VInt 1])).
Proof.
  intros sig inv all σ fired.
  apply (timer_outputs_in_firing_window (H := Demo.demo_external)
           Samples.of_seconds inv all "tick" (VStr "k") Demo.w1 9
           Samples.ticking ∅ [VInt 1] [] 0%Z σ).
  - reflexivity.
  - reflexivity.
  - reflexivity.
  - reflexivity.
Defined.


Lemma context_holds_processed_element_witness :
  let sig := Demo.signature_of
               (Demo.dofn_with Demo.element_and_window Demo.emit_one) in
  let inv := Samples.invoker sig true false false
               [(0%nat, ElementParam); (1%nat, WindowParam)] in
  let self := Samples.per_window_runner inv in
  let wv := Demo.two_windows (VStr "e") in
  let σ := Samples.ready [ArgPlaceholder ElementParam; ArgPlaceholder WindowParam]
             false [wv] in
  let σ' := (runner_process self 0%nat σ).2 in
  context_element σ' = Some 0%nat ∧
  (DoFnContext_element σ').1 = Ok (value wv) ∧
  (DoFnContext_timestamp σ').1 = Ok (timestamp wv) ∧
  ∃ ws, (DoFnContext_windows σ').1 = Ok ws.
Proof.
  intros sig inv self wv σ.
  apply (context_holds_processed_element (H := Demo.demo_external)
           self inv 0%nat wv σ).
  - reflexivity.
  - reflexivity.
Defined.

Lemma runner_faults_carry_step_witness :
  let self := Samples.simple_runner
                (Demo.dofn_with Demo.element_only Demo.failing) in
  let all : gmap string (@TimerCallback Demo.demo_external) := ∅ in
  let σ := Demo.world_with [Demo.one_window (VStr "e")] in
  let e := {| exn_class := ValueError;
              exn_args := [VStr "boom [while running 'step']"];
              _tagged_with_step := true |} in
  (∀ l, (runner_process self l σ).1 = Raise e → _tagged_with_step e = true) ∧
  ((process_user_timer Samples.of_seconds self all "tick" (VStr "k") Demo.w1 9 σ).1
   = Raise e → _tagged_with_step e = true) ∧
  ((runner_setup self σ).1 = Raise e → _tagged_with_step e = true) ∧
  ((runner_start self σ).1 = Raise e → _tagged_with_step e = true) ∧
  ((runner_finish self σ).1 = Raise e → _tagged_with_step e = true) ∧
  ((runner_teardown self σ).1 = Raise e → _tagged_with_step e = true).
Proof.
  intros self all σ e.
  apply (runner_faults_carry_step (H := Demo.demo_external)
           Samples.of_seconds self all "tick" (VStr "k") Demo.w1 9 σ e).
  reflexivity.
Defined.


Lemma splittable_without_tracker_witness :
  let sig := Demo.signature_of
               (Demo.dofn_with Demo.element_and_tracker Demo.emit_one) in
  let self := Samples.invoker sig false true false [(0%nat, ElementParam)] in
  let wv := Demo.one_window (VStr "e") in
  let σ := Samples.ready [ArgPlaceholder ElementParam] false [wv] in
  let made := @create_tracker Demo.demo_external
                (@initial_restriction Demo.demo_external (value wv)) (ext σ) in
  invoke_process self 0%nat None None None None σ
  = invoke_process self 0%nat (Some made.1) None None None
      (set_ext (λ _, made.2) σ).
Proof.
  intros sig self wv σ.
  apply (splittable_without_tracker (H := Demo.demo_external)
           self 0%nat wv None None None σ).
  - reflexivity.
  - reflexivity.
  - reflexivity.
Defined.

